(** * qTox audio core ([src/audio/audio.cpp]): a shallow embedding

    The translation unit implements the [Audio] singleton: input gain,
    reference-counted capture and playback sessions on top of OpenAL, the
    periodic capture tick, the per-voice playback queue and the one-shot
    notification player.

    Every public member function takes the audio lock on entry, so calls
    never interleave; a call is modelled as one atomic transition of the
    record [Audio] below.  What the translation unit obtains from outside
    (constants of [audio.h], Qt and libm helpers, [Settings], the answers
    of the ALC driver) is gathered in the record [Env], one value per call.
    The state that OpenAL keeps for sources and buffers is modelled
    explicitly ([OpenAL]), because the playback code reads it back.

    Left out: [qDebug] output and the warnings of [checkAlError] and
    [checkAlcError], which change no state; the listener gain that OpenAL
    keeps, and with it the getter [outputVolume]; the threads and timers
    the constructor sets up; the overload of [playMono16Sound] that reads
    a file and forwards its bytes; the rate, format and buffer size handed
    to [alcCaptureOpenDevice], which only the driver sees. *)

From Stdlib Require Import ZArith NArith List String Bool Lia Floats.
From stdpp Require Import base option list gmap.
Import ListNotations.

Local Open Scope Z_scope.

(** ** Scalars *)

(** [ALuint] names of sources and buffers; [0] is never a valid name. *)
Definition ALuint := N.
(** Non-null [ALCdevice*] / [ALCcontext*]; [nullptr] is [None]. *)
Definition ALCdevice := N.
Definition ALCcontext := N.

Definition INT_MIN : Z := - 2 ^ 31.
Definition INT_MAX : Z := 2 ^ 31 - 1.
Definition INT16_MIN : Z := - 32768.
Definition INT16_MAX : Z := 32767.

(** [static_cast<int16_t>(int)]: reduction modulo 2^16 into the signed range. *)
Definition int16_of_int (z : Z) : Z := (z + 32768) mod 65536 - 32768.

(** Qt's [qMin], [qMax] and [qBound] templates, written with the type's
    [operator<] as in [qglobal.h]:
    [qMin(a,b) = (a < b) ? a : b], [qMax(a,b) = (a < b) ? b : a],
    [qBound(min,val,max) = qMax(min, qMin(max, val))]. *)
Definition qMin {T : Type} (lt : T -> T -> bool) (a b : T) : T :=
  if lt a b then a else b.
Definition qMax {T : Type} (lt : T -> T -> bool) (a b : T) : T :=
  if lt a b then b else a.
Definition qBound {T : Type} (lt : T -> T -> bool) (min val max : T) : T :=
  qMax lt min (qMin lt max val).

(** [qreal] is [double]: IEEE-754 binary64, the kernel's primitive floats. *)
Definition qreal := float.

(** Conversion [int -> double]; exact for the magnitudes used here. *)
Definition double_of_int (z : Z) : float :=
  if z <? 0 then PrimFloat.opp (PrimFloat.of_uint63 (Uint63.of_Z (- z)))
  else PrimFloat.of_uint63 (Uint63.of_Z z).

(** Conversion [double -> int], i.e. [int(d)]: truncation toward zero.
    C++ leaves the conversion undefined when the truncated value does not
    fit in [int] (and for infinities and NaN): that is [None]. *)
Definition int_of_double (x : float) : option Z :=
  match Prim2SF x with
  | S754_zero _ => Some 0
  | S754_finite sg m e =>
      let a := if 0 <=? e then Z.pos m * 2 ^ e else Z.pos m / 2 ^ (- e) in
      let v := if sg then - a else a in
      if (INT_MIN <=? v) && (v <=? INT_MAX) then Some v else None
  | S754_infinity _ => None
  | S754_nan => None
  end.

(** Qt 5's [qRound(double)]:
    [d >= 0.0 ? int(d + 0.5) : int(d - double(int(d-1)) + 0.5) + int(d-1)]. *)
Definition qRound (x : float) : option Z :=
  if PrimFloat.leb 0 x then int_of_double (x + 0.5)%float
  else
    match int_of_double (x - 1)%float with
    | None => None
    | Some k =>
        match int_of_double (x - double_of_int k + 0.5)%float with
        | None => None
        | Some r =>
            if (INT_MIN <=? r + k) && (r + k <=? INT_MAX) then Some (r + k)
            else None
        end
    end.

(** ** [Audio::Private]: the input gain *)

Record Private := mkPrivate {
  minInputGain : qreal;
  maxInputGain : qreal;
  gain : qreal;
  gainFactor : qreal
}.

(** The constructor's member initialisers. *)
Definition Private_new : Private :=
  mkPrivate (-30)%float 30%float 0%float 0%float.

Definition inputGain (p : Private) : qreal := gain p.
Definition inputGainFactor (p : Private) : qreal := gainFactor p.

(** [Private::setInputGain]; [qPow] is libm's [pow] behind Qt's wrapper. *)
Definition Private_setInputGain (qPow : float -> float -> float)
    (dB : qreal) (p : Private) : Private :=
  let g := qBound PrimFloat.ltb (minInputGain p) dB (maxInputGain p) in
  mkPrivate (minInputGain p) (maxInputGain p) g (qPow 10%float (g / 20)%float).

Definition Private_setMin (dB : qreal) (p : Private) : Private :=
  mkPrivate dB (maxInputGain p) (gain p) (gainFactor p).
Definition Private_setMax (dB : qreal) (p : Private) : Private :=
  mkPrivate (minInputGain p) dB (gain p) (gainFactor p).

(** The gain step of the capture loop on one sample:
    [qBound<int>(int16 min, qRound(buf[i] * factor), int16 max)] followed by
    [static_cast<int16_t>].  [None] when [qRound] is undefined. *)
Definition amplify (factor : qreal) (sample : Z) : option Z :=
  match qRound (double_of_int sample * factor)%float with
  | None => None
  | Some r => Some (int16_of_int (qBound Z.ltb INT16_MIN r INT16_MAX))
  end.

(** The loop [for (i = 0; i < n; ++i) buf[i] = ...] over the frame buffer. *)
Fixpoint gainLoop (factor : qreal) (todo : nat) (i : nat) (buf : list Z)
    : option (list Z) :=
  match todo with
  | O => Some buf
  | S todo' =>
      match buf !! i with
      | None => None
      | Some sample =>
          match amplify factor sample with
          | None => None
          | Some v => gainLoop factor todo' (S i) (<[i := v]> buf)
          end
      end
  end.

(** ** The OpenAL state the playback code reads back

    AL calls act on the context that is current.  The code has at most one
    context, [alOutContext]; the model keeps the sources of that context
    for as long as it is current ([al_context]): without a current context
    there is no source to look up and no call generates one.  Buffers
    belong to the device; generating, filling and deleting them needs a
    current context as well.

    A source has a queue of streaming buffers (oldest first) of which a
    prefix has been played ("processed"), a statically attached buffer
    ([AL_BUFFER], [0] being [AL_NONE]), the looping flag and its play
    state.  Names come from one counter and are never [0].

    A call that OpenAL refuses changes nothing: it raises an error, which
    the code ignores.  The refusals that are modelled are: any call made
    without a current context; a call on a source name that is not valid;
    filling or deleting a buffer name that is not valid;
    [alSourcei(AL_BUFFER)] on a source that is playing; [alBufferData] and
    [alDeleteBuffers] on a buffer that a source still uses.  Other checks
    of OpenAL are not modelled: the sizes, rates and formats it accepts (a
    buffer stores what it is given), the validity of a buffer name that is
    attached or queued, and the distinction it makes between a source with
    an attached buffer and a source with a queue (the code attaches to the
    dedicated voice only and queues on the others only). *)

(** [AL_PAUSED] is left out: nothing in the translation unit pauses a
    source, and the code compares a state with [AL_PLAYING] and
    [AL_STOPPED] only, so any other value acts like [AL_INITIAL]. *)
Inductive SourceState := AL_INITIAL | AL_PLAYING | AL_STOPPED.

Inductive Format := AL_FORMAT_MONO16 | AL_FORMAT_STEREO16.

Record Source := mkSource {
  src_queue : list ALuint;
  src_processed : nat;
  src_buffer : ALuint;
  src_looping : bool;
  src_state : SourceState
}.

Record Buffer := mkBuffer {
  buf_format : Format;
  buf_data : list Z;
  buf_size : Z;
  buf_rate : Z
}.

Record OpenAL := mkOpenAL {
  (* the sources of the current context; [None]: no context is current *)
  al_context : option (gmap N Source);
  al_buffers : gmap N Buffer;
  al_last : N
}.

Definition OpenAL_new : OpenAL := mkOpenAL None ∅ 0%N.

(** The sources an AL call can see. *)
Definition al_sources (w : OpenAL) : gmap N Source :=
  match al_context w with
  | Some sources => sources
  | None => ∅
  end.

Definition Source_new : Source := mkSource [] 0 0%N false AL_INITIAL.
Definition Buffer_new : Buffer := mkBuffer AL_FORMAT_MONO16 [] 0 0.

Definition SourceState_eqb (a b : SourceState) : bool :=
  match a, b with
  | AL_INITIAL, AL_INITIAL | AL_PLAYING, AL_PLAYING
  | AL_STOPPED, AL_STOPPED => true
  | _, _ => false
  end.

Definition on_sources (f : gmap N Source -> gmap N Source) (w : OpenAL) : OpenAL :=
  mkOpenAL (f <$> al_context w) (al_buffers w) (al_last w).
Definition on_buffers (f : gmap N Buffer -> gmap N Buffer) (w : OpenAL) : OpenAL :=
  match al_context w with
  | Some _ => mkOpenAL (al_context w) (f (al_buffers w)) (al_last w)
  | None => w
  end.

(** A successful [alcMakeContextCurrent(ctx)].  With [nullptr] no context
    is current afterwards.  With a context: the code only ever passes
    [alOutContext], so either that context is current already, or it is a
    context that has not been current before and has no sources yet. *)
Definition makeCurrent (ctx : option ALCcontext) (w : OpenAL) : OpenAL :=
  match ctx, al_context w with
  | None, _ => mkOpenAL None (al_buffers w) (al_last w)
  | Some _, Some _ => w
  | Some _, None => mkOpenAL (Some ∅) (al_buffers w) (al_last w)
  end.

(** [alcDestroyContext]: the sources of the context go with it, and no
    context is current afterwards. *)
Definition alcDestroyContext (w : OpenAL) : OpenAL :=
  mkOpenAL None (al_buffers w) (al_last w).

(** [alGenSources(1, &sid)] and [alGenBuffers(1, &bid)]: a fresh name is
    written to the variable; without a current context nothing is
    generated and the variable keeps its value. *)
Definition alGenSources (sid : ALuint) (w : OpenAL) : ALuint * OpenAL :=
  match al_context w with
  | Some sources =>
      let n := N.succ (al_last w) in
      (n, mkOpenAL (Some (<[n := Source_new]> sources)) (al_buffers w) n)
  | None => (sid, w)
  end.
Definition alGenBuffers (bid : ALuint) (w : OpenAL) : ALuint * OpenAL :=
  match al_context w with
  | Some sources =>
      let n := N.succ (al_last w) in
      (n, mkOpenAL (Some sources) (<[n := Buffer_new]> (al_buffers w)) n)
  | None => (bid, w)
  end.

Definition alIsSource (sid : ALuint) (w : OpenAL) : bool :=
  bool_decide (is_Some (al_sources w !! sid)).

(** A source uses the buffer it has attached and the buffers of its
    queue. *)
Definition uses_buffer (b : ALuint) (s : Source) : bool :=
  negb (b =? 0)%N && ((src_buffer s =? b)%N || existsb (N.eqb b) (src_queue s)).
Definition buffer_in_use (b : ALuint) (w : OpenAL) : bool :=
  bool_decide (map_Exists (fun _ s => uses_buffer b s = true) (al_sources w)).

Definition alDeleteSources (sid : ALuint) : OpenAL -> OpenAL :=
  on_sources (delete sid).
(** [alDeleteBuffers(n, bids)] deletes all the buffers or none: the call
    is refused when one of the names is not a valid buffer or is in use;
    the name [0] is skipped. *)
Definition deletable (b : ALuint) (w : OpenAL) : bool :=
  (b =? 0)%N ||
  (bool_decide (is_Some (al_buffers w !! b)) && negb (buffer_in_use b w)).
Definition alDeleteBuffers (bids : list ALuint) (w : OpenAL) : OpenAL :=
  if forallb (fun b => deletable b w) bids
  then on_buffers (fun m => foldr delete m bids) w
  else w.

Definition set_looping (b : bool) (s : Source) : Source :=
  mkSource (src_queue s) (src_processed s) (src_buffer s) b (src_state s).
(** [alSourcei(sid, AL_BUFFER, b)] is refused while the source plays. *)
Definition set_buffer (b : ALuint) (s : Source) : Source :=
  match src_state s with
  | AL_PLAYING => s
  | _ => mkSource (src_queue s) (src_processed s) b (src_looping s) (src_state s)
  end.

(** [alSourceStop]: a source that was started becomes stopped and all its
    queued buffers count as processed. *)
Definition stop_source (s : Source) : Source :=
  match src_state s with
  | AL_INITIAL => s
  | _ => mkSource (src_queue s) (length (src_queue s)) (src_buffer s)
                  (src_looping s) AL_STOPPED
  end.
(** [alSourcePlay]: playing (re)starts from the head of the queue. *)
Definition play_source (s : Source) : Source :=
  mkSource (src_queue s) 0 (src_buffer s) (src_looping s) AL_PLAYING.
(** [alSourceUnqueueBuffers(sid, n, bufids)] removes [n] played buffers. *)
Definition unqueue_source (n : nat) (s : Source) : Source :=
  mkSource (drop n (src_queue s)) (src_processed s - n) (src_buffer s)
           (src_looping s) (src_state s).
Definition queue_source (b : ALuint) (s : Source) : Source :=
  mkSource (src_queue s ++ [b]) (src_processed s) (src_buffer s)
           (src_looping s) (src_state s).

Definition alSourcei_LOOPING (sid : ALuint) (b : bool) : OpenAL -> OpenAL :=
  on_sources (alter (set_looping b) sid).
Definition alSourcei_BUFFER (sid : ALuint) (b : ALuint) : OpenAL -> OpenAL :=
  on_sources (alter (set_buffer b) sid).
Definition alSourceStop (sid : ALuint) : OpenAL -> OpenAL :=
  on_sources (alter stop_source sid).
Definition alSourcePlay (sid : ALuint) : OpenAL -> OpenAL :=
  on_sources (alter play_source sid).
Definition alSourceUnqueueBuffers (sid : ALuint) (n : nat) : OpenAL -> OpenAL :=
  on_sources (alter (unqueue_source n) sid).
Definition alSourceQueueBuffers (sid : ALuint) (b : ALuint) : OpenAL -> OpenAL :=
  on_sources (alter (queue_source b) sid).
(** [alBufferData] is refused on a buffer that a source uses. *)
Definition alBufferData (bid : ALuint) (b : Buffer) (w : OpenAL) : OpenAL :=
  if buffer_in_use bid w then w
  else on_buffers (alter (fun _ => b) bid) w.

(** What the driver does on its own between two calls: it plays [k] more
    queued buffers of a streaming source, which stops when it runs dry ... *)
Definition advance_source (k : nat) (s : Source) : Source :=
  match src_state s with
  | AL_PLAYING =>
      let p := Nat.min (length (src_queue s)) (src_processed s + k) in
      mkSource (src_queue s) p (src_buffer s) (src_looping s)
               (if (p =? length (src_queue s))%nat then AL_STOPPED else AL_PLAYING)
  | _ => s
  end.
(** ... and it reaches the end of a statically attached clip. *)
Definition finish_source (s : Source) : Source :=
  match src_state s with
  | AL_PLAYING =>
      if src_looping s then s
      else mkSource (src_queue s) (length (src_queue s)) (src_buffer s)
                    false AL_STOPPED
  | _ => s
  end.

(** ** Everything a call obtains from outside *)

Record Env := mkEnv {
  (* audio.h *)
  AUDIO_SAMPLE_RATE : Z;
  AUDIO_FRAME_DURATION : Z;
  AUDIO_FRAME_SAMPLE_COUNT : Z;
  AUDIO_CHANNELS : Z;
  (* <QtMath> *)
  qPow : float -> float -> float;
  (* Settings::getInstance() *)
  getInDev : string;
  getOutDev : string;
  getAudioInGain : qreal;
  getOutVolume : Z;
  (* the filter of QTOX_FILTER_AUDIO builds when Settings::getFilterAudio()
     holds; [None] when compiled out or switched off *)
  filterAudio : option (list Z -> list Z);
  (* Core::getInstance() != nullptr *)
  coreInstance : bool;
  (* answers of the ALC driver *)
  inDeviceNames : option string;
  outDeviceNames : option string;
  alcCaptureOpenDevice : string -> option ALCdevice;
  alcCaptureCloseDevice : ALCdevice -> bool;
  alcOpenDevice : string -> option ALCdevice;
  alcCreateContext : ALCdevice -> option ALCcontext;
  alcMakeContextCurrent : option ALCcontext -> bool;
  alcCloseDevice : ALCdevice -> bool;
  (* ALC_CAPTURE_SAMPLES and the samples alcCaptureSamples delivers *)
  captureAvailable : Z;
  captureData : nat -> Z;
  (* content of the uninitialised local [state] when alGetSourcei fails *)
  indeterminate : SourceState;
  (* the event loop's clock, in milliseconds *)
  now : Z
}.

(** ** Observable effects *)

Inductive Effect :=
| qWarning (msg : string)
| AlcCaptureStart (dev : ALCdevice)
| AlcCaptureStop (dev : ALCdevice)
| AlcCaptureCloseDevice (dev : ALCdevice)
| AlcCaptureSamples (dev : ALCdevice) (samples : Z)
| FrameAvailable (pcm : list Z) (samples channels rate : Z)
| AlListenerGain (percent : Z)
| InvalidateCallSources
| AlcDestroyContext (ctx : option ALCcontext)
| AlcCloseDevice (dev : ALCdevice).

(** ** The [Audio] object, with the OpenAL state and the effect log *)

(** Modelled from the spec: the type of the member [inSubscriptions].  It is
    declared in [audio.h], which is not part of this translation unit; the
    spec describes the input subscription count as a non-negative integer.
    The width of the C++ member, and with it the wrap-around of
    [inSubscriptions++], is not modelled. *)
Definition SubscriptionCount : Set := N.

Record Audio := mkAudio {
  d : Private;
  alInDev : option ALCdevice;
  inSubscriptions : SubscriptionCount;
  alOutDev : option ALCdevice;
  alOutContext : option ALCcontext;
  alMainSource : ALuint;
  alMainBuffer : ALuint;
  outputInitialized : bool;
  outSources : list ALuint;
  (* deadline of the single-shot [playMono16Timer] while it is active *)
  playMono16Timer : option Z;
  openal : OpenAL;
  effects : list Effect
}.

(** [Audio::Audio()]. *)
Definition Audio_new : Audio :=
  mkAudio Private_new None 0%N None None 0%N 0%N false [] None OpenAL_new [].

Definition set_d (v : Private) (a : Audio) : Audio :=
  mkAudio v (alInDev a) (inSubscriptions a) (alOutDev a) (alOutContext a)
    (alMainSource a) (alMainBuffer a) (outputInitialized a) (outSources a)
    (playMono16Timer a) (openal a) (effects a).
Definition set_alInDev (v : option ALCdevice) (a : Audio) : Audio :=
  mkAudio (d a) v (inSubscriptions a) (alOutDev a) (alOutContext a)
    (alMainSource a) (alMainBuffer a) (outputInitialized a) (outSources a)
    (playMono16Timer a) (openal a) (effects a).
Definition set_inSubscriptions (v : N) (a : Audio) : Audio :=
  mkAudio (d a) (alInDev a) v (alOutDev a) (alOutContext a)
    (alMainSource a) (alMainBuffer a) (outputInitialized a) (outSources a)
    (playMono16Timer a) (openal a) (effects a).
Definition set_alOutDev (v : option ALCdevice) (a : Audio) : Audio :=
  mkAudio (d a) (alInDev a) (inSubscriptions a) v (alOutContext a)
    (alMainSource a) (alMainBuffer a) (outputInitialized a) (outSources a)
    (playMono16Timer a) (openal a) (effects a).
Definition set_alOutContext (v : option ALCcontext) (a : Audio) : Audio :=
  mkAudio (d a) (alInDev a) (inSubscriptions a) (alOutDev a) v
    (alMainSource a) (alMainBuffer a) (outputInitialized a) (outSources a)
    (playMono16Timer a) (openal a) (effects a).
Definition set_alMainSource (v : ALuint) (a : Audio) : Audio :=
  mkAudio (d a) (alInDev a) (inSubscriptions a) (alOutDev a) (alOutContext a)
    v (alMainBuffer a) (outputInitialized a) (outSources a)
    (playMono16Timer a) (openal a) (effects a).
Definition set_alMainBuffer (v : ALuint) (a : Audio) : Audio :=
  mkAudio (d a) (alInDev a) (inSubscriptions a) (alOutDev a) (alOutContext a)
    (alMainSource a) v (outputInitialized a) (outSources a)
    (playMono16Timer a) (openal a) (effects a).
Definition set_outputInitialized (v : bool) (a : Audio) : Audio :=
  mkAudio (d a) (alInDev a) (inSubscriptions a) (alOutDev a) (alOutContext a)
    (alMainSource a) (alMainBuffer a) v (outSources a)
    (playMono16Timer a) (openal a) (effects a).
Definition set_outSources (v : list ALuint) (a : Audio) : Audio :=
  mkAudio (d a) (alInDev a) (inSubscriptions a) (alOutDev a) (alOutContext a)
    (alMainSource a) (alMainBuffer a) (outputInitialized a) v
    (playMono16Timer a) (openal a) (effects a).
Definition set_playMono16Timer (v : option Z) (a : Audio) : Audio :=
  mkAudio (d a) (alInDev a) (inSubscriptions a) (alOutDev a) (alOutContext a)
    (alMainSource a) (alMainBuffer a) (outputInitialized a) (outSources a)
    v (openal a) (effects a).
Definition set_openal (v : OpenAL) (a : Audio) : Audio :=
  mkAudio (d a) (alInDev a) (inSubscriptions a) (alOutDev a) (alOutContext a)
    (alMainSource a) (alMainBuffer a) (outputInitialized a) (outSources a)
    (playMono16Timer a) v (effects a).
Definition set_effects (v : list Effect) (a : Audio) : Audio :=
  mkAudio (d a) (alInDev a) (inSubscriptions a) (alOutDev a) (alOutContext a)
    (alMainSource a) (alMainBuffer a) (outputInitialized a) (outSources a)
    (playMono16Timer a) (openal a) v.

(** ** State and failure monad of a call

    A call either returns (a value and the new state) or it does not: a
    failed [assert] aborts the process, and undefined behaviour of the C++
    abstract machine leaves no state to speak about. *)

Inductive Failure := AssertionFailed | UndefinedBehaviour.

Inductive Res (A : Type) :=
| Ok (a : A) (s : Audio)
| Abort (f : Failure).
Arguments Ok {A} a s.
Arguments Abort {A} f.

Definition M (A : Type) : Type := Audio -> Res A.

#[global] Instance M_ret : MRet M := fun A a s => Ok a s.
#[global] Instance M_bind : MBind M := fun A B f m s =>
  match m s with
  | Ok a s' => f a s'
  | Abort e => Abort e
  end.

Definition gets {A : Type} (f : Audio -> A) : M A := fun s => Ok (f s) s.
Definition modify (f : Audio -> Audio) : M unit := fun s => Ok tt (f s).
Definition abort {A : Type} (e : Failure) : M A := fun _ => Abort e.
Definition emit (e : Effect) : M unit :=
  modify (fun s => set_effects (effects s ++ [e]) s).
Definition al (f : OpenAL -> OpenAL) : M unit :=
  modify (fun s => set_openal (f (openal s)) s).
Definition assert (b : bool) : M unit :=
  if b then mret tt else abort AssertionFailed.
Definition when (b : bool) (m : M unit) : M unit :=
  if b then m else mret tt.

(** [alGetSourcei(sid, AL_SOURCE_STATE, &state)] on a local that was not
    initialised. *)
Definition getSourceState (env : Env) (sid : ALuint) : M SourceState :=
  w ← gets openal;
  mret (match al_sources w !! sid with
        | Some s => src_state s
        | None => indeterminate env
        end).

(** ** Input gain (public wrappers) *)

Definition setMinInputGain (dB : qreal) : M unit :=
  modify (fun s => set_d (Private_setMin dB (d s)) s).
Definition setMaxInputGain (dB : qreal) : M unit :=
  modify (fun s => set_d (Private_setMax dB (d s)) s).
Definition setInputGain (env : Env) (dB : qreal) : M unit :=
  modify (fun s => set_d (Private_setInputGain (qPow env) dB (d s)) s).

(** ** Capture session *)

(** An empty descriptor stands for the first enumerated device, when the
    driver enumerates one. *)
Definition resolveDevice (names : option string) (descr : string) : string :=
  if String.eqb descr EmptyString then
    match names with
    | Some first => first
    | None => descr
    end
  else descr.

(** [Audio::cleanupInput]. *)
Definition cleanupInput (env : Env) : M unit :=
  cur ← gets alInDev;
  match cur with
  | None => mret tt
  | Some dev =>
      emit (AlcCaptureStop dev);;
      emit (AlcCaptureCloseDevice dev);;
      if alcCaptureCloseDevice env dev then modify (set_alInDev None)
      else emit (qWarning "Failed to close input")
  end.

(** [Audio::initInput]. *)
Definition initInput (env : Env) (inDevDescr : string) : M bool :=
  if String.eqb inDevDescr "none" then mret true
  else
    cur ← gets alInDev;
    assert (bool_decide (cur = None));;
    let inDevDescr := resolveDevice (inDeviceNames env) inDevDescr in
    when (negb (String.eqb inDevDescr EmptyString))
         (modify (set_alInDev (alcCaptureOpenDevice env inDevDescr)));;
    cur ← gets alInDev;
    match cur with
    | None =>
        emit (qWarning "Failed to initialize audio input device");;
        mret false
    | Some dev =>
        setInputGain env (getAudioInGain env);;
        emit (AlcCaptureStart dev);;
        mret true
    end.

(** [Audio::autoInitInput]. *)
Definition autoInitInput (env : Env) : M bool :=
  cur ← gets alInDev;
  match cur with
  | Some _ => mret true
  | None => initInput env (getInDev env)
  end.

(** [Audio::subscribeInput]. *)
Definition subscribeInput (env : Env) : M unit :=
  ok ← autoInitInput env;
  if negb ok then emit (qWarning "Failed to subscribe to audio input device.")
  else modify (fun s => set_inSubscriptions (N.succ (inSubscriptions s)) s).

(** [Audio::unsubscribeInput]. *)
Definition unsubscribeInput (env : Env) : M unit :=
  n ← gets inSubscriptions;
  if (n =? 0)%N then mret tt
  else
    modify (fun s => set_inSubscriptions (N.pred (inSubscriptions s)) s);;
    n ← gets inSubscriptions;
    when (n =? 0)%N (cleanupInput env).

(** [Audio::reinitInput]. *)
Definition reinitInput (env : Env) (inDevDesc : string) : M unit :=
  cleanupInput env;;
  _ ← initInput env inDevDesc;
  mret tt.

(** [Audio::isInputReady]. *)
Definition isInputReady (s : Audio) : bool :=
  bool_decide (is_Some (alInDev s)) && negb (inSubscriptions s =? 0)%N.

(** ** Capture tick *)

(** Number of [int16_t] in the frame buffer
    [buf[AUDIO_FRAME_SAMPLE_COUNT * AUDIO_CHANNELS]]. *)
Definition frameLength (env : Env) : nat :=
  Z.to_nat (AUDIO_FRAME_SAMPLE_COUNT env * AUDIO_CHANNELS env).

(** The frame buffer after [alcCaptureSamples] and, when the filter is
    active, after [filterAudio] has rewritten it in place. *)
Definition capturedFrame (env : Env) : list Z :=
  let buf := map (fun i => int16_of_int (captureData env i))
                 (seq 0 (frameLength env)) in
  match filterAudio env with
  | None => buf
  | Some f =>
      map (fun i => int16_of_int (default 0 (f buf !! i)))
          (seq 0 (frameLength env))
  end.

(** [Audio::doCapture], the slot of the periodic [captureTimer]. *)
Definition doCapture (env : Env) : M unit :=
  cur ← gets alInDev;
  n ← gets inSubscriptions;
  match cur with
  | None => mret tt
  | Some dev =>
      if (n =? 0)%N then mret tt
      else if captureAvailable env <? AUDIO_FRAME_SAMPLE_COUNT env then mret tt
      else
        emit (AlcCaptureSamples dev (AUDIO_FRAME_SAMPLE_COUNT env));;
        factor ← gets (fun s => inputGainFactor (d s));
        match gainLoop factor (frameLength env) 0 (capturedFrame env) with
        | None => abort UndefinedBehaviour
        | Some buf =>
            emit (FrameAvailable buf (AUDIO_FRAME_SAMPLE_COUNT env)
                    (AUDIO_CHANNELS env) (AUDIO_SAMPLE_RATE env))
        end
  end.

(** ** Playback session *)

(** [Audio::cleanupOutput]. *)
Definition cleanupOutput (env : Env) : M unit :=
  modify (set_outputInitialized false);;
  cur ← gets alOutDev;
  match cur with
  | None => mret tt
  | Some dev =>
      main ← gets alMainSource;
      al (alSourcei_LOOPING main false);;
      al (alSourceStop main);;
      al (alDeleteSources main);;
      mb ← gets alMainBuffer;
      when (negb (mb =? 0)%N)
           (al (alDeleteBuffers [mb]);; modify (set_alMainBuffer 0%N));;
      (if alcMakeContextCurrent env None then al (makeCurrent None)
       else emit (qWarning "Failed to clear audio context."));;
      ctx ← gets alOutContext;
      emit (AlcDestroyContext ctx);;
      al alcDestroyContext;;
      modify (set_alOutContext None);;
      emit (AlcCloseDevice dev);;
      if alcCloseDevice env dev then modify (set_alOutDev None)
      else emit (qWarning "Failed to close output.")
  end.

(** [Audio::initOutput]. *)
Definition initOutput (env : Env) (outDevDescr : string) : M bool :=
  modify (set_outSources []);;
  modify (set_outputInitialized false);;
  if String.eqb outDevDescr "none" then mret false
  else
    cur ← gets alOutDev;
    assert (bool_decide (cur = None));;
    let outDevDescr := resolveDevice (outDeviceNames env) outDevDescr in
    when (negb (String.eqb outDevDescr EmptyString))
         (modify (set_alOutDev (alcOpenDevice env outDevDescr)));;
    cur ← gets alOutDev;
    match cur with
    | None =>
        emit (qWarning "Cannot open output audio device");;
        mret false
    | Some dev =>
        modify (set_alOutContext (alcCreateContext env dev));;
        ctx ← gets alOutContext;
        if negb (alcMakeContextCurrent env ctx) then
          emit (qWarning "Cannot create output audio context");;
          mret false
        else
          al (makeCurrent ctx);;
          w ← gets openal;
          main ← gets alMainSource;
          modify (set_openal (alGenSources main w).2);;
          modify (set_alMainSource (alGenSources main w).1);;
          emit (AlListenerGain (getOutVolume env));;
          when (coreInstance env) (emit InvalidateCallSources);;
          modify (set_outputInitialized true);;
          mret true
    end.

(** [Audio::autoInitOutput]. *)
Definition autoInitOutput (env : Env) : M bool :=
  cur ← gets alOutDev;
  match cur with
  | Some _ => mret true
  | None => initOutput env (getOutDev env)
  end.

(** [Audio::reinitOutput]. *)
Definition reinitOutput (env : Env) (outDevDesc : string) : M bool :=
  cleanupOutput env;;
  initOutput env outDevDesc.

(** [Audio::isOutputReady]. *)
Definition isOutputReady (s : Audio) : bool :=
  bool_decide (is_Some (alOutDev s)) && outputInitialized s.

(** [Audio::subscribeOutput(ALuint& sid)]; the result is [sid] on return. *)
Definition subscribeOutput (env : Env) (sid : ALuint) : M ALuint :=
  ok ← autoInitOutput env;
  if negb ok then
    emit (qWarning "Failed to subscribe to audio output device.");;
    mret sid
  else
    ctx ← gets alOutContext;
    if negb (alcMakeContextCurrent env ctx) then
      emit (qWarning "Failed to activate output context.");;
      mret sid
    else
      al (makeCurrent ctx);;
      w ← gets openal;
      let sid' := (alGenSources sid w).1 in
      modify (set_openal (alGenSources sid w).2);;
      assert (negb (sid' =? 0)%N);;
      modify (fun s => set_outSources (outSources s ++ [sid']) s);;
      mret sid'.

(** [QList::removeAll]. *)
Definition removeAll (sid : ALuint) (l : list ALuint) : list ALuint :=
  List.filter (fun x => negb (x =? sid)%N) l.

(** [Audio::unsubscribeOutput(ALuint& sid)]; the result is [sid] on return. *)
Definition unsubscribeOutput (env : Env) (sid : ALuint) : M ALuint :=
  modify (fun s => set_outSources (removeAll sid (outSources s)) s);;
  sid' ← (if (sid =? 0)%N then mret sid
          else
            w ← gets openal;
            (if alIsSource sid w then al (alDeleteSources sid)
             else emit (qWarning "Trying to delete invalid audio source"));;
            mret 0%N);
  rest ← gets outSources;
  when (bool_decide (rest = [])) (cleanupOutput env);;
  mret sid'.

(** ** One-shot player *)

Definition byte_value (b : Byte.byte) : Z := Z.of_N (Byte.to_N b).

(** The storage [alBufferData] receives for a clip: mono, 16 bit, 44100 Hz. *)
Definition clipBuffer (data : list Byte.byte) : Buffer :=
  mkBuffer AL_FORMAT_MONO16 (map byte_value data) (Z.of_nat (length data)) 44100.

(** [data.size() * 1000 / 2 / 44100], the estimated playing time. *)
Definition durationMs (data : list Byte.byte) : Z :=
  Z.of_nat (length data) * 1000 ÷ 2 ÷ 44100.

(** [Audio::playMono16Sound(const QByteArray&)].  [QTimer::start(msec)]
    (re)starts the single-shot timer: one timeout, [msec] after the call.
    The product [data.size() * 1000] is an [int]; beyond [INT_MAX] it is
    undefined. *)
Definition playMono16Sound (env : Env) (data : list Byte.byte) : M unit :=
  ok ← autoInitOutput env;
  if negb ok then mret tt
  else
    mb ← gets alMainBuffer;
    when (mb =? 0)%N
         (w ← gets openal;
          modify (set_openal (alGenBuffers mb w).2);;
          modify (set_alMainBuffer (alGenBuffers mb w).1));;
    main ← gets alMainSource;
    state ← getSourceState env main;
    when (SourceState_eqb state AL_PLAYING)
         (al (alSourceStop main);; al (alSourcei_BUFFER main 0%N));;
    mb ← gets alMainBuffer;
    al (alBufferData mb (clipBuffer data));;
    al (alSourcei_BUFFER main mb);;
    al (alSourcePlay main);;
    if INT_MAX <? Z.of_nat (length data) * 1000 then abort UndefinedBehaviour
    else modify (set_playMono16Timer (Some (now env + (durationMs data + 50)))).

(** [Audio::playMono16SoundCleanup], the slot of [playMono16Timer]. *)
Definition playMono16SoundCleanup (env : Env) : M unit :=
  main ← gets alMainSource;
  state ← getSourceState env main;
  when (SourceState_eqb state AL_STOPPED)
       (al (alSourcei_BUFFER main 0%N);;
        mb ← gets alMainBuffer;
        al (alDeleteBuffers [mb]);;
        modify (set_alMainBuffer 0%N)).

(** The event loop looking at the single-shot timer: when its deadline has
    passed it becomes inactive and the slot runs, once. *)
Definition playMono16Timer_event (env : Env) : M unit :=
  t ← gets playMono16Timer;
  match t with
  | None => mret tt
  | Some deadline =>
      if deadline <=? now env then
        modify (set_playMono16Timer None);;
        playMono16SoundCleanup env
      else mret tt
  end.

(** [Audio::startLoop] and [Audio::stopLoop]. *)
Definition startLoop : M unit :=
  main ← gets alMainSource;
  al (alSourcei_LOOPING main true).
Definition stopLoop : M unit :=
  main ← gets alMainSource;
  al (alSourcei_LOOPING main false);;
  al (alSourceStop main).

(** ** Playback queue *)

(** [unsigned -> ALsizei]: the value modulo 2^32, read as a signed 32-bit
    integer. *)
Definition int_of_unsigned (u : Z) : Z :=
  let r := u mod 2 ^ 32 in
  if r <? 2 ^ 31 then r else r - 2 ^ 32.

(** The argument [samples * 2 * channels] of [alBufferData].  [samples * 2]
    is a product of two [int]: it is undefined when it does not fit
    ([None]).  The product with the [unsigned channels] is taken modulo
    2^32 and converted to the [ALsizei] parameter. *)
Definition frameBytes (samples channels : Z) : option Z :=
  let doubled := samples * 2 in
  if (INT_MIN <=? doubled) && (doubled <=? INT_MAX) then
    Some (int_of_unsigned (doubled * channels))
  else None.

(** The storage [alBufferData] receives for a streamed frame. *)
Definition frameBuffer (data : list Z) (bytes channels sampleRate : Z) : Buffer :=
  mkBuffer (if channels =? 1 then AL_FORMAT_MONO16 else AL_FORMAT_STEREO16)
           data bytes sampleRate.

(** The tail of [playAudioBuffer] once a buffer name is chosen. *)
Definition submitBuffer (env : Env) (alSource bufid : ALuint) (data : list Z)
    (samples channels sampleRate : Z) : M unit :=
  match frameBytes samples channels with
  | None => abort UndefinedBehaviour
  | Some bytes =>
      al (alBufferData bufid (frameBuffer data bytes channels sampleRate));;
      al (alSourceQueueBuffers alSource bufid);;
      state ← getSourceState env alSource;
      when (negb (SourceState_eqb state AL_PLAYING)) (al (alSourcePlay alSource))
  end.

(** [Audio::playAudioBuffer].  The locals start as [processed = 0] and
    [queued = 16] and keep these values when [alGetSourcei] fails (no
    current context, or a name that is no source).  The local [bufid] is
    not initialised; [alGenBuffers] is only reached after [alGetSourcei]
    has reported a queue, hence with a current context, where it writes
    the variable. *)
Definition playAudioBuffer (env : Env) (alSource : ALuint) (data : list Z)
    (samples channels sampleRate : Z) : M unit :=
  assert ((channels =? 1) || (channels =? 2));;
  dev ← gets alOutDev;
  init ← gets outputInitialized;
  if negb (bool_decide (is_Some dev) && init) then mret tt
  else
    w ← gets openal;
    let src := al_sources w !! alSource in
    let processed := from_option src_processed 0%nat src in
    let queued := from_option (fun s => length (src_queue s)) 16%nat src in
    al (alSourcei_LOOPING alSource false);;
    if negb (processed =? 0)%nat then
      let bufids := take processed (from_option src_queue [] src) in
      al (alSourceUnqueueBuffers alSource processed);;
      al (alDeleteBuffers (drop 1 bufids));;
      submitBuffer env alSource (List.nth 0 bufids 0%N) data samples channels sampleRate
    else if (queued <? 16)%nat then
      w ← gets openal;
      modify (set_openal (alGenBuffers 0%N w).2);;
      submitBuffer env alSource (alGenBuffers 0%N w).1 data samples channels sampleRate
    else mret tt.

(** ** Output volume *)

(** [std::min] and [std::max] of [<algorithm>], written with [operator<]:
    [min(a,b) = (b < a) ? b : a] and [max(a,b) = (a < b) ? b : a]. *)
Definition std_min {T : Type} (lt : T -> T -> bool) (a b : T) : T :=
  if lt b a then b else a.
Definition std_max {T : Type} (lt : T -> T -> bool) (a b : T) : T :=
  if lt a b then b else a.

(** [static_cast<ALfloat>(double)]: the nearest binary32 value, ties to
    even (beyond the binary32 range, an infinity); the result is given as
    the [double] of the same value. *)
Definition ALfloat_of_double (x : float) : float :=
  match Prim2SF x with
  | S754_finite s m e =>
      match binary_round 24 128 s m e with
      | S754_finite s' m' e' => SF2Prim (binary_round 53 1024 s' m' e')
      | y => SF2Prim y
      end
  | _ => x
  end.

(** [Audio::setOutputVolume] has one effect, the call
    [alListenerf(AL_GAIN, v)], which it makes whether or not a playback
    device is open; the definition gives [v]. *)
Definition setOutputVolume (volume : qreal) : float :=
  ALfloat_of_double
    (std_max PrimFloat.ltb 0%float (std_min PrimFloat.ltb volume 1%float)).

(** ** End of life *)

(** [Audio::~Audio], once the audio thread has exited: the two cleanups
    (the audio filter, when compiled in, keeps no state of the object). *)
Definition Audio_delete (env : Env) : M unit :=
  cleanupInput env;;
  cleanupOutput env.

(** ** Calls and runs *)

Inductive Call :=
| SetMinInputGain (dB : qreal)
| SetMaxInputGain (dB : qreal)
| SetInputGain (dB : qreal)
| ReinitInput (descr : string)
| ReinitOutput (descr : string)
| SubscribeInput
| UnsubscribeInput
| SubscribeOutput (sid : ALuint)
| UnsubscribeOutput (sid : ALuint)
| PlayMono16Sound (data : list Byte.byte)
| PlayAudioBuffer (alSource : ALuint) (data : list Z) (samples channels rate : Z)
| DoCapture
| TimerEvent
| StartLoop
| StopLoop
(* the driver playing on its own *)
| DriverPlayed (sid : ALuint) (k : nat)
| DriverFinished (sid : ALuint).

Definition discard {A : Type} (m : M A) : M unit := _ ← m; mret tt.

Definition step (env : Env) (c : Call) : M unit :=
  match c with
  | SetMinInputGain dB => setMinInputGain dB
  | SetMaxInputGain dB => setMaxInputGain dB
  | SetInputGain dB => setInputGain env dB
  | ReinitInput descr => reinitInput env descr
  | ReinitOutput descr => discard (reinitOutput env descr)
  | SubscribeInput => subscribeInput env
  | UnsubscribeInput => unsubscribeInput env
  | SubscribeOutput sid => discard (subscribeOutput env sid)
  | UnsubscribeOutput sid => discard (unsubscribeOutput env sid)
  | PlayMono16Sound data => playMono16Sound env data
  | PlayAudioBuffer src data n ch r => playAudioBuffer env src data n ch r
  | DoCapture => doCapture env
  | TimerEvent => playMono16Timer_event env
  | StartLoop => startLoop
  | StopLoop => stopLoop
  | DriverPlayed sid k => al (on_sources (alter (advance_source k) sid))
  | DriverFinished sid => al (on_sources (alter finish_source sid))
  end.

Fixpoint run (calls : list (Env * Call)) : M unit :=
  match calls with
  | [] => mret tt
  | (env, c) :: rest => step env c;; run rest
  end.

(** A state the object can be in: some run from the constructor returns it. *)
Definition reachable (s : Audio) : Prop :=
  exists calls, run calls Audio_new = Ok tt s.

(** The state a run ends in (the constructor's state if it aborts). *)
Definition final (r : Res unit) : Audio :=
  match r with
  | Ok _ s => s
  | Abort _ => Audio_new
  end.

(** ** A concrete platform for examples

    [pow_whole] agrees with [pow] on whole exponents whose power is exactly
    representable; the examples only use such exponents. *)

Definition pow_whole (b e : float) : float :=
  match int_of_double e with
  | Some k =>
      if 0 <=? k then Z.iter k (fun x => x * b)%float 1%float
      else (1 / Z.iter (- k) (fun x => x * b)%float 1%float)%float
  | None => PrimFloat.nan
  end.

(** 48 kHz, 20 ms frames, stereo; a microphone and a loudspeaker that open
    and close without failure; a quiet capture device. *)
Definition env0 : Env :=
  mkEnv 48000 20 960 2 pow_whole EmptyString EmptyString 0%float 100 None false
        (Some "mic"%string) (Some "speakers"%string)
        (fun _ => Some 7%N) (fun _ => true)
        (fun _ => Some 8%N) (fun _ => Some 9%N) (fun _ => true) (fun _ => true)
        0 (fun _ => 0) AL_INITIAL 0.

Definition with_now (t : Z) (e : Env) : Env :=
  mkEnv (AUDIO_SAMPLE_RATE e) (AUDIO_FRAME_DURATION e) (AUDIO_FRAME_SAMPLE_COUNT e)
    (AUDIO_CHANNELS e) (qPow e) (getInDev e) (getOutDev e) (getAudioInGain e)
    (getOutVolume e) (filterAudio e) (coreInstance e) (inDeviceNames e)
    (outDeviceNames e) (alcCaptureOpenDevice e) (alcCaptureCloseDevice e)
    (alcOpenDevice e) (alcCreateContext e) (alcMakeContextCurrent e)
    (alcCloseDevice e) (captureAvailable e) (captureData e) (indeterminate e) t.

Definition with_captureAvailable (n : Z) (e : Env) : Env :=
  mkEnv (AUDIO_SAMPLE_RATE e) (AUDIO_FRAME_DURATION e) (AUDIO_FRAME_SAMPLE_COUNT e)
    (AUDIO_CHANNELS e) (qPow e) (getInDev e) (getOutDev e) (getAudioInGain e)
    (getOutVolume e) (filterAudio e) (coreInstance e) (inDeviceNames e)
    (outDeviceNames e) (alcCaptureOpenDevice e) (alcCaptureCloseDevice e)
    (alcOpenDevice e) (alcCreateContext e) (alcMakeContextCurrent e)
    (alcCloseDevice e) n (captureData e) (indeterminate e) (now e).

Definition with_getInDev (name : string) (e : Env) : Env :=
  mkEnv (AUDIO_SAMPLE_RATE e) (AUDIO_FRAME_DURATION e) (AUDIO_FRAME_SAMPLE_COUNT e)
    (AUDIO_CHANNELS e) (qPow e) name (getOutDev e) (getAudioInGain e)
    (getOutVolume e) (filterAudio e) (coreInstance e) (inDeviceNames e)
    (outDeviceNames e) (alcCaptureOpenDevice e) (alcCaptureCloseDevice e)
    (alcOpenDevice e) (alcCreateContext e) (alcMakeContextCurrent e)
    (alcCloseDevice e) (captureAvailable e) (captureData e) (indeterminate e) (now e).

Definition with_alcCaptureCloseDevice (f : ALCdevice -> bool) (e : Env) : Env :=
  mkEnv (AUDIO_SAMPLE_RATE e) (AUDIO_FRAME_DURATION e) (AUDIO_FRAME_SAMPLE_COUNT e)
    (AUDIO_CHANNELS e) (qPow e) (getInDev e) (getOutDev e) (getAudioInGain e)
    (getOutVolume e) (filterAudio e) (coreInstance e) (inDeviceNames e)
    (outDeviceNames e) (alcCaptureOpenDevice e) f
    (alcOpenDevice e) (alcCreateContext e) (alcMakeContextCurrent e)
    (alcCloseDevice e) (captureAvailable e) (captureData e) (indeterminate e) (now e).

(** Two subscribers come and go. *)
Definition two_subscribers : list (Env * Call) :=
  [(env0, SubscribeInput); (env0, SubscribeInput);
   (env0, UnsubscribeInput); (env0, UnsubscribeInput)].

(** The same platform with a full frame waiting in the capture device. *)
Definition env_frame : Env := with_captureAvailable 960 env0.

(** Two subscribers come and go while the rest of the interface is in
    use: the gain is changed, a frame is captured, a notification is
    played, a voice subscribes and streams a frame. *)
Definition busy_session : list (Env * Call) :=
  [(env0, SubscribeInput); (env0, SetInputGain 20%float);
   (env_frame, DoCapture); (env0, SubscribeInput);
   (env0, PlayMono16Sound [Byte.x61; Byte.x62]);
   (env0, SubscribeOutput 0%N);
   (env0, PlayAudioBuffer 3%N [1; 2] 1 1 48000);
   (env0, UnsubscribeInput); (env0, TimerEvent); (env0, UnsubscribeInput)].

(** A small geometry for examples: two samples per frame, one channel,
    and a device that delivers the loudest sample. *)
Definition env_tiny : Env :=
  mkEnv 48000 20 2 1 pow_whole EmptyString EmptyString 0%float 100 None false
        (Some "mic"%string) (Some "speakers"%string)
        (fun _ => Some 7%N) (fun _ => true)
        (fun _ => Some 8%N) (fun _ => Some 9%N) (fun _ => true) (fun _ => true)
        0 (fun _ => 32767) AL_INITIAL 0.

(** The object once one subscriber has opened the capture device. *)
Definition capturing : Audio :=
  set_inSubscriptions 1%N
    (set_d (Private_setInputGain pow_whole 0%float Private_new)
       (set_alInDev (Some 7%N) Audio_new)).

(** The object while a two-byte notification clip is playing and nobody has
    subscribed to the output. *)
Definition clip_playing : Audio :=
  match playMono16Sound env0 [Byte.x61; Byte.x62] Audio_new with
  | Ok _ s => s
  | Abort _ => Audio_new
  end.

(** One voice subscribes while the playback device is closed. *)
Definition one_voice : list (Env * Call) := [(env0, SubscribeOutput 0%N)].

Definition one_voice_state : Audio :=
  match run one_voice Audio_new with
  | Ok _ s => s
  | Abort _ => Audio_new
  end.

(** The object with the playback device open and nothing playing. *)
Definition output_open : Audio :=
  final (run [(env0, ReinitOutput "speakers")] Audio_new).

(** The voice after sixteen submissions the driver has not played yet. *)
Definition sixteen_frames : list (Env * Call) :=
  one_voice ++ repeat (env0, PlayAudioBuffer 2%N [1; 2] 1 1 48000) 16.

Definition full_state : Audio := final (run sixteen_frames Audio_new).

Definition full_voice : Source :=
  mkSource (map N.of_nat (seq 3 16)) 0 0%N false AL_PLAYING.

(** A platform without a microphone: nothing is enumerated and the driver
    opens no capture device. *)
Definition env_no_mic : Env :=
  mkEnv 48000 20 960 2 pow_whole EmptyString EmptyString 0%float 100 None false
        None (Some "speakers"%string)
        (fun _ => None) (fun _ => true)
        (fun _ => Some 8%N) (fun _ => Some 9%N) (fun _ => true) (fun _ => true)
        0 (fun _ => 0) AL_INITIAL 0.

(** A platform without loudspeakers. *)
Definition env_no_speakers : Env :=
  mkEnv 48000 20 960 2 pow_whole EmptyString EmptyString 0%float 100 None false
        (Some "mic"%string) None
        (fun _ => Some 7%N) (fun _ => true)
        (fun _ => None) (fun _ => None) (fun _ => false) (fun _ => true)
        0 (fun _ => 0) AL_INITIAL 0.

(** The "none" capture device is configured, and a full frame is waiting. *)
Definition env_none : Env :=
  with_getInDev "none" (with_captureAvailable 960 env0).

(** One subscriber and a capture tick on that platform. *)
Definition muted_session : list (Env * Call) :=
  [(env_none, SubscribeInput); (env_none, DoCapture)].

(** The driver refuses to close the capture device. *)
Definition env_stuck_mic : Env :=
  with_alcCaptureCloseDevice (fun _ => false) env0.

(** Fifty milliseconds after the start of the clock. *)
Definition env_at_50 : Env := with_now 50 env0.

(** The object after [setMaxInputGain(-40)]: the upper bound lies below the
    lower one. *)
Definition inverted_bounds : Audio :=
  set_d (Private_setMax (-40)%float (d Audio_new)) Audio_new.

(** * Specification vocabulary *)

(** ** Weakest preconditions for the call monad

    [wpg ab m Q s]: running [m] from [s] returns some [a] and [s'] with
    [Q a s'], or it aborts and [ab] holds.  With [ab := False] this is total
    correctness ([wp]), with [ab := True] partial correctness ([wlp]). *)

Definition wpg {A : Type} (ab : Prop) (m : M A) (Q : A -> Audio -> Prop)
    (s : Audio) : Prop :=
  match m s with
  | Ok a s' => Q a s'
  | Abort _ => ab
  end.

Abbreviation wp := (wpg False).
Abbreviation wlp := (wpg True).

(** ** Input gain *)

Definition range_ok (p : Private) : Prop :=
  (minInputGain p <=? gain p)%float = true /\
  (gain p <=? maxInputGain p)%float = true.

Definition factor_ok (pow : float -> float -> float) (p : Private) : Prop :=
  gainFactor p = pow 10%float (gain p / 20)%float.

Definition bounds_ordered (p : Private) : Prop :=
  (minInputGain p <=? maxInputGain p)%float = true.

Definition is_bound_change (c : Call) : bool :=
  match c with
  | SetMinInputGain _ | SetMaxInputGain _ => true
  | _ => false
  end.

(** ** Capture subscriptions *)

(** A configuration and a driver with which the capture device opens and
    closes: the configured device is not the "none" sentinel, it resolves
    to a name, the driver opens that name and closes whatever it opened. *)
Definition capture_healthy (env : Env) : Prop :=
  String.eqb (getInDev env) "none" = false /\
  String.eqb (resolveDevice (inDeviceNames env) (getInDev env)) EmptyString = false /\
  is_Some (alcCaptureOpenDevice env
             (resolveDevice (inDeviceNames env) (getInDev env))) /\
  forall dev, alcCaptureCloseDevice env dev = true.

Definition is_subscribe (c : Call) : bool :=
  match c with SubscribeInput => true | _ => false end.
Definition is_unsubscribe (c : Call) : bool :=
  match c with UnsubscribeInput => true | _ => false end.

Definition subscribes (calls : list (Env * Call)) : nat :=
  length (List.filter (fun ec => is_subscribe ec.2) calls).
Definition unsubscribes (calls : list (Env * Call)) : nat :=
  length (List.filter (fun ec => is_unsubscribe ec.2) calls).

(** The running count of subscriptions minus unsubscriptions, started at
    [n], never goes negative. *)
Fixpoint never_negative (n : nat) (calls : list (Env * Call)) : bool :=
  match calls with
  | [] => true
  | (_, SubscribeInput) :: rest => never_negative (S n) rest
  | (_, UnsubscribeInput) :: rest =>
      match n with
      | O => false
      | S n' => never_negative n' rest
      end
  | _ :: rest => never_negative n rest
  end.

(** The count the object keeps: an unsubscription at zero is ignored. *)
Fixpoint balance (n : N) (calls : list (Env * Call)) : N :=
  match calls with
  | [] => n
  | (_, SubscribeInput) :: rest => balance (N.succ n) rest
  | (_, UnsubscribeInput) :: rest => balance (N.pred n) rest
  | _ :: rest => balance n rest
  end.

Definition capture_matches_count (s : Audio) : Prop :=
  is_Some (alInDev s) <-> (0 < inSubscriptions s)%N.

Definition is_reinitInput (c : Call) : bool :=
  match c with ReinitInput _ => true | _ => false end.

(** ** Capture tick *)

(** All values of [int16_t]. *)
Fixpoint upFrom (first : Z) (count : nat) : list Z :=
  match count with
  | O => []
  | S count' => first :: upFrom (first + 1) count'
  end.

Definition int16_values : list Z := upFrom INT16_MIN (Z.to_nat 65536).

(** The gain step is defined on every 16-bit sample: no product with the
    factor leaves the range of [int] when rounded. *)
Definition gain_defined (factor : qreal) : bool :=
  forallb (fun sample => bool_decide (is_Some (amplify factor sample)))
          int16_values.

Definition is_frame (e : Effect) : bool :=
  match e with FrameAvailable _ _ _ _ => true | _ => false end.

(** Number of frames published so far. *)
Definition frames (s : Audio) : nat :=
  length (List.filter is_frame (effects s)).

(** ** Playback session *)




(** The first half of [unsubscribeOutput]: the voice leaves the active set
    and its source is deleted. *)
Definition afterVoiceRemoval (sid : ALuint) (s : Audio) : Audio :=
  let s1 := set_outSources (removeAll sid (outSources s)) s in
  if (sid =? 0)%N then s1
  else if alIsSource sid (openal s1) then
    set_openal (alDeleteSources sid (openal s1)) s1
  else
    set_effects
      (effects s1 ++ [qWarning "Trying to delete invalid audio source"]) s1.

(** ** Playback queue *)

(** No source holds more than 16 queued buffers. *)
Definition queues_bounded (w : OpenAL) : Prop :=
  forall sid src, al_sources w !! sid = Some src ->
                  (length (src_queue src) <= 16)%nat.

(** The buffers of the queues are private: every queued buffer is a valid
    buffer, queued once, and used by no other source; the processed count
    of a queue does not exceed its length; and no name in use is ahead of
    the counter that names are taken from. *)
Definition buffers_private (w : OpenAL) : Prop :=
  map_Forall
    (fun sid src =>
       (src_processed src <= length (src_queue src))%nat /\
       NoDup (src_queue src) /\
       (src_buffer src <= al_last w)%N /\
       Forall
         (fun b =>
            (b <= al_last w)%N /\ is_Some (al_buffers w !! b) /\
            src_buffer src <> b /\
            map_Forall
              (fun sid' src' =>
                 sid' <> sid -> (b ∉ src_queue src') /\ src_buffer src' <> b)
              (al_sources w))
         (src_queue src))
    (al_sources w).

#[global] Instance buffers_private_dec (w : OpenAL) : Decision (buffers_private w) :=
  ltac:(unfold buffers_private; apply _).

(** Only the dedicated one-shot voice can have the looping flag set, and
    no source exists while the playback device is closed. *)
Definition only_main_loops (s : Audio) : Prop :=
  (forall sid src, al_sources (openal s) !! sid = Some src ->
                   src_looping src = true -> sid = alMainSource s) /\
  (alOutDev s = None -> al_sources (openal s) = ∅).

Definition loops_within (main : ALuint) (w : OpenAL) : Prop :=
  forall sid src, al_sources w !! sid = Some src ->
                  src_looping src = true -> sid = main.

(** ** Further vocabulary: capture *)

(** While the capture device is open, the factor is the one that
    [setInputGain] computes from the stored gain. *)
Definition factor_set_while_open (pow : float -> float -> float) (s : Audio)
    : Prop :=
  is_Some (alInDev s) -> factor_ok pow (d s).

(** The capture device can not be opened from the settings: the configured
    name is not the "none" sentinel, and either it resolves to no name at
    all or the driver refuses the name. *)
Definition capture_unavailable (env : Env) : Prop :=
  String.eqb (getInDev env) "none" = false /\
  let name := resolveDevice (inDeviceNames env) (getInDev env) in
  (String.eqb name EmptyString = true \/ alcCaptureOpenDevice env name = None).

(** ** Further vocabulary: playback *)

(** The playback session can not be brought up from the settings: the
    configured device is the "none" sentinel, or it resolves to no name,
    or the driver refuses the name, or it refuses to make the context of
    the device current. *)
Definition playback_unavailable (env : Env) : Prop :=
  String.eqb (getOutDev env) "none" = true \/
  let name := resolveDevice (outDeviceNames env) (getOutDev env) in
  String.eqb name EmptyString = true \/
  alcOpenDevice env name = None \/
  exists dev, alcOpenDevice env name = Some dev /\
              alcMakeContextCurrent env (alcCreateContext env dev) = false.



(** No buffer is named [0]: the name stands for "no buffer". *)
Definition no_buffer_zero (w : OpenAL) : Prop := al_buffers w !! 0%N = None.

(** ** Further vocabulary: the two sessions *)

(** The members behind the capture session and those behind the playback
    session (with the OpenAL state, which only playback uses). *)
Definition capture_part (s : Audio) : Private * option ALCdevice * N :=
  (d s, alInDev s, inSubscriptions s).

Definition playback_part (s : Audio)
    : option ALCdevice * option ALCcontext * ALuint * ALuint * bool *
      list ALuint * option Z * OpenAL :=
  (alOutDev s, alOutContext s, alMainSource s, alMainBuffer s,
   outputInitialized s, outSources s, playMono16Timer s, openal s).

(** The calls of the capture side of the interface. *)
Definition is_capture_call (c : Call) : bool :=
  match c with
  | SetMinInputGain _ | SetMaxInputGain _ | SetInputGain _ | ReinitInput _
  | SubscribeInput | UnsubscribeInput | DoCapture => true
  | _ => false
  end.

(** ** Further samples and vocabulary for the playback side *)

(** The voice after two frames that the driver has played to the end. *)
Definition two_played : list (Env * Call) :=
  one_voice ++ [(env0, PlayAudioBuffer 2%N [1; 2] 1 1 48000);
                (env0, PlayAudioBuffer 2%N [3; 4] 1 1 48000);
                (env0, DriverPlayed 2%N 2)].

Definition two_played_state : Audio := final (run two_played Audio_new).

Definition two_played_voice : Source :=
  mkSource [3%N; 4%N] 2 0%N false AL_STOPPED.

(** A buffer is private to a source: it is in no queue, and no other
    source has it attached. *)
Definition buffer_private_to (b main : ALuint) (w : OpenAL) : Prop :=
  map_Forall
    (fun sid src => (b ∉ src_queue src) /\ (src_buffer src = b -> sid = main))
    (al_sources w).

#[global] Instance buffer_private_to_dec (b main : ALuint) (w : OpenAL) :
  Decision (buffer_private_to b main w) :=
  ltac:(unfold buffer_private_to; apply _).

(** The name of the shared buffer of the one-shot player once a clip is
    started: the allocated one, or else the one [alGenBuffers] gives
    next. *)
Definition clipBufferName (s : Audio) : ALuint :=
  if (alMainBuffer s =? 0)%N then N.succ (al_last (openal s))
  else alMainBuffer s.

(** The shared buffer of the one-shot player is a valid buffer when it is
    allocated, and private to the dedicated voice. *)
Definition clip_buffer_private (s : Audio) : Prop :=
  (alMainBuffer s <> 0%N -> is_Some (al_buffers (openal s) !! alMainBuffer s)) /\
  buffer_private_to (clipBufferName s) (alMainSource s) (openal s).

#[global] Instance clip_buffer_private_dec (s : Audio) :
  Decision (clip_buffer_private s) :=
  ltac:(unfold clip_buffer_private; apply _).

(** A clip of 100 ms (8820 bytes) and one of 200 ms. *)
Definition clip_100ms : list Byte.byte := repeat Byte.x61 (Z.to_nat 8820).
Definition clip_200ms : list Byte.byte := repeat Byte.x62 (Z.to_nat 17640).

(** Ten milliseconds after the start of the clock. *)
Definition env_at_10 : Env := with_now 10 env0.
(** A hundred and fifty milliseconds after the start of the clock. *)
Definition env_at_150 : Env := with_now 150 env0.
(** Two hundred and sixty milliseconds after the start of the clock. *)
Definition env_at_260 : Env := with_now 260 env0.

(** The driver opens the playback device, creates no context for it, and
    accepts a request to make "no context" current. *)
Definition env_no_context : Env :=
  mkEnv 48000 20 960 2 pow_whole EmptyString EmptyString 0%float 100 None false
        (Some "mic"%string) (Some "speakers"%string)
        (fun _ => Some 7%N) (fun _ => true)
        (fun _ => Some 8%N) (fun _ => None) (fun _ => true) (fun _ => true)
        0 (fun _ => 0) AL_INITIAL 0.

(** The driver refuses to close the playback device. *)
Definition env_stuck_speakers : Env :=
  mkEnv 48000 20 960 2 pow_whole EmptyString EmptyString 0%float 100 None false
        (Some "mic"%string) (Some "speakers"%string)
        (fun _ => Some 7%N) (fun _ => true)
        (fun _ => Some 8%N) (fun _ => Some 9%N) (fun _ => true) (fun _ => false)
        0 (fun _ => 0) AL_INITIAL 0.

(** The session after its only voice has left and the driver has refused
    to close the device: the device is still open, without a context. *)
Definition no_context_session : Audio :=
  final (run [(env_stuck_speakers, SubscribeOutput 0%N);
              (env_stuck_speakers, UnsubscribeOutput 2%N)] Audio_new).


(** * Properties *)

(** ** Order of binary64 values, from the specification of the primitives *)

Section FloatOrder.

Local Open Scope float_scope.

Lemma SFcompare_antisym (x y : spec_float) (c : comparison) :
  SFcompare x y = Some c -> SFcompare y x = Some (CompOpp c).
Proof.
  destruct x as [sx|sx| |sx mx ex], y as [sy|sy| |sy my ey]; simpl;
    try discriminate;
    try (destruct sx; intros [= <-]; reflexivity);
    try (destruct sy; intros [= <-]; reflexivity);
    try (destruct sx, sy; intros [= <-]; reflexivity).
  intros [= <-]. f_equal.
  rewrite (Z.compare_antisym ex ey).
  change (Pos.compare_cont Eq my mx) with (Pos.compare my mx).
  change (Pos.compare_cont Eq mx my) with (Pos.compare mx my).
  rewrite (Pos.compare_antisym mx my).
  destruct sx, sy; simpl; try reflexivity;
    destruct (ex ?= ey)%Z; simpl; try reflexivity;
    destruct (mx ?= my)%positive; reflexivity.
Qed.

Lemma SFcompare_lt_trans (x y z : spec_float) (c : comparison) :
  SFcompare x y = Some Lt -> SFcompare y z = Some c -> c <> Gt ->
  SFcompare x z = Some Lt.
Proof.
  destruct x as [sx|sx| |sx mx ex], y as [sy|sy| |sy my ey],
           z as [sz|sz| |sz mz ez]; simpl; try discriminate;
    try destruct sx; try destruct sy; try destruct sz;
    try discriminate; try reflexivity; try congruence;
    change (Pos.compare_cont Eq) with Pos.compare;
    destruct (Z.compare_spec ex ey), (Z.compare_spec ey ez),
      (Z.compare_spec ex ez);
    try discriminate; try reflexivity; try congruence; try lia;
    destruct (Pos.compare_spec mx my), (Pos.compare_spec my mz),
      (Pos.compare_spec mx mz); simpl;
    try discriminate; try reflexivity; try congruence; try lia.
Qed.

Lemma ltb_asym (x y : float) : (x <? y) = true -> (y <? x) = false.
Proof.
  rewrite !FloatAxioms.ltb_spec. unfold SFltb.
  destruct (SFcompare (Prim2SF x) (Prim2SF y)) as [[]|] eqn:E; try discriminate.
  intros _. rewrite (SFcompare_antisym _ _ _ E). reflexivity.
Qed.

Lemma ltb_leb (x y : float) : (x <? y) = true -> (x <=? y) = true.
Proof.
  rewrite FloatAxioms.ltb_spec, FloatAxioms.leb_spec. unfold SFltb, SFleb.
  destruct (SFcompare (Prim2SF x) (Prim2SF y)) as [[]|]; congruence.
Qed.

Lemma leb_not_ltb (x y : float) : (x <=? y) = true -> (y <? x) = false.
Proof.
  rewrite FloatAxioms.ltb_spec, FloatAxioms.leb_spec. unfold SFltb, SFleb.
  destruct (SFcompare (Prim2SF x) (Prim2SF y)) as [[]|] eqn:E; try discriminate;
    intros _; rewrite (SFcompare_antisym _ _ _ E); reflexivity.
Qed.

Lemma leb_not_ltb_eqb (x y : float) :
  (x <=? y) = true -> (x <? y) = false -> (x =? y) = true.
Proof.
  rewrite FloatAxioms.ltb_spec, FloatAxioms.leb_spec, FloatAxioms.eqb_spec. unfold SFltb, SFleb, SFeqb.
  destruct (SFcompare (Prim2SF x) (Prim2SF y)) as [[]|]; congruence.
Qed.

Lemma ltb_leb_trans (x y z : float) :
  (x <? y) = true -> (y <=? z) = true -> (x <? z) = true.
Proof.
  rewrite !FloatAxioms.ltb_spec, FloatAxioms.leb_spec. unfold SFltb, SFleb.
  destruct (SFcompare (Prim2SF x) (Prim2SF y)) as [[]|] eqn:E1; try discriminate.
  destruct (SFcompare (Prim2SF y) (Prim2SF z)) as [c|] eqn:E2; try discriminate.
  intros _ Hc.
  rewrite (SFcompare_lt_trans _ _ _ c E1 E2); [reflexivity|].
  destruct c; congruence.
Qed.

Lemma SFcompare_eq_trans (x y z : spec_float) (c : comparison) :
  SFcompare x y = Some Eq -> SFcompare y z = Some c -> SFcompare x z = Some c.
Proof.
  destruct x as [sx|sx| |sx mx ex], y as [sy|sy| |sy my ey],
           z as [sz|sz| |sz mz ez]; simpl; try discriminate;
    try destruct sx; try destruct sy; try destruct sz;
    try discriminate; try (intros _ H; exact H);
    change (Pos.compare_cont Eq) with Pos.compare;
    destruct (Z.compare_spec ex ey); try discriminate;
    destruct (Pos.compare_spec mx my); try discriminate;
    subst; intros _ H; exact H.
Qed.

Lemma leb_trans (x y z : float) :
  (x <=? y) = true -> (y <=? z) = true -> (x <=? z) = true.
Proof.
  rewrite !FloatAxioms.leb_spec. unfold SFleb.
  destruct (SFcompare (Prim2SF x) (Prim2SF y)) as [c1|] eqn:E1; try discriminate.
  destruct (SFcompare (Prim2SF y) (Prim2SF z)) as [c2|] eqn:E2; try discriminate.
  intros H1 H2. destruct c1; try discriminate.
  - rewrite (SFcompare_eq_trans _ _ _ c2 E1 E2). exact H2.
  - rewrite (SFcompare_lt_trans _ _ _ c2 E1 E2); [reflexivity|].
    destruct c2; congruence.
Qed.

(** A value that compares with something is comparable with itself. *)
Lemma SFcompare_self (x y : spec_float) (c : comparison) :
  SFcompare x y = Some c ->
  SFcompare x x = Some Eq /\ SFcompare y y = Some Eq.
Proof.
  assert (R : forall s m e, SFcompare (S754_finite s m e) (S754_finite s m e) = Some Eq).
  { intros s m e. simpl. rewrite Z.compare_refl.
    change (Pos.compare_cont Eq m m) with (Pos.compare m m).
    rewrite Pos.compare_refl. destruct s; reflexivity. }
  destruct x as [sx|sx| |sx mx ex], y as [sy|sy| |sy my ey];
    try discriminate; intros _; split;
    try apply R; try (destruct sx; reflexivity); try (destruct sy; reflexivity).
Qed.

Lemma leb_refl_of_leb_l (x y : float) : (x <=? y) = true -> (x <=? x) = true.
Proof.
  rewrite !FloatAxioms.leb_spec. unfold SFleb.
  destruct (SFcompare (Prim2SF x) (Prim2SF y)) as [c|] eqn:E; try discriminate.
  intros _. destruct (SFcompare_self _ _ _ E) as [-> _]. reflexivity.
Qed.

Lemma leb_refl_of_leb_r (x y : float) : (x <=? y) = true -> (y <=? y) = true.
Proof.
  rewrite !FloatAxioms.leb_spec. unfold SFleb.
  destruct (SFcompare (Prim2SF x) (Prim2SF y)) as [c|] eqn:E; try discriminate.
  intros _. destruct (SFcompare_self _ _ _ E) as [_ ->]. reflexivity.
Qed.

(** Two comparable values are ordered one way or the other. *)
Lemma not_ltb_leb (x y : float) :
  (x <=? x) = true -> (y <=? y) = true -> (x <? y) = false -> (y <=? x) = true.
Proof.
  rewrite !FloatAxioms.leb_spec, FloatAxioms.ltb_spec. unfold SFleb, SFltb.
  intros Hx Hy.
  destruct (SFcompare (Prim2SF x) (Prim2SF y)) as [c|] eqn:E.
  - rewrite (SFcompare_antisym _ _ _ E). destruct c; simpl; congruence.
  - exfalso. revert Hx Hy E.
    destruct (Prim2SF x) as [sx|sx| |sx mx ex], (Prim2SF y) as [sy|sy| |sy my ey];
      simpl; try discriminate.
Qed.

(** Numerically equal values are identical, except for the two zeros. *)
Lemma eqb_cases (x y : float) :
  (x =? y) = true ->
  x = y \/ ((x = 0 \/ x = -0) /\ (y = 0 \/ y = -0)).
Proof.
  rewrite FloatAxioms.eqb_spec. unfold SFeqb. intros H.
  destruct (Prim2SF x) as [sx|sx| |sx mx ex] eqn:Ex,
           (Prim2SF y) as [sy|sy| |sy my ey] eqn:Ey;
    simpl in H; try discriminate;
    try (destruct sx; discriminate); try (destruct sy; discriminate).
  - right. split.
    + destruct sx; [right|left]; apply Prim2SF_inj; rewrite Ex; reflexivity.
    + destruct sy; [right|left]; apply Prim2SF_inj; rewrite Ey; reflexivity.
  - left. apply Prim2SF_inj. rewrite Ex, Ey.
    destruct sx, sy; try discriminate; reflexivity.
  - left. apply Prim2SF_inj. rewrite Ex, Ey.
    change (Pos.compare_cont Eq mx my) with (Pos.compare mx my) in H.
    destruct sx, sy; try discriminate;
      destruct (Z.compare_spec ex ey); try discriminate;
      destruct (Pos.compare_spec mx my); try discriminate; subst; reflexivity.
Qed.

End FloatOrder.

(** ** Rules of the weakest-precondition calculus *)

Section WpRules.

Context {A B : Type} (ab : Prop).

Lemma wpg_bind (m : M A) (f : A -> M B) (Q : B -> Audio -> Prop) (s : Audio) :
  wpg ab m (fun a s' => wpg ab (f a) Q s') s -> wpg ab (m ≫= f) Q s.
Proof.
  unfold wpg, mbind, M_bind. destruct (m s); auto.
Qed.

Lemma wpg_ret (a : A) (Q : A -> Audio -> Prop) (s : Audio) :
  Q a s -> wpg ab (mret a) Q s.
Proof. auto. Qed.

Lemma wpg_gets (f : Audio -> A) (Q : A -> Audio -> Prop) (s : Audio) :
  Q (f s) s -> wpg ab (gets f) Q s.
Proof. auto. Qed.

Lemma wpg_modify (f : Audio -> Audio) (Q : unit -> Audio -> Prop) (s : Audio) :
  Q tt (f s) -> wpg ab (modify f) Q s.
Proof. auto. Qed.

Lemma wpg_abort (e : Failure) (Q : A -> Audio -> Prop) (s : Audio) :
  ab -> wpg ab (abort e) Q s.
Proof. auto. Qed.

Lemma wpg_mono (m : M A) (Q1 Q2 : A -> Audio -> Prop) (s : Audio) :
  wpg ab m Q1 s -> (forall a s', Q1 a s' -> Q2 a s') -> wpg ab m Q2 s.
Proof.
  unfold wpg. destruct (m s); auto.
Qed.

End WpRules.

Lemma wp_elim {A : Type} (m : M A) (Q : A -> Audio -> Prop) (s : Audio) :
  wp m Q s -> exists a s', m s = Ok a s' /\ Q a s'.
Proof.
  unfold wpg. destruct (m s) as [a s'|]; [eauto|tauto].
Qed.

Lemma wlp_elim {A : Type} (m : M A) (Q : A -> Audio -> Prop) (s s' : Audio) (a : A) :
  wlp m Q s -> m s = Ok a s' -> Q a s'.
Proof.
  unfold wpg. intros H E. rewrite E in H. exact H.
Qed.

Lemma wp_wlp {A : Type} (m : M A) (Q : A -> Audio -> Prop) (s : Audio) :
  wp m Q s -> wlp m Q s.
Proof.
  unfold wpg. destruct (m s); tauto.
Qed.

Lemma Ok_inj {A : Type} (a a' : A) (s s' : Audio) :
  Ok a s = Ok a' s' -> a = a' /\ s = s'.
Proof. intros [= -> ->]. split; reflexivity. Qed.

(** Projections of updated states, reduced structurally. *)
Ltac simpl_state :=
  cbn [d alInDev inSubscriptions alOutDev alOutContext alMainSource
       alMainBuffer outputInitialized outSources playMono16Timer openal
       effects set_d set_alInDev set_inSubscriptions set_alOutDev
       set_alOutContext set_alMainSource set_alMainBuffer
       set_outputInitialized set_outSources set_playMono16Timer set_openal
       set_effects fst snd negb andb orb] in *.

Lemma not_is_Some_None {A : Type} : ~ is_Some (@None A).
Proof. intros [x E]. discriminate E. Qed.

Ltac wp_decide :=
  first [ reflexivity | discriminate | congruence | eauto
        | apply not_is_Some_None ].

(** A branch is decided by what is known about the scrutinee, or else it
    is explored both ways. *)
Ltac wp_case x :=
  lazymatch x with
  | negb ?b => wp_case b
  | andb ?a _ => wp_case a
  | orb ?a _ => wp_case a
  | bool_decide ?P =>
      first [ rewrite (bool_decide_eq_true_2 P) by wp_decide
            | rewrite (bool_decide_eq_false_2 P) by wp_decide
            | destruct (bool_decide P) eqn:? ]
  | _ =>
      match goal with
      | H : x = _ |- _ => rewrite H
      | _ => destruct x eqn:?
      end
  end.

(** One step of symbolic execution. *)
Ltac wp_step :=
  lazymatch goal with
  | |- wpg _ (mbind _ _) _ _ => apply wpg_bind
  | |- wpg _ (mret _) _ _ => apply wpg_ret
  | |- wpg _ (gets _) _ _ => apply wpg_gets
  | |- wpg _ (modify _) _ _ => apply wpg_modify
  | |- wpg _ (abort _) _ _ => apply wpg_abort
  | |- wpg _ (emit _) _ _ => unfold emit
  | |- wpg _ (al _) _ _ => unfold al
  | |- wpg _ (assert ?b) _ _ => unfold assert; wp_case b
  | |- wpg _ (when ?b _) _ _ => unfold when; wp_case b
  | |- wpg _ (discard _) _ _ => unfold discard
  | |- wpg _ (if ?b then _ else _) _ _ => wp_case b
  | |- wpg _ (match ?x with _ => _ end) _ _ => wp_case x
  end; cbv beta; simpl_state.

Ltac wp_run := repeat wp_step.

(** The OpenAL primitives stay folded while a call is symbolically run. *)
Arguments alGenSources : simpl never.
Arguments alGenBuffers : simpl never.
Arguments alIsSource : simpl never.
Arguments alDeleteSources : simpl never.
Arguments alDeleteBuffers : simpl never.
Arguments alSourcei_LOOPING : simpl never.
Arguments alSourcei_BUFFER : simpl never.
Arguments alSourceStop : simpl never.
Arguments alSourcePlay : simpl never.
Arguments alSourceUnqueueBuffers : simpl never.
Arguments alSourceQueueBuffers : simpl never.
Arguments alBufferData : simpl never.
Arguments alcDestroyContext : simpl never.
Arguments on_sources : simpl never.
Arguments on_buffers : simpl never.
Arguments gainLoop : simpl never.
Arguments resolveDevice : simpl never.
Arguments removeAll : simpl never.
Arguments Private_setInputGain : simpl never.

(** ** Input gain: the clamp and the factor *)

Lemma eqb_refl_of_leb (x y : float) :
  (x <=? y)%float = true -> (x =? x)%float = true /\ (y =? y)%float = true.
Proof.
  rewrite FloatAxioms.leb_spec, !FloatAxioms.eqb_spec. unfold SFleb, SFeqb.
  destruct (SFcompare (Prim2SF x) (Prim2SF y)) as [c|] eqn:E; try discriminate.
  intros _. destruct (SFcompare_self _ _ _ E) as [-> ->]. split; reflexivity.
Qed.

Lemma qBound_inside (lo hi x : float) :
  (lo <=? x)%float = true -> (x <=? hi)%float = true ->
  (qBound PrimFloat.ltb lo x hi =? x)%float = true /\
  (qBound PrimFloat.ltb lo x hi = x \/
   (qBound PrimFloat.ltb lo x hi = lo /\ (lo =? x)%float = true)).
Proof.
  intros Hlo Hhi. unfold qBound, qMin, qMax.
  rewrite (leb_not_ltb _ _ Hhi).
  destruct (lo <? x)%float eqn:E.
  - split; [|left; reflexivity]. apply (eqb_refl_of_leb _ _ Hhi).
  - pose proof (leb_not_ltb_eqb _ _ Hlo E). split; [assumption|right; split; auto].
Qed.

Lemma qBound_below (lo hi x : float) :
  (x <? lo)%float = true -> (lo <=? hi)%float = true ->
  qBound PrimFloat.ltb lo x hi = lo.
Proof.
  intros Hx Hr. unfold qBound, qMin, qMax.
  destruct (hi <? x)%float eqn:E.
  - pose proof (ltb_leb_trans _ _ _ E (ltb_leb _ _ Hx)) as C.
    rewrite (leb_not_ltb _ _ Hr) in C. discriminate.
  - rewrite (ltb_asym _ _ Hx). reflexivity.
Qed.

Lemma qBound_above (lo hi x : float) :
  (hi <? x)%float = true -> (lo <=? hi)%float = true ->
  (qBound PrimFloat.ltb lo x hi =? hi)%float = true.
Proof.
  intros Hx Hr. unfold qBound, qMin, qMax. rewrite Hx.
  destruct (lo <? hi)%float eqn:E.
  - apply (eqb_refl_of_leb _ _ Hr).
  - apply leb_not_ltb_eqb; assumption.
Qed.

(** The clamp lands inside a well-formed range whatever the request. *)
Lemma qBound_range (lo hi x : float) :
  (lo <=? hi)%float = true ->
  (lo <=? qBound PrimFloat.ltb lo x hi)%float = true /\
  (qBound PrimFloat.ltb lo x hi <=? hi)%float = true.
Proof.
  intros Hr. unfold qBound, qMin, qMax.
  pose proof (leb_refl_of_leb_l _ _ Hr) as Hlo.
  pose proof (leb_refl_of_leb_r _ _ Hr) as Hhi.
  destruct (hi <? x)%float eqn:E1.
  - destruct (lo <? hi)%float eqn:E2; auto using ltb_leb.
  - destruct (lo <? x)%float eqn:E2; auto.
    split; [apply ltb_leb; assumption|].
    apply not_ltb_leb; auto.
    apply (leb_refl_of_leb_r lo x). apply ltb_leb; assumption.
Qed.

Lemma div20_zero_sign (pow : float -> float -> float) (x y : float) :
  pow 10%float (-0)%float = pow 10%float 0%float ->
  (x = 0 \/ x = -0)%float -> (y = 0 \/ y = -0)%float ->
  pow 10%float (x / 20)%float = pow 10%float (y / 20)%float.
Proof.
  intros Hp [-> | ->] [-> | ->];
    change (0 / 20)%float with 0%float;
    change (-0 / 20)%float with (-0)%float; congruence.
Qed.

(** C5: [setInputGain(dB)] always returns; it stores
    [qBound(minInputGain, dB, maxInputGain)] as the gain and recomputes the
    factor as [pow(10, gain/20)], touching nothing else.  For [dB] inside
    the range the stored gain is (numerically) [dB] and the factor is
    [pow(10, dB/20)]; for [dB] below the range the stored gain is the lower
    bound, above the range it is (numerically) the upper bound.  The range
    is a range, [minInputGain <= maxInputGain]; [pow] is only assumed not to
    tell the two zeros apart as exponents, as C's [pow] does not. *)
Theorem setInputGain_clamps_and_recomputes (env : Env) (dB : qreal) (s : Audio) :
  qPow env 10%float (-0)%float = qPow env 10%float 0%float ->
  let lo := minInputGain (d s) in
  let hi := maxInputGain (d s) in
  exists s' : Audio,
    setInputGain env dB s = Ok tt s' /\
    s' = set_d (d s') s /\
    minInputGain (d s') = lo /\ maxInputGain (d s') = hi /\
    inputGain (d s') = qBound PrimFloat.ltb lo dB hi /\
    inputGainFactor (d s') = qPow env 10%float (inputGain (d s') / 20)%float /\
    ((lo <=? dB)%float = true -> (dB <=? hi)%float = true ->
       (inputGain (d s') =? dB)%float = true /\
       inputGainFactor (d s') = qPow env 10%float (dB / 20)%float) /\
    ((dB <? lo)%float = true -> (lo <=? hi)%float = true ->
       inputGain (d s') = lo) /\
    ((hi <? dB)%float = true -> (lo <=? hi)%float = true ->
       (inputGain (d s') =? hi)%float = true).
Proof.
  intros Hpow lo hi. subst lo hi.
  eexists. split; [reflexivity|]. cbn. unfold Private_setInputGain. cbn.
  repeat match goal with |- _ /\ _ => split end; try reflexivity.
  - intros H1 H2. split; [apply qBound_inside; assumption|].
    destruct (qBound_inside _ _ dB H1 H2) as [_ [-> | [-> E]]];
      [reflexivity|].
    destruct (eqb_cases _ _ E) as [-> | [Z1 Z2]]; [reflexivity|].
    apply div20_zero_sign; assumption.
  - intros H1 H2. apply qBound_below; assumption.
  - intros H1 H2. apply qBound_above; assumption.
Qed.

Lemma setInputGain_C5_witness :
  qPow env0 10%float (-0)%float = qPow env0 10%float 0%float /\
  (minInputGain (d Audio_new) <=? 20)%float = true /\
  (20 <=? maxInputGain (d Audio_new))%float = true /\
  exists s' : Audio,
    setInputGain env0 20%float Audio_new = Ok tt s' /\
    (inputGain (d s') =? 20)%float = true /\
    inputGainFactor (d s') = qPow env0 10%float (20 / 20)%float.
Proof.
  assert (Hp : qPow env0 10%float (-0)%float = qPow env0 10%float 0%float)
    by (vm_compute; reflexivity).
  assert (Hlo : (minInputGain (d Audio_new) <=? 20)%float = true)
    by (vm_compute; reflexivity).
  assert (Hhi : (20 <=? maxInputGain (d Audio_new))%float = true)
    by (vm_compute; reflexivity).
  repeat split; try assumption.
  destruct (setInputGain_clamps_and_recomputes env0 20%float Audio_new Hp)
    as (s' & Hrun & _ & _ & _ & _ & _ & Hin & _).
  exists s'. split; [exact Hrun|]. exact (Hin Hlo Hhi).
Defined.

(** Every call keeps the factor in step with the gain: only the capture
    open and [setInputGain] write the two, and they write them together. *)
Lemma step_factor_ok (pow : float -> float -> float) (env : Env) (c : Call)
    (s : Audio) :
  qPow env = pow -> factor_ok pow (d s) ->
  wlp (step env c) (fun _ s' => factor_ok pow (d s')) s.
Proof.
  intros <- Hf.
  destruct c; cbn [step];
    unfold reinitInput, reinitOutput, subscribeInput, unsubscribeInput,
      subscribeOutput, unsubscribeOutput, playMono16Timer_event,
      playMono16Sound, playAudioBuffer, doCapture, startLoop, stopLoop,
      autoInitInput, autoInitOutput, initInput, initOutput, cleanupInput,
      cleanupOutput, playMono16SoundCleanup, submitBuffer, setMinInputGain,
      setMaxInputGain, setInputGain, getSourceState;
    wp_run; trivial; reflexivity.
Qed.

Lemma run_factor_ok (pow : float -> float -> float) (calls : list (Env * Call)) :
  Forall (fun ec => qPow ec.1 = pow) calls ->
  forall s s', factor_ok pow (d s) -> run calls s = Ok tt s' ->
  factor_ok pow (d s').
Proof.
  induction 1 as [|[env c] calls Hp _ IH]; intros s s' Hf Hrun.
  - apply Ok_inj in Hrun as [_ <-]. exact Hf.
  - cbn [run] in Hrun. unfold mbind, M_bind in Hrun.
    pose proof (step_factor_ok pow env c s Hp Hf) as W. unfold wpg in W.
    destruct (step env c s) as [[] s1|]; [|discriminate].
    exact (IH s1 s' W Hrun).
Qed.

Lemma range_ok_ordered (p : Private) : range_ok p -> bounds_ordered p.
Proof. intros [H1 H2]. exact (leb_trans _ _ _ H1 H2). Qed.

(** Every call but the two bound setters keeps the gain within the
    bounds: the bounds stay, and the gain is only written by
    [setInputGain], which clamps it. *)
Lemma step_range_ok (env : Env) (c : Call) (s : Audio) :
  is_bound_change c = false -> range_ok (d s) ->
  wlp (step env c) (fun _ s' => range_ok (d s')) s.
Proof.
  intros Hc Hr. pose proof (range_ok_ordered _ Hr) as Ho.
  destruct c; try discriminate Hc; cbn [step];
    unfold reinitInput, reinitOutput, subscribeInput, unsubscribeInput,
      subscribeOutput, unsubscribeOutput, playMono16Timer_event,
      playMono16Sound, playAudioBuffer, doCapture, startLoop, stopLoop,
      autoInitInput, autoInitOutput, initInput, initOutput, cleanupInput,
      cleanupOutput, playMono16SoundCleanup, submitBuffer, setInputGain,
      getSourceState;
    wp_run; trivial.
  all: unfold range_ok, Private_setInputGain; cbn [minInputGain maxInputGain gain].
  all: apply qBound_range; exact Ho.
Qed.

Lemma run_range_ok (calls : list (Env * Call)) :
  Forall (fun ec : Env * Call => is_bound_change ec.2 = false) calls ->
  forall s s', range_ok (d s) -> run calls s = Ok tt s' -> range_ok (d s').
Proof.
  induction 1 as [|[env c] calls Hc _ IH]; intros s s' Hr Hrun.
  - apply Ok_inj in Hrun as [_ <-]. exact Hr.
  - cbn [run] in Hrun. unfold mbind, M_bind in Hrun.
    pose proof (step_range_ok env c s Hc Hr) as W. unfold wpg in W.
    destruct (step env c s) as [[] s1|]; [|discriminate].
    exact (IH s1 s' W Hrun).
Qed.

(** C6 (as amended): the range [minInputGain <= gain <= maxInputGain] holds
    in the freshly constructed object and every call other than
    [setMinInputGain] and [setMaxInputGain] preserves it, so it holds in
    every state reached without a bound change.  The two setters replace
    the bound and nothing else: they do not re-clamp the gain, and the
    range holds again from the next [setInputGain] made while
    [minInputGain <= maxInputGain].  The factor equals [pow(10, gain/20)]
    after any [setInputGain] and every later call keeps it so, bound
    changes included. *)
Theorem gain_state_invariant :
  range_ok (d Audio_new) /\
  (forall calls s s',
      Forall (fun ec : Env * Call => is_bound_change ec.2 = false) calls ->
      range_ok (d s) -> run calls s = Ok tt s' -> range_ok (d s')) /\
  (forall env dB s,
      exists s', setInputGain env dB s = Ok tt s' /\
        factor_ok (qPow env) (d s') /\
        ((minInputGain (d s) <=? maxInputGain (d s))%float = true ->
         range_ok (d s'))) /\
  (forall pow calls s s',
      Forall (fun ec : Env * Call => qPow ec.1 = pow) calls ->
      factor_ok pow (d s) -> run calls s = Ok tt s' -> factor_ok pow (d s')) /\
  (forall dB s,
      setMinInputGain dB s =
        Ok tt (set_d (mkPrivate dB (maxInputGain (d s)) (gain (d s))
                        (gainFactor (d s))) s) /\
      setMaxInputGain dB s =
        Ok tt (set_d (mkPrivate (minInputGain (d s)) dB (gain (d s))
                        (gainFactor (d s))) s)).
Proof.
  split; [split; vm_compute; reflexivity|].
  split; [intros calls s s' Hc Hr E; exact (run_range_ok calls Hc s s' Hr E)|].
  split.
  { intros env dB s. eexists. split; [reflexivity|]. cbn.
    unfold Private_setInputGain, factor_ok, range_ok. cbn.
    split; [reflexivity|]. intros Hr. apply qBound_range; assumption. }
  split.
  { intros pow calls s s' Hp Hf Hrun. eapply run_factor_ok; eauto. }
  intros dB s. split; reflexivity.
Qed.

Lemma gain_state_invariant_witness :
  Forall (fun ec : Env * Call => is_bound_change ec.2 = false) busy_session /\
  range_ok (d Audio_new) /\
  (exists s, run busy_session Audio_new = Ok tt s /\ range_ok (d s)) /\
  Forall (fun ec : Env * Call => qPow ec.1 = pow_whole)
    [(env0, SetMaxInputGain 40%float); (env0, SubscribeInput)] /\
  (minInputGain (d Audio_new) <=? maxInputGain (d Audio_new))%float = true /\
  (exists s1 : Audio,
     setInputGain env0 20%float Audio_new = Ok tt s1 /\ range_ok (d s1) /\
     forall s2, run [(env0, SetMaxInputGain 40%float); (env0, SubscribeInput)] s1
                = Ok tt s2 -> factor_ok pow_whole (d s2)).
Proof.
  assert (Hbusy : Forall (fun ec : Env * Call => is_bound_change ec.2 = false)
                    busy_session) by (repeat constructor).
  assert (Hall : Forall (fun ec : Env * Call => qPow ec.1 = pow_whole)
            [(env0, SetMaxInputGain 40%float); (env0, SubscribeInput)])
    by (repeat constructor).
  assert (Hr : (minInputGain (d Audio_new) <=? maxInputGain (d Audio_new))%float = true)
    by (vm_compute; reflexivity).
  assert (Hrun0 : exists s, run busy_session Audio_new = Ok tt s)
    by (eexists; vm_compute; reflexivity).
  destruct gain_state_invariant as (Hnew & Hkeep & Hset & Hrun & _).
  split; [exact Hbusy|]. split; [exact Hnew|].
  split.
  { destruct Hrun0 as [s E]. exists s. split; [exact E|].
    exact (Hkeep busy_session Audio_new s Hbusy Hnew E). }
  split; [exact Hall|]. split; [exact Hr|].
  destruct (Hset env0 20%float Audio_new) as (s1 & E & Hf & Hrange).
  exists s1. split; [exact E|]. split; [exact (Hrange Hr)|].
  intros s2 E2. exact (Hrun pow_whole _ s1 s2 Hall Hf E2).
Defined.

(** C6, as stated, fails: raising the lower bound above the stored gain
    leaves the gain below the range. *)
Lemma gain_range_broken_by_bound_change :
  exists s : Audio,
    run [(env0, SetMinInputGain 10%float)] Audio_new = Ok tt s /\
    (minInputGain (d s) <=? inputGain (d s))%float = false.
Proof.
  eexists. split; [reflexivity|]. vm_compute. reflexivity.
Qed.

(** ** Closing the capture device *)

Lemma wp_returns {A : Type} (m : M A) (a0 : A) (s s0 : Audio) :
  wp m (fun a s' => a = a0 /\ s' = s0) s -> m s = Ok a0 s0.
Proof.
  intros W. destruct (wp_elim _ _ _ W) as (a & s' & E & -> & ->). exact E.
Qed.

(** C8 (as amended): [cleanupInput] changes nothing when no capture device
    is open; otherwise it stops streaming and asks the driver to close the
    device, and it never fails: when the driver reports success the handle
    becomes empty, when it reports failure a warning is logged and the
    handle is kept. *)
Theorem cleanupInput_closes_or_warns (env : Env) (s : Audio) :
  (alInDev s = None -> cleanupInput env s = Ok tt s) /\
  (forall dev, alInDev s = Some dev ->
     cleanupInput env s =
       Ok tt
         (if alcCaptureCloseDevice env dev then
            set_alInDev None
              (set_effects
                 (effects s ++ [AlcCaptureStop dev; AlcCaptureCloseDevice dev]) s)
          else
            set_effects
              (effects s ++ [AlcCaptureStop dev; AlcCaptureCloseDevice dev;
                             qWarning "Failed to close input"]) s)).
Proof.
  split.
  - intros H. apply wp_returns. unfold cleanupInput. wp_run.
    split; reflexivity.
  - intros dev H. apply wp_returns. unfold cleanupInput. wp_run;
      (split; [reflexivity|]);
      unfold set_alInDev, set_effects; simpl_state;
      rewrite <- ?app_assoc; reflexivity.
Qed.

Lemma cleanupInput_closes_or_warns_witness :
  alInDev (set_alInDev (Some 7%N) Audio_new) = Some 7%N /\
  cleanupInput env0 (set_alInDev (Some 7%N) Audio_new) =
    Ok tt
      (set_alInDev None
         (set_effects [AlcCaptureStop 7%N; AlcCaptureCloseDevice 7%N]
            (set_alInDev (Some 7%N) Audio_new))).
Proof.
  split; [reflexivity|].
  exact (proj2 (cleanupInput_closes_or_warns env0 (set_alInDev (Some 7%N) Audio_new))
           7%N eq_refl).
Defined.

(** C8, as stated, fails: when the driver refuses to close, the handle is
    not emptied. *)
Lemma cleanupInput_keeps_handle_when_close_fails :
  exists s : Audio,
    cleanupInput (with_alcCaptureCloseDevice (fun _ => false) env0)
      (set_alInDev (Some 7%N) Audio_new) = Ok tt s /\
    alInDev s = Some 7%N.
Proof.
  eexists. split; reflexivity.
Qed.

(** ** Capture subscriptions *)

Lemma subscribeInput_healthy (env : Env) (s : Audio) :
  capture_healthy env -> capture_matches_count s ->
  wp (subscribeInput env)
     (fun _ s' => inSubscriptions s' = N.succ (inSubscriptions s) /\
                  capture_matches_count s') s.
Proof.
  intros (Hnone & Hname & [dev Hopen] & Hclose) Hinv.
  unfold subscribeInput, autoInitInput, initInput, setInputGain.
  wp_run; (split; [reflexivity|]); unfold capture_matches_count; simpl_state;
    (split; [intros _; lia | eauto]).
Qed.

Lemma unsubscribeInput_healthy (env : Env) (s : Audio) :
  capture_healthy env -> capture_matches_count s ->
  wp (unsubscribeInput env)
     (fun _ s' => inSubscriptions s' = N.pred (inSubscriptions s) /\
                  capture_matches_count s') s.
Proof.
  intros (Hnone & Hname & Hopen & Hclose) Hinv.
  unfold capture_matches_count in *.
  unfold unsubscribeInput, cleanupInput.
  wp_run.
  all: repeat match goal with
              | H : (_ =? _)%N = true |- _ => apply N.eqb_eq in H
              | H : (_ =? _)%N = false |- _ => apply N.eqb_neq in H
              | H : alcCaptureCloseDevice _ _ = false |- _ =>
                  rewrite Hclose in H; discriminate H
              end.
  all: split; [lia|].
  all: split; intros Hx.
  all: try lia.
  all: try (apply Hinv; lia).
  all: try (exfalso; apply (@not_is_Some_None ALCdevice); congruence).
  all: try (apply Hinv in Hx; lia).
Qed.

Lemma unsubscribeInput_at_zero (env : Env) (s : Audio) :
  inSubscriptions s = 0%N -> unsubscribeInput env s = Ok tt s.
Proof.
  intros H. apply wp_returns. unfold unsubscribeInput.
  apply wpg_bind, wpg_gets. cbv beta. rewrite H. cbn [N.eqb].
  split; reflexivity.
Qed.

Lemma balance_never_negative (calls : list (Env * Call)) :
  forall n : nat,
    never_negative n calls = true ->
    (unsubscribes calls <= n + subscribes calls)%nat /\
    balance (N.of_nat n) calls =
      N.of_nat (n + subscribes calls - unsubscribes calls).
Proof.
  unfold subscribes, unsubscribes.
  induction calls as [|[env c] calls IH]; intros n H.
  - cbn. split; [lia|]. f_equal. lia.
  - destruct c; cbn [never_negative balance List.filter is_subscribe
                     is_unsubscribe snd length] in *;
      try (destruct (IH n H) as [? ->]; split; [lia|f_equal; lia]).
    + replace (N.succ (N.of_nat n)) with (N.of_nat (S n)) by lia.
      destruct (IH (S n) H) as [? ->]. split; [lia|f_equal; lia].
    + destruct n as [|n]; [discriminate|].
      replace (N.pred (N.of_nat (S n))) with (N.of_nat n) by lia.
      destruct (IH n H) as [? ->]. split; [lia|f_equal; lia].
Qed.

Lemma run_input_calls (calls : list (Env * Call)) :
  Forall (fun ec : Env * Call =>
            (is_subscribe ec.2 || is_unsubscribe ec.2 = true) /\
            capture_healthy ec.1) calls ->
  forall s, capture_matches_count s ->
  exists s', run calls s = Ok tt s' /\
             inSubscriptions s' = balance (inSubscriptions s) calls /\
             capture_matches_count s'.
Proof.
  induction 1 as [|[env c] calls [Hc Hh] _ IH]; intros s Hinv.
  - exists s. repeat split; auto; apply Hinv.
  - cbn [fst snd] in *.
    assert (W : wp (step env c)
                  (fun _ s1 => inSubscriptions s1 = balance (inSubscriptions s) [(env, c)]
                               /\ capture_matches_count s1) s).
    { destruct c; try discriminate Hc; cbn [step balance].
      - apply subscribeInput_healthy; assumption.
      - apply unsubscribeInput_healthy; assumption. }
    destruct (wp_elim _ _ _ W) as ([] & s1 & E & Hn & Hinv1).
    destruct (IH s1 Hinv1) as (s' & E' & Hn' & Hinv').
    exists s'. split; [|split; [|exact Hinv']].
    + cbn [run]. unfold mbind, M_bind. rewrite E. exact E'.
    + rewrite Hn', Hn. destruct c; try discriminate Hc; reflexivity.
Qed.

(** A call that is neither a subscription, an unsubscription nor
    [reinitInput] leaves the capture handle and the count alone. *)
Lemma step_keeps_capture_session (env : Env) (c : Call) (s : Audio) :
  is_subscribe c = false -> is_unsubscribe c = false ->
  is_reinitInput c = false ->
  wlp (step env c)
      (fun _ s' => alInDev s' = alInDev s /\
                   inSubscriptions s' = inSubscriptions s) s.
Proof.
  intros H1 H2 H3.
  destruct c; try discriminate; cbn [step];
    unfold reinitOutput, subscribeOutput, unsubscribeOutput,
      playMono16Timer_event, playMono16Sound, playAudioBuffer, doCapture,
      startLoop, stopLoop, autoInitOutput, initOutput, cleanupOutput,
      playMono16SoundCleanup, submitBuffer, setMinInputGain, setMaxInputGain,
      setInputGain, getSourceState;
    wp_run; trivial; split; congruence.
Qed.

Lemma step_capture_matches_count (env : Env) (c : Call) (s : Audio) :
  is_reinitInput c = false ->
  (is_subscribe c || is_unsubscribe c = true -> capture_healthy env) ->
  capture_matches_count s ->
  wlp (step env c)
      (fun _ s' => inSubscriptions s' = balance (inSubscriptions s) [(env, c)] /\
                   capture_matches_count s') s.
Proof.
  intros Hre Hh Hinv.
  destruct (is_subscribe c) eqn:E1; [|destruct (is_unsubscribe c) eqn:E2].
  - destruct c; try discriminate E1. cbn [step balance].
    apply wp_wlp, subscribeInput_healthy; [apply Hh; reflexivity|exact Hinv].
  - destruct c; try discriminate E2. cbn [step balance].
    apply wp_wlp, unsubscribeInput_healthy; [apply Hh; reflexivity|exact Hinv].
  - eapply wpg_mono; [exact (step_keeps_capture_session env c s E1 E2 Hre)|].
    intros [] s' [Hd Hn]. split.
    + rewrite Hn. destruct c; try discriminate; reflexivity.
    + unfold capture_matches_count in *. rewrite Hd, Hn. exact Hinv.
Qed.

Lemma run_capture_matches_count (calls : list (Env * Call)) :
  Forall (fun ec : Env * Call =>
            is_reinitInput ec.2 = false /\
            (is_subscribe ec.2 || is_unsubscribe ec.2 = true ->
             capture_healthy ec.1)) calls ->
  forall s s', capture_matches_count s -> run calls s = Ok tt s' ->
    inSubscriptions s' = balance (inSubscriptions s) calls /\
    capture_matches_count s'.
Proof.
  induction 1 as [|[env c] calls [Hre Hh] _ IH]; intros s s' Hinv Hrun.
  - apply Ok_inj in Hrun as [_ <-]. split; [reflexivity|exact Hinv].
  - cbn [fst snd] in *. cbn [run] in Hrun. unfold mbind, M_bind in Hrun.
    pose proof (step_capture_matches_count env c s Hre Hh Hinv) as W.
    unfold wpg in W.
    destruct (step env c s) as [[] s1|]; [|discriminate].
    destruct W as [Hn Hinv1]. destruct (IH s1 s' Hinv1 Hrun) as [Hn' Hinv'].
    split; [|exact Hinv']. rewrite Hn', Hn.
    destruct c; reflexivity.
Qed.

(** C1 (as amended): with a configured capture device other than "none"
    that the driver opens and closes without failure, in every state
    reached from the constructor by calls other than [reinitInput] (capture
    ticks, gain changes and the playback calls included) the capture
    device is open iff the subscription count is greater than 0; hence
    after N subscriptions and N unsubscriptions, in any order whose
    running count never goes negative, the device is closed, and after N
    subscriptions and N-1 unsubscriptions it is open.  A run made of
    subscriptions and unsubscriptions only always returns.  In any state
    at all, [unsubscribeInput] changes nothing when the count is zero. *)
Theorem input_subscriptions_drive_capture :
  (forall env s, inSubscriptions s = 0%N -> unsubscribeInput env s = Ok tt s) /\
  (forall (calls : list (Env * Call)) (s : Audio),
     Forall (fun ec : Env * Call =>
               is_reinitInput ec.2 = false /\
               (is_subscribe ec.2 || is_unsubscribe ec.2 = true ->
                capture_healthy ec.1)) calls ->
     run calls Audio_new = Ok tt s ->
     inSubscriptions s = balance 0%N calls /\
     (is_Some (alInDev s) <-> (0 < inSubscriptions s)%N) /\
     (never_negative 0 calls = true ->
      (subscribes calls = unsubscribes calls -> alInDev s = None) /\
      (subscribes calls = S (unsubscribes calls) -> is_Some (alInDev s)))) /\
  (forall calls : list (Env * Call),
     Forall (fun ec : Env * Call =>
               (is_subscribe ec.2 || is_unsubscribe ec.2 = true) /\
               capture_healthy ec.1) calls ->
     exists s, run calls Audio_new = Ok tt s).
Proof.
  assert (H0 : capture_matches_count Audio_new).
  { split; [intros [x E]; discriminate E | cbn; lia]. }
  split; [exact unsubscribeInput_at_zero|]. split.
  - intros calls s Hcalls E.
    destruct (run_capture_matches_count calls Hcalls Audio_new s H0 E)
      as [Hn Hinv].
    split; [exact Hn|]. split; [exact Hinv|].
    unfold capture_matches_count in Hinv.
    intros Hnn. destruct (balance_never_negative calls 0 Hnn) as [Hle Hb].
    change (N.of_nat 0) with 0%N in Hb. cbn [inSubscriptions Audio_new] in Hn.
    rewrite Hb in Hn. split; intros Hcount.
    + destruct (alInDev s) as [dev|] eqn:Ed; [|reflexivity].
      assert (Hs : is_Some (Some dev)) by eauto.
      apply Hinv in Hs. lia.
    + apply Hinv. lia.
  - intros calls Hcalls.
    destruct (run_input_calls calls Hcalls Audio_new H0) as (s & E & _).
    exists s. exact E.
Qed.

Lemma capture_healthy_env0 : capture_healthy env0.
Proof.
  split; [reflexivity|]. split; [reflexivity|]. split; [cbn; eauto|].
  intros dev. reflexivity.
Qed.

Lemma capture_healthy_env_frame : capture_healthy env_frame.
Proof.
  split; [reflexivity|]. split; [reflexivity|]. split; [cbn; eauto|].
  intros dev. reflexivity.
Qed.

Lemma input_subscriptions_drive_capture_witness :
  inSubscriptions Audio_new = 0%N /\
  unsubscribeInput env0 Audio_new = Ok tt Audio_new /\
  Forall (fun ec : Env * Call =>
            is_reinitInput ec.2 = false /\
            (is_subscribe ec.2 || is_unsubscribe ec.2 = true ->
             capture_healthy ec.1)) busy_session /\
  never_negative 0 busy_session = true /\
  subscribes busy_session = unsubscribes busy_session /\
  (exists s, run busy_session Audio_new = Ok tt s /\ alInDev s = None /\
             frames s = 1%nat) /\
  Forall (fun ec : Env * Call =>
            (is_subscribe ec.2 || is_unsubscribe ec.2 = true) /\
            capture_healthy ec.1) two_subscribers /\
  exists s, run two_subscribers Audio_new = Ok tt s.
Proof.
  assert (H0 : inSubscriptions Audio_new = 0%N) by reflexivity.
  assert (HF : Forall (fun ec : Env * Call =>
            is_reinitInput ec.2 = false /\
            (is_subscribe ec.2 || is_unsubscribe ec.2 = true ->
             capture_healthy ec.1)) busy_session).
  { unfold busy_session.
    repeat (apply Forall_cons_2;
            [split; [reflexivity|]; intros _;
             first [apply capture_healthy_env0 | apply capture_healthy_env_frame]|]).
    constructor. }
  assert (HF2 : Forall (fun ec : Env * Call =>
            (is_subscribe ec.2 || is_unsubscribe ec.2 = true) /\
            capture_healthy ec.1) two_subscribers).
  { repeat constructor; apply capture_healthy_env0. }
  assert (Hnn : never_negative 0 busy_session = true) by reflexivity.
  assert (Hc : subscribes busy_session = unsubscribes busy_session)
    by reflexivity.
  assert (Hrun0 : exists s, run busy_session Audio_new = Ok tt s /\
                            frames s = 1%nat).
  { exists (final (run busy_session Audio_new)). vm_compute.
    split; reflexivity. }
  destruct input_subscriptions_drive_capture as (Hz & Hrun & Htotal).
  split; [exact H0|]. split; [exact (Hz env0 Audio_new H0)|].
  split; [exact HF|]. split; [exact Hnn|]. split; [exact Hc|].
  split.
  { destruct Hrun0 as (s & E & Hframes). exists s. split; [exact E|].
    destruct (Hrun busy_session s HF E) as (_ & _ & Hbal).
    split; [exact (proj1 (Hbal Hnn) Hc)|exact Hframes]. }
  split; [exact HF2|]. exact (Htotal two_subscribers HF2).
Defined.

(** C1, as stated, fails in three ways: with the "none" device a
    subscription is counted although nothing is opened; when the driver
    refuses to close, the last unsubscription leaves the device open; and
    [reinitInput] opens the device without any subscriber. *)
Lemma input_subscription_count_vs_capture :
  (exists s, run [(with_getInDev "none" env0, SubscribeInput)] Audio_new = Ok tt s /\
             inSubscriptions s = 1%N /\ alInDev s = None) /\
  (exists s, run [(env0, SubscribeInput);
                  (with_alcCaptureCloseDevice (fun _ => false) env0,
                   UnsubscribeInput)] Audio_new = Ok tt s /\
             inSubscriptions s = 0%N /\ alInDev s = Some 7%N) /\
  (exists s, run [(env0, ReinitInput "mic")] Audio_new = Ok tt s /\
             inSubscriptions s = 0%N /\ alInDev s = Some 7%N).
Proof.
  repeat split; eexists; (split; [reflexivity|]); split; reflexivity.
Qed.

(** ** Capture tick *)

Lemma gainLoop_length (factor : qreal) (todo : nat) :
  forall (i : nat) (buf pcm : list Z),
    gainLoop factor todo i buf = Some pcm -> length pcm = length buf.
Proof.
  unfold gainLoop. induction todo as [|todo IH]; intros i buf pcm H.
  - injection H as <-. reflexivity.
  - fold gainLoop in *. destruct (buf !! i) as [x|]; [|discriminate].
    destruct (amplify factor x) as [v|]; [|discriminate].
    rewrite (IH _ _ _ H). apply length_insert.
Qed.

Lemma capturedFrame_length (env : Env) :
  length (capturedFrame env) = frameLength env.
Proof.
  unfold capturedFrame. destruct (filterAudio env);
    rewrite length_map, length_seq; reflexivity.
Qed.

(** Whenever the gain step is defined its result is the rounded product
    clamped to the 16-bit range, and the final narrowing cast preserves it. *)
Lemma amplify_clamped (factor : qreal) (sample r : Z) :
  amplify factor sample = Some r ->
  INT16_MIN <= r <= INT16_MAX /\
  exists n, qRound (double_of_int sample * factor)%float = Some n /\
            r = qBound Z.ltb INT16_MIN n INT16_MAX.
Proof.
  unfold amplify. destruct (qRound _) as [n|]; [|discriminate].
  intros [= <-].
  assert (B : INT16_MIN <= qBound Z.ltb INT16_MIN n INT16_MAX <= INT16_MAX).
  { unfold qBound, qMin, qMax, INT16_MIN, INT16_MAX.
    repeat match goal with
           | |- context [Z.ltb ?a ?b] => destruct (Z.ltb_spec a b)
           end; lia. }
  assert (E : int16_of_int (qBound Z.ltb INT16_MIN n INT16_MAX)
              = qBound Z.ltb INT16_MIN n INT16_MAX).
  { set (q := qBound Z.ltb INT16_MIN n INT16_MAX) in *.
    unfold int16_of_int. unfold INT16_MIN, INT16_MAX in B.
    rewrite Z.mod_small by lia. lia. }
  rewrite E. split; [exact B|]. exists n. split; reflexivity.
Qed.

Lemma int16_of_int_range (z : Z) : INT16_MIN <= int16_of_int z <= INT16_MAX.
Proof.
  unfold int16_of_int, INT16_MIN, INT16_MAX.
  pose proof (Z.mod_pos_bound (z + 32768) 65536). lia.
Qed.

Lemma upFrom_In (count : nat) (first z : Z) :
  first <= z < first + Z.of_nat count -> In z (upFrom first count).
Proof.
  revert first. induction count as [|count IH]; intros first Hz; [lia|].
  cbn [upFrom]. destruct (Z.eq_dec first z) as [->|Hne]; [left; reflexivity|].
  right. apply IH. lia.
Qed.

Lemma gain_defined_amplify (factor : qreal) (sample : Z) :
  gain_defined factor = true -> INT16_MIN <= sample <= INT16_MAX ->
  is_Some (amplify factor sample).
Proof.
  unfold gain_defined, INT16_MIN, INT16_MAX. intros H Hs.
  rewrite forallb_forall in H.
  apply (bool_decide_eq_true_1 _). apply H.
  unfold int16_values. apply upFrom_In. unfold INT16_MIN. lia.
Qed.

Lemma gainLoop_defined (factor : qreal) (todo : nat) :
  gain_defined factor = true ->
  forall (i : nat) (buf : list Z),
    (i + todo <= length buf)%nat ->
    Forall (fun z => INT16_MIN <= z <= INT16_MAX) buf ->
    is_Some (gainLoop factor todo i buf).
Proof.
  intros Hf. unfold gainLoop.
  induction todo as [|todo IH]; intros i buf Hlen Hbuf; [eauto|].
  fold gainLoop in *.
  destruct (lookup_lt_is_Some_2 buf i) as [x Hx]; [lia|].
  rewrite Hx.
  destruct (gain_defined_amplify factor x Hf) as [v Hv].
  { exact (Forall_lookup_1 _ _ _ _ Hbuf Hx). }
  rewrite Hv. apply IH.
  - rewrite length_insert. lia.
  - apply Forall_insert; [exact Hbuf|].
    exact (proj1 (amplify_clamped _ _ _ Hv)).
Qed.

Lemma capturedFrame_int16 (env : Env) :
  Forall (fun z => INT16_MIN <= z <= INT16_MAX) (capturedFrame env).
Proof.
  unfold capturedFrame.
  destruct (filterAudio env); apply Forall_forall; intros z Hz;
    apply list_elem_of_In, in_map_iff in Hz as (i & <- & _);
    apply int16_of_int_range.
Qed.

Lemma frames_app (s : Audio) (l : list Effect) :
  frames (set_effects (effects s ++ l) s) =
  (frames s + length (List.filter is_frame l))%nat.
Proof.
  unfold frames. simpl_state. rewrite List.filter_app, length_app. reflexivity.
Qed.

Lemma doCapture_below (env : Env) (s : Audio) (dev : ALCdevice) :
  alInDev s = Some dev -> inSubscriptions s <> 0%N ->
  captureAvailable env < AUDIO_FRAME_SAMPLE_COUNT env ->
  doCapture env s = Ok tt s.
Proof.
  intros Hdev Hn Hlt.
  apply N.eqb_neq in Hn. apply Z.ltb_lt in Hlt.
  apply wp_returns. unfold doCapture. wp_run. split; reflexivity.
Qed.

Lemma doCapture_full (env : Env) (s : Audio) (dev : ALCdevice) (pcm : list Z) :
  alInDev s = Some dev -> inSubscriptions s <> 0%N ->
  AUDIO_FRAME_SAMPLE_COUNT env <= captureAvailable env ->
  gainLoop (inputGainFactor (d s)) (frameLength env) 0 (capturedFrame env)
    = Some pcm ->
  doCapture env s =
    Ok tt (set_effects
             (effects s ++
                [AlcCaptureSamples dev (AUDIO_FRAME_SAMPLE_COUNT env);
                 FrameAvailable pcm (AUDIO_FRAME_SAMPLE_COUNT env)
                   (AUDIO_CHANNELS env) (AUDIO_SAMPLE_RATE env)]) s).
Proof.
  intros Hdev Hn Hge Hgain.
  apply N.eqb_neq in Hn. apply Z.ltb_ge in Hge.
  apply wp_returns. unfold doCapture. wp_run. split; [reflexivity|].
  unfold set_effects; simpl_state. rewrite <- app_assoc. reflexivity.
Qed.

(** C3: a capture tick with the device open and at least one subscriber.
    While the device reports fewer samples than one frame the tick changes
    nothing: no read, no emission.  Once a frame is available the tick
    reads [AUDIO_FRAME_SAMPLE_COUNT] samples and publishes one frame of
    [AUDIO_FRAME_SAMPLE_COUNT * AUDIO_CHANNELS] values, and nothing else
    changes.  So with availabilities 0, frame-1, frame, frame+k the four
    ticks publish 0, 0, 1 and 1 frames.  The gain factor is one on which
    the gain step is defined for every 16-bit sample (see C7 for the
    factors on which it is not). *)
Theorem doCapture_frame_threshold (env : Env) (s : Audio) (dev : ALCdevice)
    (k : Z) :
  alInDev s = Some dev -> inSubscriptions s <> 0%N ->
  0 < AUDIO_FRAME_SAMPLE_COUNT env -> 0 <= k ->
  gain_defined (inputGainFactor (d s)) = true ->
  exists pcm : list Z,
  let frame := AUDIO_FRAME_SAMPLE_COUNT env in
  let emitted :=
    set_effects
      (effects s ++
         [AlcCaptureSamples dev frame;
          FrameAvailable pcm frame (AUDIO_CHANNELS env) (AUDIO_SAMPLE_RATE env)]) s in
  gainLoop (inputGainFactor (d s)) (frameLength env) 0 (capturedFrame env)
    = Some pcm /\
  (forall n, n < frame -> doCapture (with_captureAvailable n env) s = Ok tt s) /\
  (forall n, frame <= n ->
     doCapture (with_captureAvailable n env) s = Ok tt emitted) /\
  length pcm = Z.to_nat (frame * AUDIO_CHANNELS env) /\
  frames emitted = S (frames s) /\
  exists s1 s2 s3 s4,
    doCapture (with_captureAvailable 0 env) s = Ok tt s1 /\
    doCapture (with_captureAvailable (frame - 1) env) s1 = Ok tt s2 /\
    doCapture (with_captureAvailable frame env) s2 = Ok tt s3 /\
    doCapture (with_captureAvailable (frame + k) env) s3 = Ok tt s4 /\
    frames s1 = frames s /\ frames s2 = frames s1 /\
    frames s3 = S (frames s2) /\ frames s4 = S (frames s3).
Proof.
  intros Hdev Hn Hpos Hk Hdef.
  destruct (gainLoop_defined (inputGainFactor (d s)) (frameLength env) Hdef
              0%nat (capturedFrame env)) as [pcm Hgain].
  { rewrite capturedFrame_length. unfold frameLength. lia. }
  { apply capturedFrame_int16. }
  exists pcm. intros frame emitted.
  split; [exact Hgain|].
  assert (Hbelow : forall n, n < frame ->
            doCapture (with_captureAvailable n env) s = Ok tt s).
  { intros n Hlt. apply (doCapture_below _ _ dev); auto. }
  assert (Hfull : forall n s0, alInDev s0 = Some dev ->
            inSubscriptions s0 <> 0%N -> d s0 = d s -> frame <= n ->
            doCapture (with_captureAvailable n env) s0 =
              Ok tt (set_effects
                (effects s0 ++
                   [AlcCaptureSamples dev frame;
                    FrameAvailable pcm frame (AUDIO_CHANNELS env)
                      (AUDIO_SAMPLE_RATE env)]) s0)).
  { intros n s0 H1 H2 H3 Hle.
    apply (doCapture_full (with_captureAvailable n env) s0 dev pcm); auto.
    rewrite H3. exact Hgain. }
  split; [exact Hbelow|].
  split; [intros n Hle; apply Hfull; auto|].
  split; [rewrite (gainLoop_length _ _ _ _ _ Hgain); apply capturedFrame_length|].
  split; [unfold emitted; rewrite frames_app; cbn; lia|].
  exists s, s, emitted.
  eexists.
  split; [apply Hbelow; lia|]. split; [apply Hbelow; lia|].
  split; [apply Hfull; auto; lia|].
  split; [apply (Hfull (frame + k) emitted); auto; lia|].
  split; [reflexivity|]. split; [reflexivity|].
  split; [unfold emitted; rewrite frames_app; cbn; lia|].
  rewrite frames_app. cbn. lia.
Qed.

(** The theorem at the two-sample frame of [env_tiny] with unit gain. *)
Lemma doCapture_frame_threshold_witness :
  alInDev capturing = Some 7%N /\ inSubscriptions capturing <> 0%N /\
  0 < AUDIO_FRAME_SAMPLE_COUNT env_tiny /\ 0 <= 3 /\
  gain_defined (inputGainFactor (d capturing)) = true /\
  doCapture (with_captureAvailable 1 env_tiny) capturing = Ok tt capturing /\
  doCapture (with_captureAvailable 2 env_tiny) capturing =
    Ok tt (set_effects
             [AlcCaptureSamples 7%N 2; FrameAvailable [32767; 32767] 2 1 48000]
             capturing).
Proof.
  assert (H1 : alInDev capturing = Some 7%N) by reflexivity.
  assert (H2 : inSubscriptions capturing <> 0%N) by discriminate.
  assert (H3 : 0 < AUDIO_FRAME_SAMPLE_COUNT env_tiny) by reflexivity.
  assert (H4 : 0 <= 3) by discriminate.
  assert (H5 : gain_defined (inputGainFactor (d capturing)) = true)
    by (vm_compute; reflexivity).
  pose proof (doCapture_frame_threshold env_tiny capturing 7%N 3
                H1 H2 H3 H4 H5) as (pcm & Hgain & Hlow & Hhigh & _).
  assert (Hpcm : pcm = [32767; 32767]).
  { assert (E : gainLoop (inputGainFactor (d capturing)) (frameLength env_tiny) 0
                  (capturedFrame env_tiny) = Some [32767; 32767])
      by (vm_compute; reflexivity).
    rewrite E in Hgain. injection Hgain as <-. reflexivity. }
  subst pcm.
  split; [exact H1|]. split; [exact H2|]. split; [exact H3|].
  split; [exact H4|]. split; [exact H5|]. split.
  - apply Hlow. reflexivity.
  - apply (Hhigh 2). discriminate.
Defined.

(** ** Gain in the capture loop *)

(** Within the default gain range the loudest sample saturates. *)
Example amplify_saturates_at_plus_30dB :
  amplify 0x1.f9f6e4990f227p+4%float 32767 = Some 32767 /\
  amplify 0x1.f9f6e4990f227p+4%float (-32768) = Some (-32768) /\
  amplify 1.5%float 32767 = Some 32767.
Proof. vm_compute. repeat split; reflexivity. Qed.

(** C7: the gain step rounds the product to [int] before it clamps, so a
    product beyond the range of [int] is converted with undefined
    behaviour and never reaches the clamp.  After [setMaxInputGain(120)]
    and [setInputGain(120)] the factor is 10^6; the loudest sample times
    10^6 is 32767000000, which no [int] holds: the capture tick has no
    defined result, where the claim promises the sample 32767. *)
Theorem gain_rounds_before_it_clamps :
  amplify 1000000%float 32767 = None /\
  run [(env_tiny, SubscribeInput);
       (env_tiny, SetMaxInputGain 120%float);
       (env_tiny, SetInputGain 120%float);
       (with_captureAvailable 2 env_tiny, DoCapture)] Audio_new
  = Abort UndefinedBehaviour.
Proof. vm_compute. split; reflexivity. Qed.

(** ** The OpenAL model: what each primitive does to the visible sources *)

Lemma OpenAL_eta (w : OpenAL) :
  mkOpenAL (al_context w) (al_buffers w) (al_last w) = w.
Proof. destruct w. reflexivity. Qed.

Lemma al_sources_on_sources (f : gmap N Source -> gmap N Source) (w : OpenAL) :
  f ∅ = ∅ -> al_sources (on_sources f w) = f (al_sources w).
Proof.
  intros Hf. unfold al_sources, on_sources. cbn [al_context].
  destruct (al_context w); cbn; [reflexivity|symmetry; exact Hf].
Qed.

Lemma al_sources_alter (f : Source -> Source) (sid : ALuint) (w : OpenAL) :
  al_sources (on_sources (alter f sid) w) = alter f sid (al_sources w).
Proof. apply al_sources_on_sources, alter_empty. Qed.

Lemma al_sources_delete (sid : ALuint) (w : OpenAL) :
  al_sources (on_sources (delete sid) w) = delete sid (al_sources w).
Proof. apply al_sources_on_sources, delete_empty. Qed.

Lemma al_sources_on_buffers (f : gmap N Buffer -> gmap N Buffer) (w : OpenAL) :
  al_sources (on_buffers f w) = al_sources w.
Proof.
  destruct w as [[m|] b l]; reflexivity.
Qed.

Lemma al_sources_alBufferData (bid : ALuint) (b : Buffer) (w : OpenAL) :
  al_sources (alBufferData bid b w) = al_sources w.
Proof.
  unfold alBufferData. destruct (buffer_in_use bid w); [reflexivity|].
  apply al_sources_on_buffers.
Qed.

Lemma al_sources_alDeleteBuffers (bids : list ALuint) (w : OpenAL) :
  al_sources (alDeleteBuffers bids w) = al_sources w.
Proof.
  unfold alDeleteBuffers. destruct (forallb _ bids); [|reflexivity].
  apply al_sources_on_buffers.
Qed.

Lemma al_sources_alGenBuffers (bid : ALuint) (w : OpenAL) :
  al_sources (alGenBuffers bid w).2 = al_sources w.
Proof.
  destruct w as [[m|] b l]; reflexivity.
Qed.

Lemma al_sources_alcDestroyContext (w : OpenAL) :
  al_sources (alcDestroyContext w) = ∅.
Proof. reflexivity. Qed.

Lemma al_sources_makeCurrent (ctx : option ALCcontext) (w : OpenAL) :
  al_sources (makeCurrent ctx w) =
    match ctx with Some _ => al_sources w | None => ∅ end.
Proof.
  destruct ctx, w as [[m|] b l]; reflexivity.
Qed.

(** A source that exists is a source of the current context. *)
Lemma source_has_context (w : OpenAL) (sid : ALuint) (src : Source) :
  al_sources w !! sid = Some src -> al_context w = Some (al_sources w).
Proof.
  unfold al_sources. destruct (al_context w); [reflexivity|].
  rewrite lookup_empty. discriminate.
Qed.

Lemma al_sources_alGenSources (sid : ALuint) (w : OpenAL) :
  al_sources (alGenSources sid w).2 =
    match al_context w with
    | Some _ => <[N.succ (al_last w) := Source_new]> (al_sources w)
    | None => ∅
    end.
Proof.
  destruct w as [[m|] b l]; reflexivity.
Qed.


Lemma alGenBuffers_name (bid : ALuint) (w : OpenAL) :
  (alGenBuffers bid w).1 =
    match al_context w with Some _ => N.succ (al_last w) | None => bid end.
Proof. unfold alGenBuffers. destruct (al_context w); reflexivity. Qed.

Lemma al_last_on_sources (f : gmap N Source -> gmap N Source) (w : OpenAL) :
  al_last (on_sources f w) = al_last w.
Proof. reflexivity. Qed.

Lemma al_last_on_buffers (f : gmap N Buffer -> gmap N Buffer) (w : OpenAL) :
  al_last (on_buffers f w) = al_last w.
Proof. unfold on_buffers. destruct (al_context w); reflexivity. Qed.

Lemma al_last_alBufferData (bid : ALuint) (b : Buffer) (w : OpenAL) :
  al_last (alBufferData bid b w) = al_last w.
Proof.
  unfold alBufferData. destruct (buffer_in_use bid w); [reflexivity|].
  apply al_last_on_buffers.
Qed.

Lemma al_last_alDeleteBuffers (bids : list ALuint) (w : OpenAL) :
  al_last (alDeleteBuffers bids w) = al_last w.
Proof.
  unfold alDeleteBuffers. destruct (forallb _ bids); [|reflexivity].
  apply al_last_on_buffers.
Qed.


Lemma al_last_alGenSources (sid : ALuint) (w : OpenAL) :
  (al_last w <= al_last (alGenSources sid w).2)%N.
Proof. unfold alGenSources. destruct (al_context w); cbn; lia. Qed.

Lemma al_last_alGenBuffers (bid : ALuint) (w : OpenAL) :
  (al_last w <= al_last (alGenBuffers bid w).2)%N.
Proof. unfold alGenBuffers. destruct (al_context w); cbn; lia. Qed.

Lemma al_buffers_on_sources (f : gmap N Source -> gmap N Source) (w : OpenAL) :
  al_buffers (on_sources f w) = al_buffers w.
Proof. reflexivity. Qed.

(** Without a valid source name, a call on a source changes nothing. *)
Lemma alter_absent (f : Source -> Source) (sid : ALuint) (w : OpenAL) :
  al_sources w !! sid = None -> on_sources (alter f sid) w = w.
Proof.
  unfold al_sources, on_sources. destruct w as [[m|] b l]; cbn; intros H.
  - rewrite alter_id; [reflexivity|].
    intros src Hsrc. rewrite H in Hsrc. discriminate.
  - reflexivity.
Qed.

Lemma on_sources_alter_alter (f g : Source -> Source) (sid : ALuint) (w : OpenAL) :
  on_sources (alter f sid) (on_sources (alter g sid) w) =
  on_sources (alter (f ∘ g) sid) w.
Proof.
  unfold on_sources. cbn [al_context al_buffers al_last].
  destruct (al_context w); cbn; [|reflexivity].
  rewrite alter_alter_eq. reflexivity.
Qed.

Lemma on_sources_alter_ext (f g : Source -> Source) (sid : ALuint) (w : OpenAL) :
  (forall src, f src = g src) ->
  on_sources (alter f sid) w = on_sources (alter g sid) w.
Proof.
  intros H. unfold on_sources. destruct (al_context w); cbn; [|reflexivity].
  f_equal. f_equal. apply alter_ext. intros src _. apply H.
Qed.

Lemma alIsSource_true (sid : ALuint) (w : OpenAL) :
  alIsSource sid w = true <-> is_Some (al_sources w !! sid).
Proof. unfold alIsSource. apply bool_decide_eq_true. Qed.

Lemma alIsSource_false (sid : ALuint) (w : OpenAL) :
  alIsSource sid w = false <-> al_sources w !! sid = None.
Proof.
  unfold alIsSource. rewrite bool_decide_eq_false.
  destruct (al_sources w !! sid); split; intros H; try reflexivity;
    try discriminate.
  - exfalso. apply H. eauto.
  - exact not_is_Some_None.
Qed.

(** The tests of [alBufferData] and [alDeleteBuffers]. *)
Lemma buffer_in_use_false (b : ALuint) (w : OpenAL) :
  buffer_in_use b w = false <->
  forall sid src, al_sources w !! sid = Some src -> uses_buffer b src = false.
Proof.
  unfold buffer_in_use. rewrite bool_decide_eq_false. split.
  - intros H sid src Hsrc. destruct (uses_buffer b src) eqn:E; [|reflexivity].
    exfalso. apply H. exists sid, src. split; assumption.
  - intros H (sid & src & Hsrc & Hu). rewrite (H sid src Hsrc) in Hu.
    discriminate.
Qed.

Lemma uses_buffer_false (b : ALuint) (src : Source) :
  uses_buffer b src = false <->
  b = 0%N \/ (src_buffer src <> b /\ b ∉ src_queue src).
Proof.
  unfold uses_buffer. rewrite andb_false_iff, negb_false_iff, N.eqb_eq.
  rewrite orb_false_iff, N.eqb_neq. split.
  - intros [H|[H1 H2]]; [left; exact H|right]. split; [exact H1|].
    intros Hin. apply list_elem_of_In in Hin.
    assert (E : existsb (N.eqb b) (src_queue src) = true).
    { apply existsb_exists. exists b. split; [exact Hin|apply N.eqb_refl]. }
    congruence.
  - intros [H|[H1 H2]]; [left; exact H|right]. split; [exact H1|].
    destruct (existsb (N.eqb b) (src_queue src)) eqn:E; [|reflexivity].
    exfalso. apply existsb_exists in E as (x & Hin & Hx).
    apply N.eqb_eq in Hx. subst x. apply H2, list_elem_of_In. exact Hin.
Qed.

Lemma buffer_in_use_no_context (b : ALuint) (w : OpenAL) :
  al_sources w = ∅ -> buffer_in_use b w = false.
Proof.
  intros H. apply buffer_in_use_false. intros sid src Hsrc.
  rewrite H, lookup_empty in Hsrc. discriminate.
Qed.

(** Deleting one buffer that no source uses. *)
Lemma alDeleteBuffers_free (b : ALuint) (w : OpenAL) :
  is_Some (al_context w) -> buffer_in_use b w = false ->
  al_buffers (alDeleteBuffers [b] w) = delete b (al_buffers w).
Proof.
  intros [m Hm] Hfree. unfold alDeleteBuffers, deletable, on_buffers.
  cbn [forallb]. rewrite Hfree, Hm. cbn [negb].
  rewrite andb_true_r, andb_true_r.
  destruct (N.eqb_spec b 0) as [->|Hb]; cbn [orb]; [reflexivity|].
  destruct (al_buffers w !! b) as [x|] eqn:E.
  - rewrite (bool_decide_eq_true_2 (is_Some (Some x))) by eauto. reflexivity.
  - rewrite (bool_decide_eq_false_2 (is_Some None))
      by (intros [y Hy]; discriminate Hy).
    symmetry. apply delete_id. exact E.
Qed.

Arguments makeCurrent : simpl never.
Arguments buffer_in_use : simpl never.
Arguments uses_buffer : simpl never.
Arguments deletable : simpl never.

(** ** Playback session *)

Lemma wp_self {A : Type} (m : M A) (Q : A -> Audio -> Prop) (s : Audio) :
  wp m Q s -> wp m (fun a s' => m s = Ok a s' /\ Q a s') s.
Proof.
  unfold wpg. destruct (m s); auto.
Qed.

Lemma cleanupOutput_wp (env : Env) (s : Audio) :
  wp (cleanupOutput env)
     (fun _ s' =>
        outputInitialized s' = false /\ outSources s' = outSources s /\
        (alOutDev s = None ->
           alOutDev s' = None /\ alMainBuffer s' = alMainBuffer s) /\
        (forall dev, alOutDev s = Some dev ->
           alMainBuffer s' = 0%N /\ alOutContext s' = None /\
           al_sources (openal s') = ∅ /\
           alOutDev s' = if alcCloseDevice env dev then None else Some dev)) s.
Proof.
  unfold cleanupOutput. wp_run.
  all: repeat match goal with
              | H : (_ =? _)%N = true |- _ => apply N.eqb_eq in H
              end.
  all: split; [reflexivity|]; split; [reflexivity|].
  all: split; [intros; try discriminate; auto|].
  all: intros dev0 [= <-].
  all: repeat match goal with
              | H : alcCloseDevice _ _ = _ |- _ => rewrite H
              end; auto.
Qed.

Lemma unsubscribeOutput_unfold (env : Env) (sid : ALuint) (s : Audio) :
  unsubscribeOutput env sid s =
    if bool_decide (removeAll sid (outSources s) = []) then
      match cleanupOutput env (afterVoiceRemoval sid s) with
      | Ok _ s' => Ok 0%N s'
      | Abort e => Abort e
      end
    else Ok 0%N (afterVoiceRemoval sid s).
Proof.
  unfold unsubscribeOutput, afterVoiceRemoval, when, al, emit, mbind, M_bind,
    modify, gets, mret, M_ret.
  simpl_state.
  destruct (N.eqb_spec sid 0) as [->|Hsid]; simpl_state.
  - destruct (bool_decide _); [|reflexivity].
    destruct (cleanupOutput env _) as [[] ?|]; reflexivity.
  - destruct (alIsSource sid (openal s)); simpl_state;
      (destruct (bool_decide _); [|reflexivity]);
      destruct (cleanupOutput env _) as [[] ?|]; reflexivity.
Qed.

Lemma afterVoiceRemoval_fields (sid : ALuint) (s : Audio) :
  alOutDev (afterVoiceRemoval sid s) = alOutDev s /\
  outSources (afterVoiceRemoval sid s) = removeAll sid (outSources s) /\
  outputInitialized (afterVoiceRemoval sid s) = outputInitialized s /\
  alOutContext (afterVoiceRemoval sid s) = alOutContext s /\
  alMainSource (afterVoiceRemoval sid s) = alMainSource s /\
  alMainBuffer (afterVoiceRemoval sid s) = alMainBuffer s.
Proof.
  unfold afterVoiceRemoval. simpl_state.
  destruct (sid =? 0)%N; [|destruct (alIsSource _ _)]; simpl_state;
    repeat split; reflexivity.
Qed.

(** What [unsubscribeOutput] does, whatever the set and the identifier. *)
Lemma unsubscribeOutput_cases (env : Env) (sid : ALuint) (s : Audio) :
  exists s',
    unsubscribeOutput env sid s = Ok 0%N s' /\
    outSources s' = removeAll sid (outSources s) /\
    (removeAll sid (outSources s) = [] ->
       cleanupOutput env (afterVoiceRemoval sid s) = Ok tt s' /\
       outputInitialized s' = false /\ isOutputReady s' = false /\
       forall dev, alOutDev s = Some dev ->
         alMainBuffer s' = 0%N /\ alOutContext s' = None /\
         al_sources (openal s') = ∅ /\
         alOutDev s' = if alcCloseDevice env dev then None else Some dev) /\
    (removeAll sid (outSources s) <> [] ->
       s' = afterVoiceRemoval sid s /\
       outputInitialized s' = outputInitialized s /\
       alOutDev s' = alOutDev s /\ alOutContext s' = alOutContext s /\
       alMainSource s' = alMainSource s /\ alMainBuffer s' = alMainBuffer s).
Proof.
  destruct (afterVoiceRemoval_fields sid s) as (F1 & F2 & F3 & F4 & F5 & F6).
  rewrite unsubscribeOutput_unfold.
  destruct (decide (removeAll sid (outSources s) = [])) as [E|E].
  - rewrite (bool_decide_eq_true_2 _ E).
    destruct (wp_elim _ _ _ (wp_self _ _ _
                (cleanupOutput_wp env (afterVoiceRemoval sid s))))
      as ([] & s' & Hrun & _ & Hinit & Hsrc & _ & Hdev).
    rewrite Hrun. exists s'. split; [reflexivity|].
    split; [congruence|]. split; [|intros C; contradiction].
    intros _. split; [reflexivity|]. split; [exact Hinit|].
    split; [unfold isOutputReady; rewrite Hinit; apply andb_false_r|].
    intros dev Hd. apply Hdev. congruence.
  - rewrite (bool_decide_eq_false_2 _ E).
    exists (afterVoiceRemoval sid s). split; [reflexivity|].
    split; [exact F2|]. split; [intros C; contradiction|].
    intros _. repeat split; assumption.
Qed.

(** C10: when the active output voice set is empty, [unsubscribeOutput]
    with any identifier (zero, or one that [subscribeOutput] never
    returned) runs [cleanupOutput] after the voice bookkeeping: the session
    is no longer initialized nor ready, and if the playback device was
    open the one-shot buffer is deleted, the context destroyed with its
    sources, and the device closed (when the driver agrees to close it). A
    session that was only open for a one-shot clip is closed this way. *)
Theorem unsubscribeOutput_on_empty_set_tears_down (env : Env) (sid : ALuint)
    (s : Audio) :
  outSources s = [] ->
  exists s',
    unsubscribeOutput env sid s = Ok 0%N s' /\
    cleanupOutput env (afterVoiceRemoval sid s) = Ok tt s' /\
    outSources s' = [] /\
    outputInitialized s' = false /\ isOutputReady s' = false /\
    forall dev, alOutDev s = Some dev ->
      alMainBuffer s' = 0%N /\ alOutContext s' = None /\
      al_sources (openal s') = ∅ /\
      alOutDev s' = if alcCloseDevice env dev then None else Some dev.
Proof.
  intros Hempty.
  assert (E : removeAll sid (outSources s) = []) by (rewrite Hempty; reflexivity).
  destruct (unsubscribeOutput_cases env sid s) as (s' & Hrun & Hsrc & Hdown & _).
  destruct (Hdown E) as (Hclean & Hinit & Hready & Hdev).
  exists s'. split; [exact Hrun|]. split; [exact Hclean|].
  split; [congruence|]. split; [exact Hinit|]. split; [exact Hready|].
  exact Hdev.
Qed.

Lemma unsubscribeOutput_on_empty_set_witness :
  outSources clip_playing = [] /\
  outputInitialized clip_playing = true /\
  alOutDev clip_playing = Some 8%N /\
  exists s',
    unsubscribeOutput env0 5%N clip_playing = Ok 0%N s' /\
    outputInitialized s' = false /\ alMainBuffer s' = 0%N /\ alOutDev s' = None.
Proof.
  assert (H : outSources clip_playing = []) by reflexivity.
  assert (Hd : alOutDev clip_playing = Some 8%N) by reflexivity.
  split; [exact H|]. split; [reflexivity|]. split; [exact Hd|].
  destruct (unsubscribeOutput_on_empty_set_tears_down env0 5%N clip_playing H)
    as (s' & Hrun & _ & _ & Hinit & _ & Hdev).
  destruct (Hdev 8%N Hd) as (Hbuf & _ & _ & Hclosed).
  exists s'. split; [exact Hrun|]. split; [exact Hinit|]. split; [exact Hbuf|].
  exact Hclosed.
Defined.

Ltac unfold_calls :=
  unfold reinitInput, reinitOutput, subscribeInput, unsubscribeInput,
    subscribeOutput, unsubscribeOutput, playMono16Timer_event,
    playMono16Sound, playAudioBuffer, doCapture, startLoop, stopLoop,
    autoInitInput, autoInitOutput, initInput, initOutput, cleanupInput,
    cleanupOutput, playMono16SoundCleanup, submitBuffer, setMinInputGain,
    setMaxInputGain, setInputGain, getSourceState.








(** What the first half of [unsubscribeOutput] does to OpenAL. *)
Lemma afterVoiceRemoval_openal (sid : ALuint) (s : Audio) :
  let s' := afterVoiceRemoval sid s in
  al_buffers (openal s') = al_buffers (openal s) /\
  al_last (openal s') = al_last (openal s) /\
  (forall sid', sid' <> sid ->
     al_sources (openal s') !! sid' = al_sources (openal s) !! sid') /\
  (sid <> 0%N -> al_sources (openal s') !! sid = None) /\
  (sid = 0%N -> openal s' = openal s).
Proof.
  unfold afterVoiceRemoval. simpl_state.
  destruct (N.eqb_spec sid 0) as [->|Hsid]; simpl_state.
  { repeat split; intros; try reflexivity; contradiction. }
  destruct (alIsSource sid (openal s)) eqn:E; simpl_state.
  - unfold alDeleteSources. rewrite al_sources_delete.
    repeat split; intros; try reflexivity; try contradiction.
    + apply lookup_delete_ne. congruence.
    + apply lookup_delete_eq.
  - repeat split; intros; try reflexivity; try contradiction.
    apply alIsSource_false. exact E.
Qed.






(** ** Playback queue *)

Lemma bounded_same (w w' : OpenAL) :
  al_sources w' = al_sources w -> queues_bounded w -> queues_bounded w'.
Proof. intros E Hw sid src. rewrite E. apply Hw. Qed.

Lemma bounded_empty (w : OpenAL) : al_sources w = ∅ -> queues_bounded w.
Proof. intros E sid src. rewrite E, lookup_empty. discriminate. Qed.

Lemma bounded_alter (f : Source -> Source) (sid : ALuint) (w : OpenAL) :
  (forall src, (length (src_queue (f src)) <= length (src_queue src))%nat) ->
  queues_bounded w -> queues_bounded (on_sources (alter f sid) w).
Proof.
  intros Hf Hw sid' src'. rewrite al_sources_alter.
  destruct (decide (sid = sid')) as [->|Hne].
  - rewrite lookup_alter_eq.
    destruct (al_sources w !! sid') as [src|] eqn:E; simpl; [|discriminate].
    intros [= <-]. specialize (Hf src). specialize (Hw _ _ E). lia.
  - rewrite lookup_alter_ne by exact Hne. apply Hw.
Qed.

Lemma bounded_delete (sid : ALuint) (w : OpenAL) :
  queues_bounded w -> queues_bounded (on_sources (delete sid) w).
Proof.
  intros Hw sid' src'. rewrite al_sources_delete.
  intros H. apply lookup_delete_Some in H as [_ H]. exact (Hw _ _ H).
Qed.

Lemma bounded_makeCurrent (ctx : option ALCcontext) (w : OpenAL) :
  queues_bounded w -> queues_bounded (makeCurrent ctx w).
Proof.
  intros Hw. destruct ctx.
  - eapply bounded_same; [apply (al_sources_makeCurrent (Some a))|exact Hw].
  - apply bounded_empty. apply (al_sources_makeCurrent None).
Qed.

Lemma bounded_genSources (sid : ALuint) (w : OpenAL) :
  queues_bounded w -> queues_bounded (alGenSources sid w).2.
Proof.
  intros Hw sid' src'. rewrite al_sources_alGenSources.
  destruct (al_context w); [|rewrite lookup_empty; discriminate].
  intros H. apply lookup_insert_Some in H as [[_ <-] | [_ H]].
  - cbn. lia.
  - exact (Hw _ _ H).
Qed.

Lemma bounded_queue (sid b : ALuint) (w : OpenAL) :
  (forall src, al_sources w !! sid = Some src ->
               (length (src_queue src) < 16)%nat) ->
  queues_bounded w -> queues_bounded (alSourceQueueBuffers sid b w).
Proof.
  intros Hlt Hw sid' src'. unfold alSourceQueueBuffers.
  rewrite al_sources_alter.
  destruct (decide (sid = sid')) as [->|Hne];
    [rewrite lookup_alter_eq | rewrite lookup_alter_ne by exact Hne; apply Hw].
  destruct (al_sources w !! sid') as [src|] eqn:E; simpl; [|discriminate].
  intros [= <-]. specialize (Hlt src E). cbn. rewrite length_app. cbn. lia.
Qed.

Lemma stop_source_queue (src : Source) :
  src_queue (stop_source src) = src_queue src.
Proof. unfold stop_source. destruct (src_state src); reflexivity. Qed.

Lemma advance_source_queue (k : nat) (src : Source) :
  src_queue (advance_source k src) = src_queue src.
Proof. unfold advance_source. destruct (src_state src); reflexivity. Qed.

Lemma finish_source_queue (src : Source) :
  src_queue (finish_source src) = src_queue src.
Proof.
  unfold finish_source. destruct (src_state src); try reflexivity.
  destruct (src_looping src); reflexivity.
Qed.

Lemma set_buffer_queue (b : ALuint) (src : Source) :
  src_queue (set_buffer b src) = src_queue src.
Proof. unfold set_buffer. destruct (src_state src); reflexivity. Qed.

(** Every OpenAL primitive but the enqueue keeps the bound. *)
Ltac bounded_step :=
  lazymatch goal with
  | |- queues_bounded (alGenSources _ _).2 => apply bounded_genSources
  | |- queues_bounded (alGenBuffers _ _).2 =>
      eapply bounded_same; [apply al_sources_alGenBuffers|]
  | |- queues_bounded (alBufferData _ _ _) =>
      eapply bounded_same; [apply al_sources_alBufferData|]
  | |- queues_bounded (alDeleteBuffers _ _) =>
      eapply bounded_same; [apply al_sources_alDeleteBuffers|]
  | |- queues_bounded (makeCurrent _ _) => apply bounded_makeCurrent
  | |- queues_bounded (alcDestroyContext _) =>
      apply bounded_empty; reflexivity
  | |- queues_bounded (on_sources (delete _) _) => apply bounded_delete
  | |- queues_bounded (on_sources (alter _ _) _) =>
      apply bounded_alter;
      [ intros ?; cbn [src_queue set_looping play_source unqueue_source];
        rewrite ?stop_source_queue, ?advance_source_queue,
          ?finish_source_queue, ?set_buffer_queue, ?length_drop; lia | ]
  | |- queues_bounded _ => assumption
  end.

Ltac bounded_tac := repeat bounded_step.

Lemma playAudioBuffer_bounded (env : Env) (alSource : ALuint) (data : list Z)
    (samples channels rate : Z) (s : Audio) :
  queues_bounded (openal s) ->
  wlp (playAudioBuffer env alSource data samples channels rate)
      (fun _ s' => queues_bounded (openal s')) s.
Proof.
  intros Hw. unfold playAudioBuffer, submitBuffer, getSourceState.
  wp_run; trivial.
  all: unfold alSourcePlay, alSourceUnqueueBuffers, alSourcei_LOOPING.
  all: bounded_tac.
  all: apply bounded_queue; [ | bounded_tac ].
  all: intros src;
       rewrite ?al_sources_alBufferData, ?al_sources_alDeleteBuffers,
         ?al_sources_alGenBuffers, ?al_sources_alter;
       rewrite ?lookup_alter_eq;
       destruct (al_sources (openal s) !! alSource) as [src0|] eqn:E;
       cbn [fmap option_fmap option_map from_option] in *;
       try discriminate; intros [= <-];
       cbn [src_queue unqueue_source set_looping];
       pose proof (Hw _ _ E);
       repeat match goal with
              | H : (_ =? _)%nat = false |- _ => apply Nat.eqb_neq in H
              | H : (_ <? _)%nat = true |- _ => apply Nat.ltb_lt in H
              end;
       rewrite ?length_drop; cbn in *; lia.
Qed.

Lemma step_bounded (env : Env) (c : Call) (s : Audio) :
  queues_bounded (openal s) ->
  wlp (step env c) (fun _ s' => queues_bounded (openal s')) s.
Proof.
  intros Hw.
  destruct c; cbn [step]; try (apply playAudioBuffer_bounded; exact Hw);
    unfold_calls; wp_run; trivial.
  all: unfold alSourcePlay, alSourceStop, alDeleteSources, alSourcei_BUFFER,
         alSourcei_LOOPING.
  all: bounded_tac.
Qed.

Lemma run_bounded (calls : list (Env * Call)) :
  forall s s', queues_bounded (openal s) -> run calls s = Ok tt s' ->
               queues_bounded (openal s').
Proof.
  induction calls as [|[env c] calls IH]; intros s s' Hw Hrun.
  - apply Ok_inj in Hrun as [_ <-]. exact Hw.
  - cbn [run] in Hrun. unfold mbind, M_bind in Hrun.
    pose proof (step_bounded env c s Hw) as W. unfold wpg in W.
    destruct (step env c s) as [[] s1|]; [|discriminate].
    exact (IH s1 s' W Hrun).
Qed.

Ltac known_lookups :=
  repeat match goal with
         | H : al_sources ?w !! ?i = _ |- context [al_sources ?w !! ?i] =>
             rewrite H
         end;
  cbn [from_option].

Ltac wp_run_voice := repeat (known_lookups; wp_step).

(** The source a voice looks up after a chain of OpenAL calls. *)
Ltac voice_lookup :=
  unfold alSourcePlay, alSourceQueueBuffers, alSourceUnqueueBuffers,
    alSourcei_LOOPING, alSourcei_BUFFER, alSourceStop in *;
  repeat first [ rewrite al_sources_alter in *
               | rewrite al_sources_alBufferData in *
               | rewrite al_sources_alDeleteBuffers in *
               | rewrite al_sources_alGenBuffers in *
               | rewrite lookup_alter_eq in * ];
  known_lookups;
  repeat match goal with
         | H : al_sources ?w !! ?i = _,
           H2 : context [al_sources ?w !! ?i] |- _ => rewrite H in H2
         end;
  cbn [fmap option_fmap option_map] in *.

(** *** The byte count of a frame *)

Lemma int_of_unsigned_small (u : Z) :
  0 <= u <= INT_MAX -> int_of_unsigned u = u.
Proof.
  unfold int_of_unsigned, INT_MAX. intros H. cbv zeta.
  rewrite Z.mod_small by lia.
  destruct (Z.ltb_spec u (2 ^ 31)); lia.
Qed.

Lemma frameBytes_fits (samples channels : Z) :
  0 <= channels -> 0 <= samples * 2 * channels <= INT_MAX ->
  INT_MIN <= samples * 2 <= INT_MAX ->
  frameBytes samples channels = Some (samples * 2 * channels).
Proof.
  intros Hc Hb Hd. unfold frameBytes. cbv zeta.
  replace ((INT_MIN <=? samples * 2) && (samples * 2 <=? INT_MAX)) with true
    by (symmetry; apply andb_true_iff; split; apply Z.leb_le; lia).
  rewrite int_of_unsigned_small by exact Hb. reflexivity.
Qed.

Lemma frameBytes_overflow (samples channels : Z) :
  INT_MAX < samples * 2 \/ samples * 2 < INT_MIN ->
  frameBytes samples channels = None.
Proof.
  intros H. unfold frameBytes. cbv zeta.
  replace ((INT_MIN <=? samples * 2) && (samples * 2 <=? INT_MAX)) with false;
    [reflexivity|].
  symmetry. apply andb_false_iff.
  destruct H; [right|left]; apply Z.leb_gt; lia.
Qed.

(** *** What a submission does to the voice *)

Lemma playAudioBuffer_overflow (env : Env) (sid : ALuint) (data : list Z)
    (samples channels rate : Z) (s : Audio) (dev : ALCdevice) (src : Source) :
  (channels =? 1) || (channels =? 2) = true ->
  alOutDev s = Some dev -> outputInitialized s = true ->
  al_sources (openal s) !! sid = Some src ->
  src_processed src <> 0%nat \/ (length (src_queue src) < 16)%nat ->
  frameBytes samples channels = None ->
  playAudioBuffer env sid data samples channels rate s = Abort UndefinedBehaviour.
Proof.
  intros Hch Hdev Hinit Hsrc Hcase Hbytes.
  unfold playAudioBuffer, submitBuffer, mbind, M_bind, assert, gets, al, modify,
    abort, mret, M_ret.
  rewrite Hch, Hbytes. simpl_state. rewrite Hdev, Hinit.
  rewrite (bool_decide_eq_true_2 (is_Some (Some dev))) by eauto.
  cbn [andb negb]. rewrite Hsrc. cbn [from_option].
  destruct (src_processed src =? 0)%nat eqn:Ep; cbn [negb]; [|reflexivity].
  apply Nat.eqb_eq in Ep.
  destruct Hcase as [C|Hq]; [contradiction|].
  apply Nat.ltb_lt in Hq. rewrite Hq. reflexivity.
Qed.

Lemma playAudioBuffer_reclaims (env : Env) (sid : ALuint) (data : list Z)
    (samples channels rate bytes : Z) (s : Audio) (dev : ALCdevice)
    (src : Source) :
  (channels =? 1) || (channels =? 2) = true ->
  alOutDev s = Some dev -> outputInitialized s = true ->
  al_sources (openal s) !! sid = Some src ->
  src_processed src <> 0%nat ->
  frameBytes samples channels = Some bytes ->
  let unqueued := take (src_processed src) (src_queue src) in
  let retained := List.nth 0 unqueued 0%N in
  wp (playAudioBuffer env sid data samples channels rate)
     (fun _ s' =>
        s' = set_openal (openal s') s /\
        (exists src',
           al_sources (openal s') !! sid = Some src' /\
           src_queue src' = drop (src_processed src) (src_queue src) ++ [retained] /\
           src_state src' = AL_PLAYING /\ src_looping src' = false) /\
        al_buffers (openal s') =
          al_buffers
            (alBufferData retained (frameBuffer data bytes channels rate)
               (alDeleteBuffers (drop 1 unqueued)
                  (alSourceUnqueueBuffers sid (src_processed src)
                     (alSourcei_LOOPING sid false (openal s))))) /\
        al_last (openal s') = al_last (openal s)) s.
Proof.
  intros Hch Hdev Hinit Hsrc Hp Hbytes unqueued retained.
  apply Nat.eqb_neq in Hp.
  unfold playAudioBuffer, submitBuffer, getSourceState.
  wp_run_voice; try discriminate.
  all: (split; [unfold set_openal; simpl_state; reflexivity|]).
  all: split; [voice_lookup; eexists; split; [reflexivity|];
               cbn [src_queue src_state src_looping queue_source
                    unqueue_source set_looping play_source] in *|].
  all: try (repeat split; try reflexivity;
            destruct (src_state src); try discriminate; reflexivity).
  all: split; [reflexivity|].
  all: unfold alSourcePlay, alSourceQueueBuffers, alSourceUnqueueBuffers,
         alSourcei_LOOPING;
       rewrite ?al_last_on_sources, ?al_last_alBufferData,
         ?al_last_alDeleteBuffers, ?al_last_on_sources; reflexivity.
Qed.

Lemma playAudioBuffer_allocates (env : Env) (sid : ALuint) (data : list Z)
    (samples channels rate bytes : Z) (s : Audio) (dev : ALCdevice)
    (src : Source) :
  (channels =? 1) || (channels =? 2) = true ->
  alOutDev s = Some dev -> outputInitialized s = true ->
  al_sources (openal s) !! sid = Some src ->
  src_processed src = 0%nat -> (length (src_queue src) < 16)%nat ->
  frameBytes samples channels = Some bytes ->
  let fresh := N.succ (al_last (openal s)) in
  wp (playAudioBuffer env sid data samples channels rate)
     (fun _ s' =>
        s' = set_openal (openal s') s /\
        (exists src',
           al_sources (openal s') !! sid = Some src' /\
           src_queue src' = src_queue src ++ [fresh] /\
           src_state src' = AL_PLAYING /\ src_looping src' = false) /\
        al_buffers (openal s') =
          al_buffers
            (alBufferData fresh (frameBuffer data bytes channels rate)
               (alGenBuffers 0%N (alSourcei_LOOPING sid false (openal s))).2) /\
        al_last (openal s') = fresh) s.
Proof.
  intros Hch Hdev Hinit Hsrc Hp Hq Hbytes fresh. subst fresh.
  apply Nat.eqb_eq in Hp. apply Nat.ltb_lt in Hq.
  pose proof (source_has_context _ _ _ Hsrc) as Hctx.
  assert (Hname : (alGenBuffers 0%N (alSourcei_LOOPING sid false (openal s))).1
                  = N.succ (al_last (openal s))).
  { rewrite alGenBuffers_name. unfold alSourcei_LOOPING, on_sources.
    cbn [al_context al_last]. rewrite Hctx. reflexivity. }
  assert (Hlast : al_last (alGenBuffers 0%N (alSourcei_LOOPING sid false (openal s))).2
                  = N.succ (al_last (openal s))).
  { unfold alGenBuffers, alSourcei_LOOPING, on_sources.
    cbn [al_context al_last]. rewrite Hctx. reflexivity. }
  unfold playAudioBuffer, submitBuffer, getSourceState.
  wp_run_voice; try discriminate.
  all: (split; [unfold set_openal; simpl_state; reflexivity|]).
  all: rewrite Hname.
  all: split; [voice_lookup; eexists; split; [reflexivity|];
               cbn [src_queue src_state src_looping queue_source
                    unqueue_source set_looping play_source] in *|].
  all: try (repeat split; try reflexivity;
            destruct (src_state src); try discriminate; reflexivity).
  all: split; [reflexivity|].
  all: unfold alSourcePlay, alSourceQueueBuffers;
       rewrite ?al_last_on_sources, ?al_last_alBufferData; exact Hlast.
Qed.

Lemma set_openal_same (s : Audio) : set_openal (openal s) s = s.
Proof. destruct s. reflexivity. Qed.

Lemma alSourcei_LOOPING_same (sid : ALuint) (w : OpenAL) :
  (forall src, al_sources w !! sid = Some src -> src_looping src = false) ->
  alSourcei_LOOPING sid false w = w.
Proof.
  unfold alSourcei_LOOPING, on_sources, al_sources.
  destruct w as [[m|] b l]; cbn; intros H; [|reflexivity].
  rewrite alter_id; [reflexivity|].
  intros src Hsrc. specialize (H src Hsrc).
  destruct src. cbn in *. subst. reflexivity.
Qed.

Lemma playAudioBuffer_drops (env : Env) (sid : ALuint) (data : list Z)
    (samples channels rate : Z) (s : Audio) (dev : ALCdevice) (src : Source) :
  (channels =? 1) || (channels =? 2) = true ->
  alOutDev s = Some dev -> outputInitialized s = true ->
  al_sources (openal s) !! sid = Some src ->
  src_processed src = 0%nat -> (16 <= length (src_queue src))%nat ->
  wp (playAudioBuffer env sid data samples channels rate)
     (fun _ s' =>
        s' = set_openal (alSourcei_LOOPING sid false (openal s)) s /\
        al_sources (openal s') !! sid = Some (set_looping false src) /\
        al_buffers (openal s') = al_buffers (openal s) /\
        al_last (openal s') = al_last (openal s) /\
        (src_looping src = false -> s' = s)) s.
Proof.
  intros Hch Hdev Hinit Hsrc Hp Hq.
  apply Nat.eqb_eq in Hp. apply Nat.ltb_ge in Hq.
  unfold playAudioBuffer, submitBuffer, getSourceState.
  wp_run_voice; try discriminate.
  all: (split; [reflexivity|]).
  all: (split; [voice_lookup; reflexivity|]).
  all: (split; [reflexivity|]); (split; [reflexivity|]).
  all: intros Hloop; rewrite alSourcei_LOOPING_same;
       [apply set_openal_same|].
  all: intros src0 E; rewrite Hsrc in E; injection E as <-; exact Hloop.
Qed.

(** *** Streaming voices never loop *)

Lemma loops_same (main : ALuint) (w w' : OpenAL) :
  al_sources w' = al_sources w -> loops_within main w -> loops_within main w'.
Proof. intros E Hw sid src. rewrite E. apply Hw. Qed.

Lemma loops_of_no_sources (main : ALuint) (w : OpenAL) :
  al_sources w = ∅ -> loops_within main w.
Proof.
  intros Hw sid src H. rewrite Hw, lookup_empty in H. discriminate.
Qed.

Lemma loops_alter (f : Source -> Source) (sid main : ALuint) (w : OpenAL) :
  (forall src, src_looping (f src) = true -> src_looping src = true) ->
  loops_within main w -> loops_within main (on_sources (alter f sid) w).
Proof.
  intros Hf Hw sid' src'. rewrite al_sources_alter.
  destruct (decide (sid = sid')) as [->|Hne].
  - rewrite lookup_alter_eq.
    destruct (al_sources w !! sid') as [src|] eqn:E; simpl; [|discriminate].
    intros [= <-] Hl. exact (Hw _ _ E (Hf _ Hl)).
  - rewrite lookup_alter_ne by exact Hne. apply Hw.
Qed.

Lemma loops_alter_main (f : Source -> Source) (main : ALuint) (w : OpenAL) :
  loops_within main w -> loops_within main (on_sources (alter f main) w).
Proof.
  intros Hw sid' src'. rewrite al_sources_alter.
  destruct (decide (main = sid')) as [->|Hne]; [auto|].
  rewrite lookup_alter_ne by exact Hne. apply Hw.
Qed.

Lemma loops_delete (sid main : ALuint) (w : OpenAL) :
  loops_within main w -> loops_within main (on_sources (delete sid) w).
Proof.
  intros Hw sid' src'. rewrite al_sources_delete.
  intros H. apply lookup_delete_Some in H as [_ H]. exact (Hw _ _ H).
Qed.

Lemma loops_makeCurrent (main : ALuint) (ctx : option ALCcontext) (w : OpenAL) :
  loops_within main w -> loops_within main (makeCurrent ctx w).
Proof.
  intros Hw. destruct ctx.
  - eapply loops_same; [apply (al_sources_makeCurrent (Some a))|exact Hw].
  - apply loops_of_no_sources. apply (al_sources_makeCurrent None).
Qed.

Lemma loops_genSources (sid main : ALuint) (w : OpenAL) :
  loops_within main w -> loops_within main (alGenSources sid w).2.
Proof.
  intros Hw sid' src'. rewrite al_sources_alGenSources.
  destruct (al_context w); [|rewrite lookup_empty; discriminate].
  intros H. apply lookup_insert_Some in H as [[_ <-] | [_ H]].
  - cbn. discriminate.
  - exact (Hw _ _ H).
Qed.

Lemma no_sources_makeCurrent (ctx : option ALCcontext) (w : OpenAL) :
  al_sources w = ∅ -> al_sources (makeCurrent ctx w) = ∅.
Proof. intros H. rewrite al_sources_makeCurrent. destruct ctx; auto. Qed.

Lemma stop_source_looping (src : Source) :
  src_looping (stop_source src) = src_looping src.
Proof. unfold stop_source. destruct (src_state src); reflexivity. Qed.

Lemma set_buffer_looping (b : ALuint) (src : Source) :
  src_looping (set_buffer b src) = src_looping src.
Proof. unfold set_buffer. destruct (src_state src); reflexivity. Qed.

Lemma advance_source_looping (k : nat) (src : Source) :
  src_looping (advance_source k src) = src_looping src.
Proof. unfold advance_source. destruct (src_state src); reflexivity. Qed.

Lemma finish_source_looping (src : Source) :
  src_looping (finish_source src) = true -> src_looping src = true.
Proof.
  unfold finish_source. destruct (src_state src); try (intros H; exact H).
  destruct (src_looping src); [reflexivity|]. cbn. intros H; exact H.
Qed.

Ltac loops_step :=
  lazymatch goal with
  | |- loops_within _ (alGenSources _ _).2 =>
      first [ apply loops_genSources
            | apply loops_of_no_sources; rewrite al_sources_alGenSources ]
  | |- loops_within _ (alGenBuffers _ _).2 =>
      eapply loops_same; [apply al_sources_alGenBuffers|]
  | |- loops_within _ (alBufferData _ _ _) =>
      eapply loops_same; [apply al_sources_alBufferData|]
  | |- loops_within _ (alDeleteBuffers _ _) =>
      eapply loops_same; [apply al_sources_alDeleteBuffers|]
  | |- loops_within _ (makeCurrent _ _) => apply loops_makeCurrent
  | |- loops_within _ (alcDestroyContext _) =>
      apply loops_of_no_sources; reflexivity
  | |- loops_within _ (on_sources (delete _) _) => apply loops_delete
  | |- loops_within ?m (on_sources (alter (set_looping true) ?m) _) =>
      apply loops_alter_main
  | |- loops_within _ (on_sources (alter _ _) _) =>
      apply loops_alter;
      [ intros ?; cbn [src_looping set_looping play_source
                       unqueue_source queue_source];
        rewrite ?stop_source_looping, ?advance_source_looping,
          ?set_buffer_looping;
        first [ apply finish_source_looping | discriminate
              | (intros H; exact H) ] | ]
  | |- loops_within _ _ =>
      first [ assumption | apply loops_of_no_sources; auto; fail ]
  end.

Ltac loops_tac := repeat loops_step.

(** A new dedicated voice on a device that was closed is the only source,
    and it does not loop. *)
Lemma loops_new_session (main sid : ALuint) (ctx : option ALCcontext)
    (w : OpenAL) :
  al_sources w = ∅ ->
  loops_within main (alGenSources sid (makeCurrent ctx w)).2.
Proof.
  intros Hw i src. rewrite al_sources_alGenSources.
  destruct (al_context _); [|rewrite lookup_empty; discriminate].
  rewrite (no_sources_makeCurrent ctx w Hw).
  intros H. apply lookup_insert_Some in H as [[_ <-] | [_ H]].
  - cbn. discriminate.
  - rewrite lookup_empty in H. discriminate.
Qed.

Lemma no_sources_alter (f : Source -> Source) (sid : ALuint) (w : OpenAL) :
  al_sources w = ∅ -> al_sources (on_sources (alter f sid) w) = ∅.
Proof. intros Hw. rewrite al_sources_alter, Hw. apply alter_empty. Qed.

Lemma no_sources_delete (sid : ALuint) (w : OpenAL) :
  al_sources w = ∅ -> al_sources (on_sources (delete sid) w) = ∅.
Proof. intros Hw. rewrite al_sources_delete, Hw. apply delete_empty. Qed.

Ltac no_sources_step :=
  lazymatch goal with
  | |- al_sources (alGenBuffers _ _).2 = ∅ => rewrite al_sources_alGenBuffers
  | |- al_sources (alBufferData _ _ _) = ∅ => rewrite al_sources_alBufferData
  | |- al_sources (alDeleteBuffers _ _) = ∅ =>
      rewrite al_sources_alDeleteBuffers
  | |- al_sources (makeCurrent _ _) = ∅ => apply no_sources_makeCurrent
  | |- al_sources (alcDestroyContext _) = ∅ => reflexivity
  | |- al_sources (on_sources (delete _) _) = ∅ => apply no_sources_delete
  | |- al_sources (on_sources (alter _ _) _) = ∅ => apply no_sources_alter
  | |- al_sources _ = ∅ => auto
  end.

Lemma step_only_main_loops (env : Env) (c : Call) (s : Audio) :
  only_main_loops s ->
  wlp (step env c) (fun _ s' => only_main_loops s') s.
Proof.
  intros [HL HK]. fold (loops_within (alMainSource s) (openal s)) in HL.
  destruct c; cbn [step]; unfold_calls; wp_run; trivial.
  all: unfold only_main_loops; simpl_state.
  all: match goal with
       | |- (forall sid src, al_sources ?w !! sid = Some src ->
                             src_looping src = true -> sid = ?m) /\ _ =>
           fold (loops_within m w)
       end.
  all: unfold alSourcePlay, alSourceStop, alSourceQueueBuffers,
         alSourceUnqueueBuffers, alDeleteSources, alSourcei_BUFFER,
         alSourcei_LOOPING.
  all: split; [try (apply loops_new_session; auto; fail); loops_tac|
               intros Hx; try discriminate Hx; try congruence;
               repeat no_sources_step].
Qed.

Lemma run_only_main_loops (calls : list (Env * Call)) :
  forall s s', only_main_loops s -> run calls s = Ok tt s' ->
               only_main_loops s'.
Proof.
  induction calls as [|[env c] calls IH]; intros s s' Hw Hrun.
  - apply Ok_inj in Hrun as [_ <-]. exact Hw.
  - cbn [run] in Hrun. unfold mbind, M_bind in Hrun.
    pose proof (step_only_main_loops env c s Hw) as W. unfold wpg in W.
    destruct (step env c s) as [[] s1|]; [|discriminate].
    exact (IH s1 s' W Hrun).
Qed.

(** *** What a submission does to the buffers *)

Lemma on_buffers_context (f : gmap N Buffer -> gmap N Buffer) (w : OpenAL) :
  is_Some (al_context w) ->
  on_buffers f w = mkOpenAL (al_context w) (f (al_buffers w)) (al_last w).
Proof. intros [m E]. unfold on_buffers. rewrite E. reflexivity. Qed.

Lemma al_buffers_on_buffers (f : gmap N Buffer -> gmap N Buffer) (w : OpenAL) :
  is_Some (al_context w) -> al_buffers (on_buffers f w) = f (al_buffers w).
Proof. intros H. rewrite on_buffers_context by exact H. reflexivity. Qed.

Lemma context_on_sources (f : gmap N Source -> gmap N Source) (w : OpenAL) :
  is_Some (al_context w) -> is_Some (al_context (on_sources f w)).
Proof. intros [m E]. unfold on_sources. rewrite E. cbn. eauto. Qed.

Lemma source_context (w : OpenAL) (sid : ALuint) (src : Source) :
  al_sources w !! sid = Some src -> is_Some (al_context w).
Proof. intros H. rewrite (source_has_context _ _ _ H). eauto. Qed.

(** A buffer that the altered source does not use afterwards, and that no
    other source uses, is free. *)
Lemma buffer_free_alter (b sid : ALuint) (f : Source -> Source) (w : OpenAL)
    (src : Source) :
  al_sources w !! sid = Some src -> uses_buffer b (f src) = false ->
  (forall sid' src', sid' <> sid -> al_sources w !! sid' = Some src' ->
                     uses_buffer b src' = false) ->
  buffer_in_use b (on_sources (alter f sid) w) = false.
Proof.
  intros Hsrc Hown Hother. apply buffer_in_use_false. intros sid' src'.
  unfold ALuint in *. rewrite al_sources_alter.
  destruct (decide (sid = sid')) as [E|Hne]; [subst sid'|].
  - rewrite lookup_alter_eq, Hsrc. intros [= <-]. exact Hown.
  - rewrite lookup_alter_ne by exact Hne. apply Hother. congruence.
Qed.

Lemma buffer_in_use_same (b : ALuint) (w w' : OpenAL) :
  al_sources w' = al_sources w -> buffer_in_use b w' = buffer_in_use b w.
Proof. intros E. unfold buffer_in_use. rewrite E. reflexivity. Qed.

Lemma alter_set (b : Buffer) (bid : N) (m : gmap N Buffer) :
  is_Some (m !! bid) -> alter (fun _ => b) bid m = <[bid := b]> m.
Proof.
  intros [x Hx]. apply map_eq. intros i.
  destruct (decide (bid = i)) as [<-|Hne].
  - rewrite lookup_alter_eq, lookup_insert_eq, Hx. reflexivity.
  - rewrite lookup_alter_ne, lookup_insert_ne by exact Hne. reflexivity.
Qed.

Lemma lookup_foldr_delete (bids : list N) (bid : N) (m : gmap N Buffer) :
  bid ∉ bids -> foldr delete m bids !! bid = m !! bid.
Proof.
  induction bids as [|x bids IH]; intros H; [reflexivity|].
  apply not_elem_of_cons in H as [Hne H]. cbn [foldr].
  rewrite lookup_delete_ne by congruence. apply IH. exact H.
Qed.

Lemma lookup_foldr_delete_in (bids : list N) (bid : N) (m : gmap N Buffer) :
  bid ∈ bids -> foldr delete m bids !! bid = None.
Proof.
  induction bids as [|x bids IH]; intros H; [inversion H|].
  cbn [foldr]. destruct (decide (x = bid)) as [->|Hne].
  - apply lookup_delete_eq.
  - rewrite lookup_delete_ne by exact Hne. apply IH.
    apply elem_of_cons in H as [->|H]; [contradiction|exact H].
Qed.

Lemma existsb_false {A : Type} (f : A -> bool) (l : list A) :
  (forall x, x ∈ l -> f x = false) -> existsb f l = false.
Proof.
  intros H. induction l as [|x l IH]; [reflexivity|]. cbn.
  rewrite (H x) by (apply elem_of_cons; left; reflexivity). apply IH.
  intros y Hy. apply H. apply elem_of_cons. right. exact Hy.
Qed.

(** The processed buffers of a private queue are free once they are
    unqueued. *)
Lemma processed_buffers_free (sid b : ALuint) (src : Source) (w : OpenAL) :
  buffers_private w -> al_sources w !! sid = Some src ->
  b ∈ take (src_processed src) (src_queue src) ->
  buffer_in_use b
    (alSourceUnqueueBuffers sid (src_processed src)
       (alSourcei_LOOPING sid false w)) = false.
Proof.
  intros Hpriv Hsrc Hin.
  destruct (Hpriv sid src Hsrc) as (_ & Hnd & _ & Hq).
  assert (Hb : b ∈ src_queue src).
  { rewrite <- (take_drop (src_processed src) (src_queue src)).
    apply elem_of_app. left. exact Hin. }
  rewrite Forall_forall in Hq. destruct (Hq b Hb) as (_ & _ & Hatt & Hothers).
  unfold alSourceUnqueueBuffers, alSourcei_LOOPING.
  rewrite on_sources_alter_alter.
  apply (buffer_free_alter b sid _ w src Hsrc).
  - apply uses_buffer_false. right. cbn. split; [exact Hatt|].
    rewrite <- (take_drop (src_processed src) (src_queue src)) in Hnd.
    apply NoDup_app in Hnd as (_ & Hdisj & _). exact (Hdisj b Hin).
  - intros sid' src' Hne Hsrc'. apply uses_buffer_false. right.
    destruct (Hothers sid' src' Hsrc' Hne) as [H1 H2]. split; assumption.
Qed.

Lemma reclaimed_buffers (sid : ALuint) (src : Source) (w : OpenAL) (frame : Buffer) :
  buffers_private w -> al_sources w !! sid = Some src ->
  src_processed src <> 0%nat ->
  let unqueued := take (src_processed src) (src_queue src) in
  let retained := List.nth 0 unqueued 0%N in
  retained ∈ unqueued /\ (retained ∉ drop 1 unqueued) /\
  al_buffers
    (alBufferData retained frame
       (alDeleteBuffers (drop 1 unqueued)
          (alSourceUnqueueBuffers sid (src_processed src)
             (alSourcei_LOOPING sid false w)))) =
  <[retained := frame]> (foldr delete (al_buffers w) (drop 1 unqueued)).
Proof.
  intros Hpriv Hsrc Hp unqueued retained.
  destruct (Hpriv sid src Hsrc) as (Hle & Hnd & _ & Hq).
  pose proof (source_context _ _ _ Hsrc) as Hctx.
  set (w2 := alSourceUnqueueBuffers sid (src_processed src)
               (alSourcei_LOOPING sid false w)).
  assert (Hctx2 : is_Some (al_context w2)).
  { unfold w2, alSourceUnqueueBuffers, alSourcei_LOOPING.
    apply context_on_sources, context_on_sources. exact Hctx. }
  assert (Hfree : forall b, b ∈ unqueued -> buffer_in_use b w2 = false).
  { intros b Hb. exact (processed_buffers_free sid b src w Hpriv Hsrc Hb). }
  assert (Hshape : exists rest, unqueued = retained :: rest).
  { unfold retained, unqueued.
    destruct (src_queue src) as [|x q]; [cbn in Hle; lia|].
    destruct (src_processed src) as [|p]; [contradiction|].
    cbn. eauto. }
  destruct Hshape as [rest Hshape].
  assert (Hin : retained ∈ unqueued)
    by (rewrite Hshape; apply elem_of_cons; left; reflexivity).
  assert (Hnd' : NoDup unqueued).
  { rewrite <- (take_drop (src_processed src) (src_queue src)) in Hnd.
    apply NoDup_app in Hnd as (Hnd & _). exact Hnd. }
  assert (Hout : retained ∉ drop 1 unqueued).
  { rewrite Hshape in Hnd' |- *. cbn. apply NoDup_cons in Hnd' as [H _].
    exact H. }
  split; [exact Hin|]. split; [exact Hout|].
  assert (Hdel : forallb (fun b => deletable b w2) (drop 1 unqueued) = true).
  { apply forallb_forall. intros b Hb. apply list_elem_of_In in Hb.
    assert (Hb' : b ∈ unqueued).
    { rewrite Hshape in Hb |- *. cbn in Hb. rewrite drop_0 in Hb.
      apply elem_of_cons. right. exact Hb. }
    assert (Hbq : b ∈ src_queue src).
    { rewrite <- (take_drop (src_processed src) (src_queue src)).
      apply elem_of_app. left. exact Hb'. }
    rewrite Forall_forall in Hq. destruct (Hq b Hbq) as (_ & Hvalid & _).
    unfold deletable. rewrite (Hfree b Hb').
    change (al_buffers w2) with (al_buffers w).
    rewrite (bool_decide_eq_true_2 _ Hvalid). apply orb_true_r. }
  unfold alDeleteBuffers. rewrite Hdel.
  unfold alBufferData.
  rewrite (buffer_in_use_same retained w2) by apply al_sources_on_buffers.
  rewrite (Hfree retained Hin).
  rewrite !al_buffers_on_buffers;
    [| exact Hctx2
     | rewrite on_buffers_context by exact Hctx2; exact Hctx2 ].
  change (al_buffers w2) with (al_buffers w).
  apply alter_set. rewrite lookup_foldr_delete by exact Hout.
  assert (Hb : retained ∈ src_queue src).
  { rewrite <- (take_drop (src_processed src) (src_queue src)).
    apply elem_of_app. left. exact Hin. }
  rewrite Forall_forall in Hq. destruct (Hq retained Hb) as (_ & Hvalid & _).
  exact Hvalid.
Qed.

Lemma allocated_buffers (sid : ALuint) (src : Source) (w : OpenAL) (frame : Buffer) :
  buffers_private w -> al_sources w !! sid = Some src ->
  let fresh := N.succ (al_last w) in
  al_buffers
    (alBufferData fresh frame (alGenBuffers 0%N (alSourcei_LOOPING sid false w)).2) =
  <[fresh := frame]> (al_buffers w).
Proof.
  intros Hpriv Hsrc fresh.
  pose proof (source_has_context _ _ _ Hsrc) as Hctx.
  set (w1 := alSourcei_LOOPING sid false w).
  assert (Hctx1 : al_context w1 = Some (al_sources w1)).
  { apply (source_has_context w1 sid (set_looping false src)).
    unfold w1, alSourcei_LOOPING. rewrite al_sources_alter, lookup_alter_eq, Hsrc.
    reflexivity. }
  assert (Hgen : (alGenBuffers 0%N w1).2 =
                 mkOpenAL (Some (al_sources w1))
                   (<[fresh := Buffer_new]> (al_buffers w)) fresh).
  { unfold alGenBuffers. rewrite Hctx1. reflexivity. }
  rewrite Hgen. unfold alBufferData.
  assert (Hfree : buffer_in_use fresh
                    (mkOpenAL (Some (al_sources w1))
                       (<[fresh := Buffer_new]> (al_buffers w)) fresh) = false).
  { apply buffer_in_use_false. intros sid' src'. cbn [al_sources al_context].
    unfold w1, alSourcei_LOOPING. rewrite al_sources_alter.
    intros H. apply lookup_alter_Some in H as [(_ & x & Hx & ->)|[_ Hx]].
    - destruct (Hpriv _ _ Hx) as (_ & _ & Hatt & Hq).
      apply uses_buffer_false. right. cbn. split; [unfold fresh; lia|].
      intros Hin. rewrite Forall_forall in Hq.
      destruct (Hq _ Hin) as [Hle _]. unfold fresh in Hle. lia.
    - destruct (Hpriv _ _ Hx) as (_ & _ & Hatt & Hq).
      apply uses_buffer_false. right. split; [unfold fresh; lia|].
      intros Hin. rewrite Forall_forall in Hq.
      destruct (Hq _ Hin) as [Hle _]. unfold fresh in Hle. lia. }
  rewrite Hfree. unfold on_buffers. cbn [al_context al_buffers].
  apply alter_insert_eq.
Qed.

(** C4: whatever is called, no voice ever holds more than 16 queued
    buffers.  A submission on an initialized session, to a valid voice:
    when none of its buffers is processed and 16 are queued, the call
    returns without queuing or allocating anything: it only clears the
    looping flag of the voice, as every submission does, and in every
    reachable state that flag is already clear on every voice but the
    dedicated one-shot voice, so for a streaming voice the state is
    unchanged.  Otherwise the byte count [samples * 2 * channels] is
    computed: when [samples * 2] does not fit in [int] the behaviour is
    undefined; when it does, the call returns.  With processed buffers,
    all of them are unqueued and the first one is queued again; with none
    processed and fewer than 16 queued, a fresh name is queued; the voice
    plays afterwards.  When the buffers of the queues are private, the
    processed buffers but the first are deleted and the first one holds the
    new frame (format by channel count, the samples, the byte count, the
    rate), respectively one buffer is allocated and holds the new frame;
    no other buffer changes. *)
Theorem playAudioBuffer_queue_capped :
  (forall calls s,
     run calls Audio_new = Ok tt s -> queues_bounded (openal s)) /\
  (forall calls env sid data samples channels rate s dev src,
     run calls Audio_new = Ok tt s ->
     (channels =? 1) || (channels =? 2) = true ->
     alOutDev s = Some dev -> outputInitialized s = true ->
     al_sources (openal s) !! sid = Some src -> sid <> alMainSource s ->
     src_processed src = 0%nat -> (16 <= length (src_queue src))%nat ->
     playAudioBuffer env sid data samples channels rate s = Ok tt s) /\
  (forall env sid data samples channels rate s dev src,
     (channels =? 1) || (channels =? 2) = true ->
     alOutDev s = Some dev -> outputInitialized s = true ->
     al_sources (openal s) !! sid = Some src ->
     (src_processed src = 0%nat -> (16 <= length (src_queue src))%nat ->
        playAudioBuffer env sid data samples channels rate s =
          Ok tt (set_openal (alSourcei_LOOPING sid false (openal s)) s) /\
        al_sources (alSourcei_LOOPING sid false (openal s)) !! sid =
          Some (set_looping false src) /\
        al_buffers (alSourcei_LOOPING sid false (openal s)) =
          al_buffers (openal s) /\
        (src_looping src = false ->
           playAudioBuffer env sid data samples channels rate s = Ok tt s)) /\
     (src_processed src <> 0%nat \/ (length (src_queue src) < 16)%nat ->
        match frameBytes samples channels with
        | None =>
            playAudioBuffer env sid data samples channels rate s =
              Abort UndefinedBehaviour
        | Some bytes =>
            let frame :=
              mkBuffer (if channels =? 1 then AL_FORMAT_MONO16
                        else AL_FORMAT_STEREO16) data bytes rate in
            exists s',
              playAudioBuffer env sid data samples channels rate s = Ok tt s' /\
              s' = set_openal (openal s') s /\
              (src_processed src <> 0%nat ->
                 let unqueued := take (src_processed src) (src_queue src) in
                 let retained := List.nth 0 unqueued 0%N in
                 (exists src',
                    al_sources (openal s') !! sid = Some src' /\
                    src_queue src' =
                      drop (src_processed src) (src_queue src) ++ [retained] /\
                    src_state src' = AL_PLAYING) /\
                 al_last (openal s') = al_last (openal s) /\
                 (buffers_private (openal s) ->
                    retained ∈ unqueued /\
                    al_buffers (openal s') =
                      <[retained := frame]>
                        (foldr delete (al_buffers (openal s)) (drop 1 unqueued)))) /\
              (src_processed src = 0%nat ->
                 let fresh := N.succ (al_last (openal s)) in
                 (exists src',
                    al_sources (openal s') !! sid = Some src' /\
                    src_queue src' = src_queue src ++ [fresh] /\
                    src_state src' = AL_PLAYING) /\
                 al_last (openal s') = fresh /\
                 (buffers_private (openal s) ->
                    al_buffers (openal s') =
                      <[fresh := frame]> (al_buffers (openal s))))
        end)) /\
  (forall samples channels,
     (0 <= samples -> 0 <= channels -> samples * 2 * channels <= INT_MAX ->
      samples * 2 <= INT_MAX ->
      frameBytes samples channels = Some (samples * 2 * channels)) /\
     (INT_MAX < samples * 2 -> frameBytes samples channels = None)).
Proof.
  split; [|split; [|split]].
  - intros calls s Hrun. apply (run_bounded calls Audio_new s); [|exact Hrun].
    intros sid src H. cbn in H. rewrite lookup_empty in H. discriminate.
  - intros calls env sid data samples channels rate s dev src Hrun Hch Hdev
      Hinit Hsrc Hstream Hp Hq.
    assert (H0 : only_main_loops Audio_new).
    { split; [|reflexivity]. intros i x H. cbn in H.
      rewrite lookup_empty in H. discriminate. }
    destruct (run_only_main_loops calls _ _ H0 Hrun) as [Hloops _].
    assert (Hflag : src_looping src = false).
    { destruct (src_looping src) eqn:E; [|reflexivity].
      exfalso. apply Hstream. exact (Hloops sid src Hsrc E). }
    destruct (wp_elim _ _ _
                (playAudioBuffer_drops env sid data samples channels
                   rate s dev src Hch Hdev Hinit Hsrc Hp Hq))
      as ([] & s' & Hrun' & _ & _ & _ & _ & Hsame).
    rewrite Hrun'. f_equal. exact (Hsame Hflag).
  - intros env sid data samples channels rate s dev src Hch Hdev Hinit Hsrc.
    split.
    + intros Hp Hq.
      destruct (wp_elim _ _ _
                  (playAudioBuffer_drops env sid data samples channels
                     rate s dev src Hch Hdev Hinit Hsrc Hp Hq))
        as ([] & s' & Hrun & Hs & H1 & Hb & Hl & Hsame).
      subst s'. simpl_state.
      split; [exact Hrun|]. split; [exact H1|]. split; [exact Hb|].
      intros Hloop. rewrite Hrun. f_equal. exact (Hsame Hloop).
    + intros Hcase. destruct (frameBytes samples channels) as [bytes|] eqn:Hbytes.
      2:{ exact (playAudioBuffer_overflow env sid data samples channels rate s
                   dev src Hch Hdev Hinit Hsrc Hcase Hbytes). }
      cbv zeta.
      change (mkBuffer (if channels =? 1 then AL_FORMAT_MONO16
                        else AL_FORMAT_STEREO16) data bytes rate)
        with (frameBuffer data bytes channels rate).
      destruct (Nat.eq_dec (src_processed src) 0%nat) as [Hp|Hp].
      * destruct Hcase as [C|Hq]; [contradiction|].
        destruct (wp_elim _ _ _
                    (playAudioBuffer_allocates env sid data samples channels
                       rate bytes s dev src Hch Hdev Hinit Hsrc Hp Hq Hbytes))
          as ([] & s' & Hrun & Hs & (src' & H1 & H2 & H3 & _) & Hb & Hl).
        exists s'. split; [exact Hrun|]. split; [exact Hs|].
        split; [intros C; contradiction|].
        intros _. split; [exists src'; auto|]. split; [exact Hl|].
        intros Hpriv. rewrite Hb.
        exact (allocated_buffers sid src (openal s) _ Hpriv Hsrc).
      * destruct (wp_elim _ _ _
                    (playAudioBuffer_reclaims env sid data samples channels
                       rate bytes s dev src Hch Hdev Hinit Hsrc Hp Hbytes))
          as ([] & s' & Hrun & Hs & (src' & H1 & H2 & H3 & _) & Hb & Hl).
        exists s'. split; [exact Hrun|]. split; [exact Hs|].
        split; [|intros C; contradiction].
        intros _. split; [exists src'; auto|]. split; [exact Hl|].
        intros Hpriv. rewrite Hb.
        destruct (reclaimed_buffers sid src (openal s)
                    (frameBuffer data bytes channels rate) Hpriv Hsrc Hp)
          as (Hin & _ & Heq).
        split; [exact Hin|exact Heq].
  - intros samples channels. split.
    + intros H1 H2 H3 H4. apply frameBytes_fits; unfold INT_MIN; nia.
    + intros H. apply frameBytes_overflow. left. exact H.
Qed.

(** A first frame on a fresh voice allocates buffer 3; the third frame on a
    voice whose two buffers have been played deletes buffer 4 and reuses
    buffer 3; the seventeenth frame on a voice whose sixteen buffers are
    still pending is dropped. *)
Lemma playAudioBuffer_queue_capped_witness :
  run one_voice Audio_new = Ok tt one_voice_state /\
  (1 =? 1) || (1 =? 2) = true /\
  alOutDev one_voice_state = Some 8%N /\
  outputInitialized one_voice_state = true /\
  al_sources (openal one_voice_state) !! 2%N = Some Source_new /\
  (src_processed Source_new <> 0%nat \/ (length (src_queue Source_new) < 16)%nat) /\
  src_processed Source_new = 0%nat /\
  buffers_private (openal one_voice_state) /\
  queues_bounded (openal one_voice_state) /\
  (exists s',
     playAudioBuffer env0 2%N [1; 2] 1 1 48000 one_voice_state = Ok tt s' /\
     al_last (openal s') = 3%N /\
     al_buffers (openal s') !! 3%N =
       Some (mkBuffer AL_FORMAT_MONO16 [1; 2] 2 48000) /\
     exists src', al_sources (openal s') !! 2%N = Some src' /\
                  src_queue src' = [3%N]) /\
  alOutDev two_played_state = Some 8%N /\
  outputInitialized two_played_state = true /\
  al_sources (openal two_played_state) !! 2%N = Some two_played_voice /\
  (src_processed two_played_voice <> 0%nat \/
   (length (src_queue two_played_voice) < 16)%nat) /\
  src_processed two_played_voice <> 0%nat /\
  buffers_private (openal two_played_state) /\
  (exists s',
     playAudioBuffer env0 2%N [7; 8; 9; 10] 1 2 48000 two_played_state = Ok tt s' /\
     al_buffers (openal s') !! 3%N =
       Some (mkBuffer AL_FORMAT_STEREO16 [7; 8; 9; 10] 4 48000) /\
     al_buffers (openal s') !! 4%N = None /\
     exists src', al_sources (openal s') !! 2%N = Some src' /\
                  src_queue src' = [3%N] /\ src_state src' = AL_PLAYING) /\
  run sixteen_frames Audio_new = Ok tt full_state /\
  alOutDev full_state = Some 8%N /\
  outputInitialized full_state = true /\
  al_sources (openal full_state) !! 2%N = Some full_voice /\
  2%N <> alMainSource full_state /\
  src_processed full_voice = 0%nat /\
  (16 <= length (src_queue full_voice))%nat /\
  playAudioBuffer env0 2%N [1; 2] 1 1 48000 full_state = Ok tt full_state.
Proof.
  assert (Hrun : run one_voice Audio_new = Ok tt one_voice_state)
    by (vm_compute; reflexivity).
  assert (Hch : (1 =? 1) || (1 =? 2) = true) by reflexivity.
  assert (Hch2 : (2 =? 1) || (2 =? 2) = true) by reflexivity.
  assert (Hdev : alOutDev one_voice_state = Some 8%N) by (vm_compute; reflexivity).
  assert (Hinit : outputInitialized one_voice_state = true)
    by (vm_compute; reflexivity).
  assert (Hsrc : al_sources (openal one_voice_state) !! 2%N = Some Source_new)
    by (vm_compute; reflexivity).
  assert (Hcase : src_processed Source_new <> 0%nat \/
                  (length (src_queue Source_new) < 16)%nat) by (right; cbn; lia).
  assert (Hp : src_processed Source_new = 0%nat) by reflexivity.
  assert (Hpriv : buffers_private (openal one_voice_state))
    by (apply (bool_decide_unpack _); vm_compute; exact I).
  assert (Hdev2 : alOutDev two_played_state = Some 8%N)
    by (vm_compute; reflexivity).
  assert (Hinit2 : outputInitialized two_played_state = true)
    by (vm_compute; reflexivity).
  assert (Hsrc2 : al_sources (openal two_played_state) !! 2%N
                  = Some two_played_voice) by (vm_compute; reflexivity).
  assert (Hp2 : src_processed two_played_voice <> 0%nat) by discriminate.
  assert (Hcase2 : src_processed two_played_voice <> 0%nat \/
                   (length (src_queue two_played_voice) < 16)%nat)
    by (left; exact Hp2).
  assert (Hpriv2 : buffers_private (openal two_played_state))
    by (apply (bool_decide_unpack _); vm_compute; exact I).
  assert (Hrun' : run sixteen_frames Audio_new = Ok tt full_state)
    by (vm_compute; reflexivity).
  assert (Hdev' : alOutDev full_state = Some 8%N) by (vm_compute; reflexivity).
  assert (Hinit' : outputInitialized full_state = true)
    by (vm_compute; reflexivity).
  assert (Hsrc' : al_sources (openal full_state) !! 2%N = Some full_voice)
    by (vm_compute; reflexivity).
  assert (Hstream : 2%N <> alMainSource full_state)
    by (vm_compute; discriminate).
  assert (Hp' : src_processed full_voice = 0%nat) by reflexivity.
  assert (Hq' : (16 <= length (src_queue full_voice))%nat)
    by (vm_compute; repeat constructor).
  destruct playAudioBuffer_queue_capped as (Hbound & Hdrop & Hsubmit & _).
  split; [exact Hrun|]. split; [exact Hch|]. split; [exact Hdev|].
  split; [exact Hinit|]. split; [exact Hsrc|]. split; [exact Hcase|].
  split; [exact Hp|]. split; [exact Hpriv|].
  split; [exact (Hbound one_voice one_voice_state Hrun)|].
  split.
  { pose proof (proj2 (Hsubmit env0 2%N [1; 2] 1 1 48000 one_voice_state 8%N
                         Source_new Hch Hdev Hinit Hsrc) Hcase) as P.
    change (frameBytes 1 1) with (Some 2) in P. cbv zeta in P.
    destruct P as (s' & E & _ & _ & Halloc).
    destruct (Halloc Hp) as ((src' & H1 & H2 & _) & Hlast & Hbuf).
    exists s'. split; [exact E|]. split; [rewrite Hlast; vm_compute; reflexivity|].
    split.
    - rewrite (Hbuf Hpriv). apply lookup_insert_eq.
    - exists src'. split; [exact H1|]. rewrite H2. vm_compute. reflexivity. }
  split; [exact Hdev2|]. split; [exact Hinit2|]. split; [exact Hsrc2|].
  split; [exact Hcase2|]. split; [exact Hp2|]. split; [exact Hpriv2|].
  split.
  { pose proof (proj2 (Hsubmit env0 2%N [7; 8; 9; 10] 1 2 48000 two_played_state
                         8%N two_played_voice Hch2 Hdev2 Hinit2 Hsrc2) Hcase2) as P.
    change (frameBytes 1 2) with (Some 4) in P. cbv zeta in P.
    destruct P as (s' & E & _ & Hre & _).
    destruct (Hre Hp2) as ((src' & H1 & H2 & H3) & _ & Hbuf).
    destruct (Hbuf Hpriv2) as (_ & Hbuf').
    exists s'. split; [exact E|]. split.
    { rewrite Hbuf'. apply lookup_insert_eq. }
    split.
    { rewrite Hbuf'. vm_compute. reflexivity. }
    exists src'. split; [exact H1|]. split; [|exact H3].
    rewrite H2. vm_compute. reflexivity. }
  split; [exact Hrun'|]. split; [exact Hdev'|]. split; [exact Hinit'|].
  split; [exact Hsrc'|]. split; [exact Hstream|]. split; [exact Hp'|].
  split; [exact Hq'|].
  exact (Hdrop sixteen_frames env0 2%N [1; 2] 1 1 48000 full_state 8%N
           full_voice Hrun' Hch Hdev' Hinit' Hsrc' Hstream Hp' Hq').
Defined.

(** ** One-shot player *)

Lemma set_alMainBuffer_same (s : Audio) : set_alMainBuffer (alMainBuffer s) s = s.
Proof. destruct s. reflexivity. Qed.

Lemma set_openal_twice (w w' : OpenAL) (s : Audio) :
  set_openal w (set_openal w' s) = set_openal w s.
Proof. reflexivity. Qed.

Lemma set_openal_alMainBuffer (w w' : OpenAL) (b : ALuint) (s : Audio) :
  set_openal w (set_alMainBuffer b (set_openal w' s)) =
  set_openal w (set_alMainBuffer b s).
Proof. reflexivity. Qed.

(** What [playMono16Sound] does on an open playback device with the
    dedicated voice in place, call by call. *)
Lemma playMono16Sound_run (env : Env) (data : list Byte.byte) (s : Audio)
    (dev : ALCdevice) (src : Source) :
  alOutDev s = Some dev ->
  al_sources (openal s) !! alMainSource s = Some src ->
  Z.of_nat (length data) * 1000 <= INT_MAX ->
  let main := alMainSource s in
  let mb := clipBufferName s in
  let w0 := if (alMainBuffer s =? 0)%N then (alGenBuffers 0%N (openal s)).2
            else openal s in
  let w1 := if SourceState_eqb (src_state src) AL_PLAYING then
              alSourcei_BUFFER main 0%N (alSourceStop main w0)
            else w0 in
  playMono16Sound env data s =
    Ok tt
      (set_playMono16Timer (Some (now env + (durationMs data + 50)))
         (set_openal
            (alSourcePlay main
               (alSourcei_BUFFER main mb (alBufferData mb (clipBuffer data) w1)))
            (set_alMainBuffer mb s))).
Proof.
  intros Hdev Hsrc Hsize main mb w0 w1. subst main mb w0 w1.
  apply Z.ltb_ge in Hsize.
  pose proof (source_has_context _ _ _ Hsrc) as Hctx.
  assert (Hname : forall b, (alGenBuffers b (openal s)).1
                            = N.succ (al_last (openal s))).
  { intros b. rewrite alGenBuffers_name, Hctx. reflexivity. }
  assert (Hgen : forall b, (alGenBuffers b (openal s)).2
                           = (alGenBuffers 0%N (openal s)).2).
  { intros b. unfold alGenBuffers. rewrite Hctx. reflexivity. }
  assert (Hsrc0 : al_sources (alGenBuffers 0%N (openal s)).2 !! alMainSource s
                  = Some src) by (rewrite al_sources_alGenBuffers; exact Hsrc).
  unfold clipBufferName.
  apply wp_returns.
  unfold playMono16Sound, autoInitOutput, getSourceState.
  destruct (alMainBuffer s =? 0)%N eqn:Emb.
  - repeat (known_lookups; rewrite ?Hname, ?Hgen; wp_step).
    all: split; [reflexivity|].
    all: rewrite !set_openal_twice, set_openal_alMainBuffer; reflexivity.
  - wp_run_voice.
    all: split; [reflexivity|].
    all: rewrite set_alMainBuffer_same, !set_openal_twice; reflexivity.
Qed.

Lemma set_buffer_idle (b : ALuint) (src : Source) :
  src_state src <> AL_PLAYING ->
  set_buffer b src =
    mkSource (src_queue src) (src_processed src) b (src_looping src) (src_state src).
Proof. unfold set_buffer. destruct (src_state src); congruence. Qed.

(** The dedicated voice after the calls of [playMono16Sound]. *)
Lemma clip_voice (main mb : ALuint) (buf : Buffer) (w0 : OpenAL) (src : Source) :
  al_sources w0 !! main = Some src ->
  let w1 := if SourceState_eqb (src_state src) AL_PLAYING then
              alSourcei_BUFFER main 0%N (alSourceStop main w0)
            else w0 in
  al_sources (alSourcePlay main (alSourcei_BUFFER main mb (alBufferData mb buf w1)))
    !! main =
  Some (mkSource (src_queue src) 0 mb (src_looping src) AL_PLAYING).
Proof.
  intros Hsrc w1. subst w1. unfold ALuint in *.
  destruct (src_state src) eqn:Est; cbn [SourceState_eqb];
    unfold alSourcePlay, alSourcei_BUFFER, alSourceStop;
    repeat first [ rewrite al_sources_alter | rewrite al_sources_alBufferData
                 | rewrite lookup_alter_eq ];
    rewrite Hsrc; cbn [fmap option_fmap option_map];
    unfold play_source, set_buffer, stop_source; rewrite ?Est; cbn;
    rewrite ?Est; reflexivity.
Qed.

(** A clip started on an open playback device: the shared buffer is
    allocated, the dedicated voice plays it, the timer is armed. *)
Lemma playMono16Sound_starts (env : Env) (data : list Byte.byte) (s : Audio)
    (dev : ALCdevice) (src : Source) :
  alOutDev s = Some dev ->
  al_sources (openal s) !! alMainSource s = Some src ->
  Z.of_nat (length data) * 1000 <= INT_MAX ->
  wp (playMono16Sound env data)
     (fun _ s' =>
        alOutDev s' = Some dev /\ alMainSource s' = alMainSource s /\
        alMainBuffer s' <> 0%N /\
        playMono16Timer s' = Some (now env + (durationMs data + 50)) /\
        exists src',
          al_sources (openal s') !! alMainSource s = Some src' /\
          src_state src' = AL_PLAYING /\ src_buffer src' = alMainBuffer s') s.
Proof.
  intros Hdev Hsrc Hsize. unfold wpg.
  rewrite (playMono16Sound_run env data s dev src Hdev Hsrc Hsize).
  simpl_state. split; [exact Hdev|]. split; [reflexivity|].
  split.
  { unfold clipBufferName. destruct (alMainBuffer s =? 0)%N eqn:E; [lia|].
    apply N.eqb_neq. exact E. }
  split; [reflexivity|].
  eexists. split.
  - apply clip_voice.
    destruct (alMainBuffer s =? 0)%N;
      [rewrite al_sources_alGenBuffers|]; exact Hsrc.
  - split; reflexivity.
Qed.

(** A clip started while the dedicated voice is still playing. *)
Lemma playMono16Sound_interrupts (env : Env) (data : list Byte.byte) (s : Audio)
    (dev : ALCdevice) (src : Source) :
  alOutDev s = Some dev ->
  al_sources (openal s) !! alMainSource s = Some src ->
  src_state src = AL_PLAYING -> alMainBuffer s <> 0%N ->
  Z.of_nat (length data) * 1000 <= INT_MAX ->
  playMono16Sound env data s =
    Ok tt
      (set_playMono16Timer (Some (now env + (durationMs data + 50)))
         (set_openal
            (alSourcePlay (alMainSource s)
               (alSourcei_BUFFER (alMainSource s) (alMainBuffer s)
                  (alBufferData (alMainBuffer s) (clipBuffer data)
                     (alSourcei_BUFFER (alMainSource s) 0%N
                        (alSourceStop (alMainSource s) (openal s)))))) s)).
Proof.
  intros Hdev Hsrc Hstate Hbuf Hsize.
  rewrite (playMono16Sound_run env data s dev src Hdev Hsrc Hsize).
  unfold clipBufferName. apply N.eqb_neq in Hbuf. rewrite Hbuf, Hstate.
  cbn [SourceState_eqb]. rewrite set_alMainBuffer_same. reflexivity.
Qed.

(** The interruption: after the stop and the detach the voice is stopped
    with no buffer attached, and a buffer that is private to it is free. *)
Lemma interrupted_voice (main mb : ALuint) (w : OpenAL) (src : Source) :
  al_sources w !! main = Some src -> src_state src = AL_PLAYING ->
  let w1 := alSourcei_BUFFER main 0%N (alSourceStop main w) in
  al_sources w1 !! main =
    Some (mkSource (src_queue src) (length (src_queue src)) 0%N
            (src_looping src) AL_STOPPED) /\
  (buffer_private_to mb main w -> buffer_in_use mb w1 = false).
Proof.
  intros Hsrc Hstate w1. subst w1. unfold ALuint in *.
  unfold alSourcei_BUFFER, alSourceStop. rewrite on_sources_alter_alter.
  assert (E : (set_buffer 0%N ∘ stop_source) src =
              mkSource (src_queue src) (length (src_queue src)) 0%N
                (src_looping src) AL_STOPPED).
  { unfold compose, stop_source, set_buffer. rewrite Hstate. reflexivity. }
  split.
  - rewrite al_sources_alter, lookup_alter_eq, Hsrc.
    cbn [fmap option_fmap option_map]. rewrite E. reflexivity.
  - intros Hpriv. apply (buffer_free_alter mb main _ w src Hsrc).
    + rewrite E. apply uses_buffer_false.
      destruct (N.eq_dec mb 0%N) as [->|Hmb]; [left; reflexivity|right].
      cbn. split; [congruence|]. exact (proj1 (Hpriv main src Hsrc)).
    + intros sid' src' Hne Hsrc'. apply uses_buffer_false. right.
      destruct (Hpriv sid' src' Hsrc') as [H1 H2]. split; [|exact H1].
      intros Hatt. apply Hne. exact (H2 Hatt).
Qed.

Lemma refilled_buffers (mb : ALuint) (buf : Buffer) (w : OpenAL) :
  is_Some (al_context w) -> buffer_in_use mb w = false ->
  is_Some (al_buffers w !! mb) ->
  al_buffers (alBufferData mb buf w) = <[mb := buf]> (al_buffers w).
Proof.
  intros Hctx Hfree Hvalid. unfold alBufferData. rewrite Hfree.
  rewrite al_buffers_on_buffers by exact Hctx. apply alter_set. exact Hvalid.
Qed.

(** Starting a clip keeps the shared buffer valid and private. *)
Lemma playMono16Sound_keeps_private (env : Env) (data : list Byte.byte)
    (s : Audio) (dev : ALCdevice) (src : Source) :
  alOutDev s = Some dev ->
  al_sources (openal s) !! alMainSource s = Some src ->
  Z.of_nat (length data) * 1000 <= INT_MAX ->
  clip_buffer_private s ->
  wp (playMono16Sound env data)
     (fun _ s' =>
        alMainBuffer s' = clipBufferName s /\
        is_Some (al_buffers (openal s') !! alMainBuffer s') /\
        buffer_private_to (alMainBuffer s') (alMainSource s) (openal s')) s.
Proof.
  intros Hdev Hsrc Hsize [Hvalid Hpriv]. unfold wpg.
  rewrite (playMono16Sound_run env data s dev src Hdev Hsrc Hsize).
  simpl_state. split; [reflexivity|].
  pose proof (source_has_context _ _ _ Hsrc) as Hctx.
  remember (alMainSource s) as main eqn:Emain.
  remember (clipBufferName s) as mb eqn:Emb.
  set (w0 := if (alMainBuffer s =? 0)%N then (alGenBuffers 0%N (openal s)).2
             else openal s).
  assert (Hs0 : al_sources w0 = al_sources (openal s)).
  { unfold w0. destruct (alMainBuffer s =? 0)%N;
      [apply al_sources_alGenBuffers|reflexivity]. }
  assert (Hv0 : is_Some (al_buffers w0 !! mb)).
  { unfold w0. rewrite Emb. unfold clipBufferName.
    destruct (alMainBuffer s =? 0)%N eqn:E.
    - unfold alGenBuffers. rewrite Hctx. cbn. rewrite lookup_insert_eq. eauto.
    - apply Hvalid. apply N.eqb_neq. exact E. }
  set (w1 := if SourceState_eqb (src_state src) AL_PLAYING then
               alSourcei_BUFFER main 0%N (alSourceStop main w0)
             else w0).
  assert (Hb1 : al_buffers w1 = al_buffers w0).
  { unfold w1. destruct (SourceState_eqb _ _); reflexivity. }
  split.
  - unfold alSourcePlay, alSourcei_BUFFER.
    rewrite !al_buffers_on_sources.
    unfold alBufferData. destruct (buffer_in_use mb w1).
    + rewrite Hb1. exact Hv0.
    + unfold on_buffers. destruct (al_context w1); cbn [al_buffers];
        rewrite ?lookup_alter_is_Some, Hb1; exact Hv0.
  - intros sid x.
    unfold alSourcePlay, alSourcei_BUFFER.
    rewrite !al_sources_alter, al_sources_alBufferData.
    assert (Hs1 : forall i y, al_sources w1 !! i = Some y ->
                    exists y0, al_sources (openal s) !! i = Some y0 /\
                               src_queue y = src_queue y0 /\
                               (i <> main -> src_buffer y = src_buffer y0)).
    { intros i y. unfold w1.
      destruct (SourceState_eqb (src_state src) AL_PLAYING).
      - unfold alSourcei_BUFFER, alSourceStop.
        rewrite on_sources_alter_alter, al_sources_alter, Hs0.
        intros H. apply lookup_alter_Some in H as [(Hi & y0 & Hy0 & Hy)|[Hne Hy]].
        + exists y0. split; [exact Hy0|].
          split; [|intros C; congruence].
          rewrite Hy. unfold compose.
          rewrite set_buffer_queue, stop_source_queue. reflexivity.
        + exists y. auto.
      - rewrite Hs0. intros H. exists y. auto. }
    intros H.
    apply lookup_alter_Some in H as [(Hi & y1 & Hy1 & Hx)|[Hne Hy]].
    + apply lookup_alter_Some in Hy1 as [(_ & y2 & Hy2 & Hy1)|[C _]];
        [|contradiction].
      destruct (Hs1 _ _ Hy2) as (y0 & Hy0 & Hq & _).
      split; [|intros _; symmetry; exact Hi].
      rewrite Hx, Hy1. cbn [play_source src_queue].
      rewrite set_buffer_queue, Hq.
      exact (proj1 (Hpriv sid y0 Hy0)).
    + rewrite lookup_alter_ne in Hy by exact Hne.
      destruct (Hs1 _ _ Hy) as (y0 & Hy0 & Hq & Hb).
      destruct (Hpriv sid y0 Hy0) as [P1 P2].
      split; [rewrite Hq; exact P1|].
      rewrite (Hb ltac:(congruence)). exact P2.
Qed.

Lemma timer_event_idle (env : Env) (s : Audio) :
  playMono16Timer s = None -> playMono16Timer_event env s = Ok tt s.
Proof.
  intros H. apply wp_returns. unfold playMono16Timer_event. wp_run.
  split; reflexivity.
Qed.

Lemma timer_event_early (env : Env) (s : Audio) (deadline : Z) :
  playMono16Timer s = Some deadline -> now env < deadline ->
  playMono16Timer_event env s = Ok tt s.
Proof.
  intros H Hlt. assert (E : (deadline <=? now env) = false) by lia.
  apply wp_returns. unfold playMono16Timer_event. wp_run.
  split; reflexivity.
Qed.

Lemma timer_event_due (env : Env) (s : Audio) (deadline : Z) (src : Source) :
  playMono16Timer s = Some deadline -> deadline <= now env ->
  al_sources (openal s) !! alMainSource s = Some src ->
  playMono16Timer_event env s =
    Ok tt
      (if SourceState_eqb (src_state src) AL_STOPPED then
         set_alMainBuffer 0%N
           (set_openal
              (alDeleteBuffers [alMainBuffer s]
                 (alSourcei_BUFFER (alMainSource s) 0%N (openal s)))
              (set_playMono16Timer None s))
       else set_playMono16Timer None s).
Proof.
  intros H Hle Hsrc. assert (E : (deadline <=? now env) = true) by lia.
  apply wp_returns.
  unfold playMono16Timer_event, playMono16SoundCleanup, getSourceState.
  wp_run_voice; (split; [reflexivity|]); reflexivity.
Qed.

(** The cleanup of a stopped voice detaches the shared buffer and, when
    the buffer is private to the voice, deletes it. *)
Lemma cleanup_frees (main mb : ALuint) (w : OpenAL) (src : Source) :
  al_sources w !! main = Some src -> src_state src = AL_STOPPED ->
  let w' := alDeleteBuffers [mb] (alSourcei_BUFFER main 0%N w) in
  al_sources w' !! main =
    Some (mkSource (src_queue src) (src_processed src) 0%N (src_looping src)
            AL_STOPPED) /\
  (buffer_private_to mb main w ->
   al_buffers w' = delete mb (al_buffers w)).
Proof.
  intros Hsrc Hstate w'. subst w'. unfold ALuint in *.
  assert (E : set_buffer 0%N src =
              mkSource (src_queue src) (src_processed src) 0%N
                (src_looping src) AL_STOPPED).
  { unfold set_buffer. rewrite Hstate. reflexivity. }
  split.
  - rewrite al_sources_alDeleteBuffers. unfold alSourcei_BUFFER.
    rewrite al_sources_alter, lookup_alter_eq, Hsrc.
    cbn [fmap option_fmap option_map]. rewrite E. reflexivity.
  - intros Hpriv. unfold alSourcei_BUFFER.
    rewrite alDeleteBuffers_free; [reflexivity| |].
    { apply context_on_sources. exact (source_context _ _ _ Hsrc). }
    apply (buffer_free_alter mb main _ w src Hsrc).
    + rewrite E. apply uses_buffer_false.
      destruct (N.eq_dec mb 0%N) as [->|Hmb]; [left; reflexivity|right].
      cbn. split; [congruence|]. exact (proj1 (Hpriv main src Hsrc)).
    + intros sid' src' Hne Hsrc'. apply uses_buffer_false. right.
      destruct (Hpriv sid' src' Hsrc') as [H1 H2]. split; [|exact H1].
      intros Hatt. apply Hne. exact (H2 Hatt).
Qed.

(** C9: a clip B started while the dedicated voice still plays clip A (on
    an open playback device; the driver has not ended A in between, as it
    is while A is within its playing time).  The shared buffer has one
    name from the start of A on, and it is private to the dedicated voice.
    The call for B stops the voice and detaches the buffer: at that point
    the voice is stopped with no buffer attached and the buffer is free,
    which is what lets OpenAL accept the new data.  The same buffer is
    then refilled with the bytes of B (mono, 16 bit, 44100 Hz), attached
    again, and the voice restarted: the buffer of A is reused, neither
    freed nor allocated anew.  The single-shot timer is restarted, so the
    only pending deadline is the one of B, [durationMs(B) + 50] after the
    second call: a timer event before that deadline (A's schedule
    included, when it is earlier) changes nothing; the event at or after
    the deadline runs the cleanup once, which detaches and frees the
    shared buffer if the voice is then stopped and otherwise leaves
    everything alone; after it no timer is pending. *)
Theorem playMono16Sound_interruption (envA envB : Env)
    (clipA clipB : list Byte.byte) (s : Audio) (dev : ALCdevice) (src : Source) :
  alOutDev s = Some dev ->
  al_sources (openal s) !! alMainSource s = Some src ->
  Z.of_nat (length clipA) * 1000 <= INT_MAX ->
  Z.of_nat (length clipB) * 1000 <= INT_MAX ->
  clip_buffer_private s ->
  let main := alMainSource s in
  exists sA sB mb,
    playMono16Sound envA clipA s = Ok tt sA /\
    playMono16Sound envB clipB sA = Ok tt sB /\
    mb <> 0%N /\ alMainBuffer sA = mb /\ alMainBuffer sB = mb /\
    alMainSource sA = main /\ alMainSource sB = main /\
    (exists srcA,
       al_sources (openal sA) !! main = Some srcA /\
       src_state srcA = AL_PLAYING /\ src_buffer srcA = mb) /\
    is_Some (al_buffers (openal sA) !! mb) /\
    (let stopped := alSourcei_BUFFER main 0%N (alSourceStop main (openal sA)) in
     (exists src1,
        al_sources stopped !! main = Some src1 /\
        src_state src1 = AL_STOPPED /\ src_buffer src1 = 0%N) /\
     buffer_in_use mb stopped = false /\
     openal sB =
       alSourcePlay main
         (alSourcei_BUFFER main mb
            (alBufferData mb
               (mkBuffer AL_FORMAT_MONO16 (map byte_value clipB)
                  (Z.of_nat (length clipB)) 44100)
               stopped))) /\
    al_buffers (openal sB) =
      <[mb := mkBuffer AL_FORMAT_MONO16 (map byte_value clipB)
                (Z.of_nat (length clipB)) 44100]> (al_buffers (openal sA)) /\
    al_last (openal sB) = al_last (openal sA) /\
    (exists srcB,
       al_sources (openal sB) !! main = Some srcB /\
       src_state srcB = AL_PLAYING /\ src_buffer srcB = mb /\
       src_processed srcB = 0%nat) /\
    playMono16Timer sA = Some (now envA + (durationMs clipA + 50)) /\
    playMono16Timer sB = Some (now envB + (durationMs clipB + 50)) /\
    (forall env, now env < now envB + (durationMs clipB + 50) ->
       playMono16Timer_event env sB = Ok tt sB) /\
    (forall env s2 src2,
       playMono16Timer s2 = playMono16Timer sB ->
       al_sources (openal s2) !! alMainSource s2 = Some src2 ->
       now envB + (durationMs clipB + 50) <= now env ->
       exists s3,
         playMono16Timer_event env s2 = Ok tt s3 /\
         playMono16Timer s3 = None /\
         (src_state src2 = AL_STOPPED ->
            alMainBuffer s3 = 0%N /\
            (exists src3,
               al_sources (openal s3) !! alMainSource s2 = Some src3 /\
               src_buffer src3 = 0%N /\ src_state src3 = AL_STOPPED) /\
            (buffer_private_to (alMainBuffer s2) (alMainSource s2) (openal s2) ->
             al_buffers (openal s3) =
               delete (alMainBuffer s2) (al_buffers (openal s2)))) /\
         (src_state src2 <> AL_STOPPED -> s3 = set_playMono16Timer None s2) /\
         (forall env', playMono16Timer_event env' s3 = Ok tt s3)).
Proof.
  intros Hdev Hsrc HA HB Hpriv main.
  destruct (wp_elim _ _ _
              (playMono16Sound_starts envA clipA s dev src Hdev Hsrc HA))
    as ([] & sA & HrunA & HdevA & HmainA & HbufA & HtimerA & src1 & Hsrc1 &
        Hplay & Hatt).
  pose proof (playMono16Sound_keeps_private envA clipA s dev src Hdev Hsrc HA
                Hpriv) as W.
  unfold wpg in W. rewrite HrunA in W. destruct W as (Hname & HvalidA & HprivA).
  fold main in Hsrc1, HprivA, HmainA.
  assert (Hsrc1' : al_sources (openal sA) !! alMainSource sA = Some src1)
    by (rewrite HmainA; exact Hsrc1).
  pose proof (playMono16Sound_interrupts envB clipB sA dev src1
                HdevA Hsrc1' Hplay HbufA HB) as HrunB.
  rewrite HmainA in HrunB.
  destruct (interrupted_voice main (alMainBuffer sA) (openal sA) src1 Hsrc1 Hplay)
    as [Hstopped Hfree].
  specialize (Hfree HprivA).
  set (stopped := alSourcei_BUFFER main 0%N (alSourceStop main (openal sA))) in *.
  assert (Hctx : is_Some (al_context stopped))
    by exact (source_context _ _ _ Hstopped).
  eexists sA, _, (alMainBuffer sA).
  split; [exact HrunA|]. split; [exact HrunB|]. simpl_state.
  split; [exact HbufA|]. split; [reflexivity|]. split; [reflexivity|].
  split; [exact HmainA|]. split; [exact HmainA|].
  split; [exists src1; auto|]. split; [exact HvalidA|].
  split.
  { split; [eexists; split; [exact Hstopped|split; reflexivity]|].
    split; [exact Hfree|reflexivity]. }
  split.
  { unfold alSourcePlay, alSourcei_BUFFER at 1. rewrite !al_buffers_on_sources.
    change (clipBuffer clipB)
      with (mkBuffer AL_FORMAT_MONO16 (map byte_value clipB)
              (Z.of_nat (length clipB)) 44100).
    apply (refilled_buffers _ _ stopped Hctx Hfree). exact HvalidA. }
  split.
  { unfold alSourcePlay, alSourcei_BUFFER, alSourceStop.
    rewrite !al_last_on_sources, al_last_alBufferData. reflexivity. }
  split.
  { eexists. split.
    - unfold alSourcePlay, alSourcei_BUFFER at 1.
      rewrite !al_sources_alter, al_sources_alBufferData, !lookup_alter_eq.
      unfold ALuint in *. rewrite Hstopped. reflexivity.
    - cbn. repeat split; reflexivity. }
  split; [exact HtimerA|]. split; [reflexivity|]. split.
  - intros env Hlt.
    apply (timer_event_early env _ (now envB + (durationMs clipB + 50)));
      [reflexivity|exact Hlt].
  - intros env s2 src2 Htimer Hsrc2 Hle. simpl_state.
    rewrite (timer_event_due env s2 _ src2 Htimer Hle Hsrc2).
    destruct (src_state src2) eqn:Est; cbn [SourceState_eqb];
      eexists; (split; [reflexivity|]); simpl_state;
      (split; [reflexivity|]).
    1, 2: split; [intros C; discriminate C|];
          split; [reflexivity|];
          intros env'; apply timer_event_idle; reflexivity.
    destruct (cleanup_frees (alMainSource s2) (alMainBuffer s2) (openal s2) src2
                Hsrc2 Est) as [Hvoice Hbuffers].
    split.
    { intros _. split; [reflexivity|]. split; [|exact Hbuffers].
      eexists. split; [exact Hvoice|]. split; reflexivity. }
    split; [intros C; contradiction|].
    intros env'. apply timer_event_idle. reflexivity.
Qed.

Lemma playMono16Sound_interruption_witness :
  alOutDev output_open = Some 8%N /\
  al_sources (openal output_open) !! alMainSource output_open = Some Source_new /\
  Z.of_nat (length clip_100ms) * 1000 <= INT_MAX /\
  Z.of_nat (length clip_200ms) * 1000 <= INT_MAX /\
  clip_buffer_private output_open /\
  now env_at_10 < now env0 + durationMs clip_100ms /\
  exists sA sB,
    playMono16Sound env0 clip_100ms output_open = Ok tt sA /\
    playMono16Sound env_at_10 clip_200ms sA = Ok tt sB /\
    playMono16Timer sA = Some 150 /\
    playMono16Timer sB = Some 260 /\
    alMainBuffer sB = alMainBuffer sA /\
    (exists b, al_buffers (openal sB) !! alMainBuffer sA = Some b /\
               buf_data b = map byte_value clip_200ms) /\
    playMono16Timer_event env_at_150 sB = Ok tt sB.
Proof.
  assert (Hdev : alOutDev output_open = Some 8%N) by (vm_compute; reflexivity).
  assert (Hsrc : al_sources (openal output_open) !! alMainSource output_open
                 = Some Source_new) by (vm_compute; reflexivity).
  assert (HA : Z.of_nat (length clip_100ms) * 1000 <= INT_MAX)
    by (vm_compute; discriminate).
  assert (HB : Z.of_nat (length clip_200ms) * 1000 <= INT_MAX)
    by (vm_compute; discriminate).
  assert (Hpriv : clip_buffer_private output_open)
    by (apply (bool_decide_unpack _); vm_compute; exact I).
  assert (Hin : now env_at_10 < now env0 + durationMs clip_100ms)
    by (vm_compute; reflexivity).
  split; [exact Hdev|]. split; [exact Hsrc|]. split; [exact HA|].
  split; [exact HB|]. split; [exact Hpriv|]. split; [exact Hin|].
  destruct (playMono16Sound_interruption env0 env_at_10 clip_100ms clip_200ms
              output_open 8%N Source_new Hdev Hsrc HA HB Hpriv)
    as (sA & sB & mb & HrunA & HrunB & _ & HmbA & HmbB & _ & _ & _ & _ & _ &
        Hbuf & _ & _ & HtA & HtB & Hearly & _).
  exists sA, sB. split; [exact HrunA|]. split; [exact HrunB|].
  split; [rewrite HtA; vm_compute; reflexivity|].
  split; [rewrite HtB; vm_compute; reflexivity|].
  split; [congruence|]. split.
  { eexists. split; [rewrite Hbuf, HmbA; apply lookup_insert_eq|reflexivity]. }
  apply Hearly. vm_compute. reflexivity.
Defined.

(** * Further properties of the code *)

(** ** Input gain *)

Lemma qBound_idempotent (lo hi x : float) :
  qBound PrimFloat.ltb lo (qBound PrimFloat.ltb lo x hi) hi =
  qBound PrimFloat.ltb lo x hi.
Proof.
  unfold qBound, qMin, qMax.
  destruct (hi <? x)%float eqn:E1.
  - destruct (lo <? hi)%float eqn:E2.
    + destruct (hi <? hi)%float; rewrite E2; reflexivity.
    + destruct (hi <? lo)%float eqn:E3.
      * rewrite E2. reflexivity.
      * destruct (lo <? lo)%float; reflexivity.
  - destruct (lo <? x)%float eqn:E2.
    + rewrite E1, E2. reflexivity.
    + destruct (hi <? lo)%float eqn:E3.
      * rewrite (ltb_asym _ _ E3). reflexivity.
      * destruct (lo <? lo)%float; reflexivity.
Qed.

(** X1: writing the gain back is a no-op.  After any [setInputGain(dB)],
    the call [setInputGain(inputGain())] returns the very same state,
    whatever the bounds are (inverted, infinite or NaN included) and
    whatever [pow] computes: the clamp is idempotent and the factor is
    recomputed from the same gain. *)
Theorem setInputGain_of_inputGain_is_identity (env : Env) (dB : qreal) (s : Audio) :
  exists s1 : Audio,
    setInputGain env dB s = Ok tt s1 /\
    setInputGain env (inputGain (d s1)) s1 = Ok tt s1.
Proof.
  eexists. split; [reflexivity|].
  unfold setInputGain, modify, Private_setInputGain, inputGain.
  simpl_state. cbn [minInputGain maxInputGain gain gainFactor].
  rewrite qBound_idempotent. reflexivity.
Qed.

(** ** Output volume *)

(** The clamp of [setOutputVolume], in [double]. *)
Lemma clamp_to_unit_interval (volume : qreal) :
  let clamped := std_max PrimFloat.ltb 0%float
                   (std_min PrimFloat.ltb volume 1%float) in
  (0 <=? clamped)%float = true /\
  (clamped <=? 1)%float = true /\
  ((0 <=? volume)%float = true -> (volume <=? 1)%float = true ->
     (clamped =? volume)%float = true) /\
  ((1 <? volume)%float = true -> clamped = 1%float) /\
  ((volume <? 0)%float = true -> clamped = 0%float) /\
  ((volume =? volume)%float = false -> clamped = 0%float).
Proof.
  cbv zeta. unfold std_max, std_min.
  assert (H01 : (0 <? 1)%float = true) by reflexivity.
  assert (H00 : (0 <? 0)%float = false) by reflexivity.
  assert (H11 : (1 <? 1)%float = false) by reflexivity.
  assert (L00 : (0 <=? 0)%float = true) by reflexivity.
  assert (L01 : (0 <=? 1)%float = true) by reflexivity.
  assert (L11 : (1 <=? 1)%float = true) by reflexivity.
  destruct (1 <? volume)%float eqn:E1.
  - rewrite H01.
    repeat match goal with |- _ /\ _ => split end; auto.
    + intros _ Hle. rewrite (leb_not_ltb _ _ Hle) in E1. discriminate.
    + intros Hlt. pose proof (ltb_leb_trans volume 0%float 1%float Hlt L01) as C.
      rewrite (ltb_asym _ _ E1) in C. discriminate.
    + intros Hnan. rewrite FloatAxioms.eqb_spec in Hnan.
      rewrite FloatAxioms.ltb_spec in E1. unfold SFeqb, SFltb in *.
      destruct (SFcompare (Prim2SF 1) (Prim2SF volume)) as [c|] eqn:E;
        [|discriminate].
      destruct (SFcompare_self _ _ _ E) as [_ Hv]. rewrite Hv in Hnan.
      discriminate.
  - destruct (0 <? volume)%float eqn:E0.
    + repeat match goal with |- _ /\ _ => split end; auto.
      * apply ltb_leb. exact E0.
      * apply not_ltb_leb; auto. apply (leb_refl_of_leb_r 0 volume).
        apply ltb_leb. exact E0.
      * intros _ _. apply (eqb_refl_of_leb 0 volume). apply ltb_leb. exact E0.
      * intros C. discriminate.
      * intros Hlt. rewrite (ltb_asym _ _ E0) in Hlt. discriminate.
      * intros Hnan. rewrite FloatAxioms.eqb_spec in Hnan.
        rewrite FloatAxioms.ltb_spec in E0. unfold SFeqb, SFltb in *.
        destruct (SFcompare (Prim2SF 0) (Prim2SF volume)) as [c|] eqn:E;
          [|discriminate].
        destruct (SFcompare_self _ _ _ E) as [_ Hv]. rewrite Hv in Hnan.
        discriminate.
    + repeat match goal with |- _ /\ _ => split end; auto.
      * intros Hle _. exact (leb_not_ltb_eqb 0%float volume Hle E0).
      * intros C. discriminate.
Qed.

(** X2: [setOutputVolume] clamps the volume to the unit interval in
    [double] and hands OpenAL the result narrowed to [ALfloat].  Values
    above 1 and [+inf] arrive as exactly 1, negative values and [-inf] as
    exactly 0, and so does NaN (the two comparisons are false on it): the
    narrowing changes neither 0 nor 1.  A volume between 0 and 1 arrives as
    the [ALfloat] nearest to it, which need not be the volume itself: 0.3
    arrives as 0x1.333334p-2. *)
Theorem setOutputVolume_within_unit_interval (volume : qreal) :
  let clamped := std_max PrimFloat.ltb 0%float
                   (std_min PrimFloat.ltb volume 1%float) in
  setOutputVolume volume = ALfloat_of_double clamped /\
  (0 <=? clamped)%float = true /\ (clamped <=? 1)%float = true /\
  ((0 <=? volume)%float = true -> (volume <=? 1)%float = true ->
     volume <> (-0)%float ->
     setOutputVolume volume = ALfloat_of_double volume) /\
  ((1 <? volume)%float = true -> setOutputVolume volume = 1%float) /\
  ((volume <? 0)%float = true -> setOutputVolume volume = 0%float) /\
  ((volume =? volume)%float = false -> setOutputVolume volume = 0%float) /\
  setOutputVolume (-0)%float = 0%float /\
  setOutputVolume 0x1.3333333333333p-2%float = 0x1.333334p-2%float.
Proof.
  destruct (clamp_to_unit_interval volume) as (H0 & H1 & Hin & Hhi & Hlo & Hnan).
  cbv zeta in *. unfold setOutputVolume.
  split; [reflexivity|]. split; [exact H0|]. split; [exact H1|].
  split.
  { intros Hge Hle Hz. f_equal.
    destruct (eqb_cases _ _ (Hin Hge Hle)) as [E|[_ [E|E]]];
      [exact E| |contradiction].
    rewrite E. reflexivity. }
  split; [intros H; rewrite (Hhi H); reflexivity|].
  split; [intros H; rewrite (Hlo H); reflexivity|].
  split; [intros H; rewrite (Hnan H); reflexivity|].
  split; vm_compute; reflexivity.
Qed.

Lemma setOutputVolume_within_unit_interval_witness :
  (0 <=? 0x1p-1)%float = true /\ (0x1p-1 <=? 1)%float = true /\
  0x1p-1%float <> (-0)%float /\
  setOutputVolume 0x1p-1%float = 0x1p-1%float /\
  (1 <? 7)%float = true /\ setOutputVolume 7%float = 1%float /\
  (-3 <? 0)%float = true /\ setOutputVolume (-3)%float = 0%float /\
  (nan =? nan)%float = false /\ setOutputVolume nan = 0%float.
Proof.
  assert (H1 : (0 <=? 0x1p-1)%float = true) by reflexivity.
  assert (H2 : (0x1p-1 <=? 1)%float = true) by reflexivity.
  assert (H3 : (1 <? 7)%float = true) by reflexivity.
  assert (H4 : (-3 <? 0)%float = true) by reflexivity.
  assert (H5 : (nan =? nan)%float = false) by reflexivity.
  assert (H6 : 0x1p-1%float <> (-0)%float).
  { intros C. apply (f_equal Prim2SF) in C. vm_compute in C. discriminate C. }
  destruct (setOutputVolume_within_unit_interval 0x1p-1%float)
    as (_ & _ & _ & Hin & _).
  destruct (setOutputVolume_within_unit_interval 7%float)
    as (_ & _ & _ & _ & Habove & _).
  destruct (setOutputVolume_within_unit_interval (-3)%float)
    as (_ & _ & _ & _ & _ & Hbelow & _).
  destruct (setOutputVolume_within_unit_interval nan)
    as (_ & _ & _ & _ & _ & _ & Hnan & _).
  split; [exact H1|]. split; [exact H2|]. split; [exact H6|].
  split; [rewrite (Hin H1 H2 H6); vm_compute; reflexivity|].
  split; [exact H3|]. split; [exact (Habove H3)|].
  split; [exact H4|]. split; [exact (Hbelow H4)|].
  split; [exact H5|exact (Hnan H5)].
Defined.

Lemma qBound_inverted (lo hi x : float) :
  (hi <? lo)%float = true -> qBound PrimFloat.ltb lo x hi = lo.
Proof.
  intros Hinv. unfold qBound, qMin, qMax.
  destruct (hi <? x)%float eqn:E1.
  - rewrite (ltb_asym _ _ Hinv). reflexivity.
  - destruct (lo <? x)%float eqn:E2; [|reflexivity].
    pose proof (ltb_leb_trans hi lo x Hinv (ltb_leb lo x E2)) as C.
    rewrite E1 in C. discriminate C.
Qed.

(** X3: with the bounds the wrong way round the gain is the lower bound.
    [setMinInputGain] and [setMaxInputGain] accept any values; once
    [maxInputGain < minInputGain], every [setInputGain(dB)] stores
    [minInputGain], whatever [dB] is (NaN included), and the factor
    follows it. *)
Theorem setInputGain_with_inverted_bounds (env : Env) (dB : qreal) (s : Audio) :
  (maxInputGain (d s) <? minInputGain (d s))%float = true ->
  exists s',
    setInputGain env dB s = Ok tt s' /\
    inputGain (d s') = minInputGain (d s) /\
    inputGainFactor (d s') =
      qPow env 10%float (minInputGain (d s) / 20)%float /\
    minInputGain (d s') = minInputGain (d s) /\
    maxInputGain (d s') = maxInputGain (d s).
Proof.
  intros Hinv. eexists. split; [reflexivity|].
  unfold Private_setInputGain, inputGain, inputGainFactor. simpl_state.
  cbn [minInputGain maxInputGain gain gainFactor].
  rewrite (qBound_inverted _ _ dB Hinv). repeat split; reflexivity.
Qed.

Lemma setInputGain_with_inverted_bounds_witness :
  setMaxInputGain (-40)%float Audio_new = Ok tt inverted_bounds /\
  (maxInputGain (d inverted_bounds) <? minInputGain (d inverted_bounds))%float
    = true /\
  exists s',
    setInputGain env0 12%float inverted_bounds = Ok tt s' /\
    inputGain (d s') = (-30)%float.
Proof.
  assert (H : (maxInputGain (d inverted_bounds)
               <? minInputGain (d inverted_bounds))%float = true)
    by reflexivity.
  split; [reflexivity|]. split; [exact H|].
  destruct (setInputGain_with_inverted_bounds env0 12%float inverted_bounds H)
    as (s' & Hrun & Hgain & _).
  exists s'. split; [exact Hrun|exact Hgain].
Defined.
(** ** The factor the capture loop multiplies by *)

Lemma step_factor_set_while_open (pow : float -> float -> float) (env : Env)
    (c : Call) (s : Audio) :
  qPow env = pow -> factor_set_while_open pow s ->
  wlp (step env c) (fun _ s' => factor_set_while_open pow s') s.
Proof.
  intros <- Hf. unfold factor_set_while_open in *.
  destruct c; cbn [step]; unfold_calls; wp_run; trivial.
  all: simpl_state.
  all: try (intros Hx; exfalso; eapply not_is_Some_None; exact Hx).
  all: try (intros _; reflexivity).
  all: try (intros Hx; apply Hf; first [exact Hx | eauto]; fail).
  all: intros Hx; exfalso;
    repeat match goal with
           | H : alInDev ?s = None, H' : is_Some (alInDev ?s) |- _ =>
               rewrite H in H'
           end;
    eapply not_is_Some_None; eassumption.
Qed.

Lemma run_factor_set_while_open (pow : float -> float -> float)
    (calls : list (Env * Call)) :
  Forall (fun ec : Env * Call => qPow ec.1 = pow) calls ->
  forall s s', factor_set_while_open pow s -> run calls s = Ok tt s' ->
  factor_set_while_open pow s'.
Proof.
  induction 1 as [|[env c] calls Hp _ IH]; intros s s' Hf Hrun.
  - apply Ok_inj in Hrun as [_ <-]. exact Hf.
  - cbn [run] in Hrun. unfold mbind, M_bind in Hrun.
    pose proof (step_factor_set_while_open pow env c s Hp Hf) as W.
    unfold wpg in W.
    destruct (step env c s) as [[] s1|]; [|discriminate].
    exact (IH s1 s' W Hrun).
Qed.

(** X4: the factor [0.0] that the constructor stores never reaches the
    capture loop.  The constructor leaves [gainFactor = 0.0] beside
    [gain = 0.0], which is not [pow(10, gain/20)]; but in every state
    reached from the constructor in which the capture device is open, the
    factor is [pow(10, gain/20)] for the stored gain, because the device is
    only ever opened by [initInput], which sets the gain from the settings
    right after.  ([pow] is the same function in every call.) *)
Theorem capture_factor_is_set_while_device_open (pow : float -> float -> float)
    (calls : list (Env * Call)) (s : Audio) :
  Forall (fun ec : Env * Call => qPow ec.1 = pow) calls ->
  run calls Audio_new = Ok tt s ->
  inputGainFactor (d Audio_new) = 0%float /\
  (is_Some (alInDev s) ->
     inputGainFactor (d s) = pow 10%float (inputGain (d s) / 20)%float).
Proof.
  intros Hp Hrun. split; [reflexivity|].
  apply (run_factor_set_while_open pow calls Hp Audio_new s); [|exact Hrun].
  intros Hx. exfalso. eapply not_is_Some_None. exact Hx.
Qed.

Lemma capture_factor_is_set_while_device_open_witness :
  Forall (fun ec : Env * Call => qPow ec.1 = pow_whole)
    [(env0, SetMaxInputGain 40%float); (env0, SubscribeInput)] /\
  exists s : Audio,
    run [(env0, SetMaxInputGain 40%float); (env0, SubscribeInput)] Audio_new
      = Ok tt s /\
    is_Some (alInDev s) /\
    inputGainFactor (d s) = pow_whole 10%float (inputGain (d s) / 20)%float.
Proof.
  assert (Hall : Forall (fun ec : Env * Call => qPow ec.1 = pow_whole)
            [(env0, SetMaxInputGain 40%float); (env0, SubscribeInput)])
    by (repeat constructor).
  split; [exact Hall|].
  exists (final (run [(env0, SetMaxInputGain 40%float); (env0, SubscribeInput)]
                   Audio_new)).
  assert (Hrun : run [(env0, SetMaxInputGain 40%float); (env0, SubscribeInput)]
                   Audio_new
                 = Ok tt (final (run [(env0, SetMaxInputGain 40%float);
                                      (env0, SubscribeInput)] Audio_new)))
    by (vm_compute; reflexivity).
  split; [exact Hrun|].
  assert (Hopen : is_Some (alInDev (final (run [(env0, SetMaxInputGain 40%float);
                                      (env0, SubscribeInput)] Audio_new))))
    by (vm_compute; eauto).
  split; [exact Hopen|].
  exact (proj2 (capture_factor_is_set_while_device_open pow_whole _ _ Hall Hrun)
           Hopen).
Defined.
(** ** The gain loop *)

Lemma gainLoop_S (factor : qreal) (todo i : nat) (buf : list Z) :
  gainLoop factor (S todo) i buf =
    match buf !! i with
    | None => None
    | Some sample =>
        match amplify factor sample with
        | None => None
        | Some v => gainLoop factor todo (S i) (<[i := v]> buf)
        end
    end.
Proof. reflexivity. Qed.

(** The loop after [i] samples: the prefix is done, the rest is pending. *)
Lemma gainLoop_app (factor : qreal) (rest : list Z) :
  forall done : list Z,
    gainLoop factor (length rest) (length done) (done ++ rest) =
    (fun out => done ++ out) <$> mapM (amplify factor) rest.
Proof.
  induction rest as [|x rest IH]; intros done.
  - cbn. reflexivity.
  - cbn [length]. rewrite gainLoop_S.
    rewrite lookup_app_r by lia. rewrite Nat.sub_diag. cbn [lookup list_lookup].
    cbn [mapM]. destruct (amplify factor x) as [v|]; [|reflexivity].
    replace (<[length done := v]> (done ++ x :: rest))
      with ((done ++ [v]) ++ rest).
    2:{ rewrite insert_app_r_alt by lia. rewrite Nat.sub_diag.
        rewrite <- app_assoc. reflexivity. }
    replace (S (length done)) with (length (done ++ [v]))
      by (rewrite length_app; cbn; lia).
    rewrite IH. cbn. destruct (mapM (amplify factor) rest) as [out|]; cbn;
      [rewrite <- app_assoc|]; reflexivity.
Qed.

Lemma gainLoop_mapM (factor : qreal) (buf : list Z) :
  gainLoop factor (length buf) 0 buf = mapM (amplify factor) buf.
Proof.
  pose proof (gainLoop_app factor buf []) as H. cbn [length app] in H.
  rewrite H. cbn.
  destruct (mapM (amplify factor) buf); reflexivity.
Qed.
Lemma doCapture_ready (env : Env) (s : Audio) (dev : ALCdevice) :
  alInDev s = Some dev -> inSubscriptions s <> 0%N ->
  AUDIO_FRAME_SAMPLE_COUNT env <= captureAvailable env ->
  doCapture env s =
    match mapM (amplify (inputGainFactor (d s))) (capturedFrame env) with
    | Some pcm =>
        Ok tt (set_effects
                 (effects s ++
                    [AlcCaptureSamples dev (AUDIO_FRAME_SAMPLE_COUNT env);
                     FrameAvailable pcm (AUDIO_FRAME_SAMPLE_COUNT env)
                       (AUDIO_CHANNELS env) (AUDIO_SAMPLE_RATE env)]) s)
    | None => Abort UndefinedBehaviour
    end.
Proof.
  intros Hdev Hn Hge.
  apply N.eqb_neq in Hn. apply Z.ltb_ge in Hge.
  rewrite <- gainLoop_mapM, capturedFrame_length.
  unfold doCapture, mbind, M_bind, gets, emit, modify, abort.
  rewrite Hdev, Hn, Hge. simpl_state.
  destruct (gainLoop _ _ _ _) as [pcm|]; [|reflexivity].
  unfold set_effects; simpl_state. rewrite <- app_assoc. reflexivity.
Qed.

Lemma doCapture_not_ready (env : Env) (s : Audio) :
  isInputReady s = false -> doCapture env s = Ok tt s.
Proof.
  unfold isInputReady. intros H.
  unfold doCapture, mbind, M_bind, gets.
  destruct (alInDev s) as [dev|]; [|reflexivity].
  rewrite bool_decide_eq_true_2 in H by eauto. cbn [andb] in H.
  apply negb_false_iff in H. rewrite H. reflexivity.
Qed.

(** X5: the capture loop amplifies sample by sample.  On a tick with the
    device open, a subscriber and a full frame available, the in-place
    loop over the frame buffer computes the gain step of each captured
    sample on its own; the tick publishes exactly the frame of these
    results, and it has undefined behaviour exactly when the gain step of
    one of the samples has. *)
Theorem doCapture_amplifies_each_sample (env : Env) (s : Audio) (dev : ALCdevice) :
  alInDev s = Some dev -> inSubscriptions s <> 0%N ->
  AUDIO_FRAME_SAMPLE_COUNT env <= captureAvailable env ->
  let factor := inputGainFactor (d s) in
  gainLoop factor (frameLength env) 0 (capturedFrame env) =
    mapM (amplify factor) (capturedFrame env) /\
  (doCapture env s = Abort UndefinedBehaviour <->
     Exists (fun sample => amplify factor sample = None) (capturedFrame env)) /\
  (forall pcm,
     doCapture env s =
       Ok tt (set_effects
                (effects s ++
                   [AlcCaptureSamples dev (AUDIO_FRAME_SAMPLE_COUNT env);
                    FrameAvailable pcm (AUDIO_FRAME_SAMPLE_COUNT env)
                      (AUDIO_CHANNELS env) (AUDIO_SAMPLE_RATE env)]) s) <->
     Forall2 (fun sample out => amplify factor sample = Some out)
             (capturedFrame env) pcm).
Proof.
  intros Hdev Hn Hge factor. subst factor.
  split; [rewrite <- capturedFrame_length; apply gainLoop_mapM|].
  rewrite (doCapture_ready env s dev Hdev Hn Hge).
  destruct (mapM _ _) as [out|] eqn:E.
  - split.
    + split; [discriminate|]. intros Hex. apply mapM_None_2 in Hex. congruence.
    + intros pcm. split.
      * intros Heq. apply Ok_inj in Heq as [_ Heq].
        apply (f_equal effects) in Heq. simpl_state.
        apply app_inv_head in Heq. injection Heq as <-.
        apply mapM_Some_1. exact E.
      * intros Hall. apply mapM_Some_2 in Hall. congruence.
  - split.
    + split; [intros _; apply mapM_None_1; exact E | reflexivity].
    + intros pcm. split; [discriminate|].
      intros Hall. apply mapM_Some_2 in Hall. congruence.
Qed.

Lemma doCapture_amplifies_each_sample_witness :
  alInDev capturing = Some 7%N /\ inSubscriptions capturing <> 0%N /\
  AUDIO_FRAME_SAMPLE_COUNT env_tiny <= captureAvailable (with_captureAvailable 2 env_tiny) /\
  Forall2 (fun sample out =>
             amplify (inputGainFactor (d capturing)) sample = Some out)
          (capturedFrame (with_captureAvailable 2 env_tiny)) [32767; 32767] /\
  doCapture (with_captureAvailable 2 env_tiny) capturing =
    Ok tt (set_effects
             [AlcCaptureSamples 7%N 2; FrameAvailable [32767; 32767] 2 1 48000]
             capturing).
Proof.
  assert (H1 : alInDev capturing = Some 7%N) by reflexivity.
  assert (H2 : inSubscriptions capturing <> 0%N) by discriminate.
  assert (H3 : AUDIO_FRAME_SAMPLE_COUNT env_tiny
               <= captureAvailable (with_captureAvailable 2 env_tiny))
    by discriminate.
  assert (H4 : Forall2 (fun sample out =>
             amplify (inputGainFactor (d capturing)) sample = Some out)
          (capturedFrame (with_captureAvailable 2 env_tiny)) [32767; 32767]).
  { apply mapM_Some_1. vm_compute. reflexivity. }
  split; [exact H1|]. split; [exact H2|]. split; [exact H3|].
  split; [exact H4|].
  destruct (doCapture_amplifies_each_sample (with_captureAvailable 2 env_tiny)
              capturing 7%N H1 H2 H3) as (_ & _ & Hpub).
  exact (proj2 (Hpub [32767; 32767]) H4).
Defined.

(** X6: a capture tick is an observer.  Whatever the state, [doCapture]
    changes no member of the object and nothing in OpenAL: it returns the
    state with at most two entries added to the log, the read of one frame
    and its publication, and it adds them only when [isInputReady] holds.
    When the input is not ready the tick returns the state as it is.  Every
    sample it publishes lies in the range of [int16_t], and a frame has
    [AUDIO_FRAME_SAMPLE_COUNT * AUDIO_CHANNELS] of them.  The only way not
    to return is the undefined conversion of the gain step. *)
Theorem doCapture_only_publishes (env : Env) (s : Audio) :
  (isInputReady s = false -> doCapture env s = Ok tt s) /\
  (doCapture env s = Abort UndefinedBehaviour \/
   exists s',
     doCapture env s = Ok tt s' /\
     s' = set_effects (effects s') s /\
     (effects s' = effects s \/
      isInputReady s = true /\
      exists dev pcm,
        alInDev s = Some dev /\
        effects s' =
          effects s ++
            [AlcCaptureSamples dev (AUDIO_FRAME_SAMPLE_COUNT env);
             FrameAvailable pcm (AUDIO_FRAME_SAMPLE_COUNT env)
               (AUDIO_CHANNELS env) (AUDIO_SAMPLE_RATE env)] /\
        length pcm = Z.to_nat (AUDIO_FRAME_SAMPLE_COUNT env * AUDIO_CHANNELS env) /\
        Forall (fun z => INT16_MIN <= z <= INT16_MAX) pcm)).
Proof.
  split; [apply doCapture_not_ready|].
  destruct (isInputReady s) eqn:Hready.
  2:{ right. exists s. split; [apply doCapture_not_ready; exact Hready|].
      split; [destruct s; reflexivity|]. left. reflexivity. }
  unfold isInputReady in Hready. apply andb_true_iff in Hready as [Hdev Hn].
  apply bool_decide_eq_true in Hdev. destruct Hdev as [dev Hdev].
  apply negb_true_iff, N.eqb_neq in Hn.
  destruct (Z.lt_ge_cases (captureAvailable env) (AUDIO_FRAME_SAMPLE_COUNT env))
    as [Hlt|Hge].
  { right. exists s. split; [apply (doCapture_below env s dev); assumption|].
    split; [destruct s; reflexivity|]. left. reflexivity. }
  rewrite (doCapture_ready env s dev Hdev Hn Hge).
  destruct (mapM _ _) as [pcm|] eqn:E; [right|left; reflexivity].
  eexists. split; [reflexivity|]. simpl_state. split; [reflexivity|].
  right. split; [reflexivity|].
  exists dev, pcm. split; [exact Hdev|]. split; [reflexivity|].
  apply mapM_Some_1 in E. split.
  - rewrite <- (Forall2_length _ _ _ E). apply capturedFrame_length.
  - apply Forall_forall. intros z Hz.
    apply list_elem_of_lookup_1 in Hz as [i Hi].
    destruct (Forall2_lookup_r _ _ _ _ _ E Hi) as (x & _ & Hx).
    exact (proj1 (amplify_clamped _ _ _ Hx)).
Qed.

Lemma doCapture_only_publishes_witness :
  isInputReady Audio_new = false /\
  doCapture env0 Audio_new = Ok tt Audio_new.
Proof.
  assert (H : isInputReady Audio_new = false) by reflexivity.
  split; [exact H|].
  exact (proj1 (doCapture_only_publishes env0 Audio_new) H).
Defined.
Lemma unit_gain_checked :
  forallb (fun sample =>
             match amplify 1%float sample with
             | Some out => out =? sample
             | None => false
             end) int16_values = true.
Proof. vm_compute. reflexivity. Qed.

Lemma amplify_unit (sample : Z) :
  INT16_MIN <= sample <= INT16_MAX -> amplify 1%float sample = Some sample.
Proof.
  intros Hs. pose proof unit_gain_checked as H.
  rewrite forallb_forall in H. specialize (H sample).
  destruct (amplify 1%float sample) as [out|].
  - f_equal. apply Z.eqb_eq. apply H.
    unfold int16_values. apply upFrom_In. unfold INT16_MIN, INT16_MAX in *. lia.
  - discriminate H.
    unfold int16_values. apply upFrom_In. unfold INT16_MIN, INT16_MAX in *. lia.
Qed.

(** X7: a gain of 0 dB is transparent.  With the factor [1.0] (what
    [pow(10, 0/20)] is) the gain step returns every 16-bit sample as it
    is, so a tick publishes the captured frame unchanged. *)
Theorem unit_gain_is_transparent (env : Env) (s : Audio) (dev : ALCdevice) :
  alInDev s = Some dev -> inSubscriptions s <> 0%N ->
  AUDIO_FRAME_SAMPLE_COUNT env <= captureAvailable env ->
  inputGainFactor (d s) = 1%float ->
  (forall sample, INT16_MIN <= sample <= INT16_MAX ->
     amplify (inputGainFactor (d s)) sample = Some sample) /\
  doCapture env s =
    Ok tt (set_effects
             (effects s ++
                [AlcCaptureSamples dev (AUDIO_FRAME_SAMPLE_COUNT env);
                 FrameAvailable (capturedFrame env) (AUDIO_FRAME_SAMPLE_COUNT env)
                   (AUDIO_CHANNELS env) (AUDIO_SAMPLE_RATE env)]) s).
Proof.
  intros Hdev Hn Hge Hunit. rewrite Hunit.
  split; [exact amplify_unit|].
  rewrite (doCapture_ready env s dev Hdev Hn Hge), Hunit.
  rewrite (mapM_Some_2 (amplify 1%float) (capturedFrame env) (capturedFrame env));
    [reflexivity|].
  apply Forall_Forall2_diag.
  eapply Forall_impl; [apply capturedFrame_int16|].
  intros z Hz. apply amplify_unit. exact Hz.
Qed.

Lemma unit_gain_is_transparent_witness :
  alInDev capturing = Some 7%N /\ inSubscriptions capturing <> 0%N /\
  AUDIO_FRAME_SAMPLE_COUNT env_tiny
    <= captureAvailable (with_captureAvailable 5 env_tiny) /\
  inputGainFactor (d capturing) = 1%float /\
  doCapture (with_captureAvailable 5 env_tiny) capturing =
    Ok tt (set_effects
             [AlcCaptureSamples 7%N 2; FrameAvailable [32767; 32767] 2 1 48000]
             capturing).
Proof.
  assert (H1 : alInDev capturing = Some 7%N) by reflexivity.
  assert (H2 : inSubscriptions capturing <> 0%N) by discriminate.
  assert (H3 : AUDIO_FRAME_SAMPLE_COUNT env_tiny
               <= captureAvailable (with_captureAvailable 5 env_tiny))
    by discriminate.
  assert (H4 : inputGainFactor (d capturing) = 1%float)
    by (vm_compute; reflexivity).
  split; [exact H1|]. split; [exact H2|]. split; [exact H3|].
  split; [exact H4|].
  exact (proj2 (unit_gain_is_transparent (with_captureAvailable 5 env_tiny)
                  capturing 7%N H1 H2 H3 H4)).
Defined.
(** ** Capture session: failures, the "none" device and device changes *)

Lemma wp_elim_unit (m : M unit) (Q : Audio -> Prop) (s : Audio) :
  wp m (fun _ s' => Q s') s -> exists s', m s = Ok tt s' /\ Q s'.
Proof.
  intros W. destruct (wp_elim _ _ _ W) as ([] & s' & E & HQ). eauto.
Qed.

(** X8: a subscription that cannot open the capture device is not counted.
    With the device closed and a configured device that cannot be opened,
    [subscribeInput] returns with two warnings logged and nothing else
    changed: the count stays where it was and the input is not ready. *)
Theorem subscribeInput_failure_is_not_counted (env : Env) (s : Audio) :
  alInDev s = None -> capture_unavailable env ->
  subscribeInput env s =
    Ok tt (set_effects
             (effects s ++
                [qWarning "Failed to initialize audio input device";
                 qWarning "Failed to subscribe to audio input device."]) s) /\
  isInputReady
    (set_effects
       (effects s ++
          [qWarning "Failed to initialize audio input device";
           qWarning "Failed to subscribe to audio input device."]) s) = false.
Proof.
  intros Hdev [Hnone Hopen]. cbv zeta in Hopen. split.
  - apply wp_returns. unfold subscribeInput, autoInitInput, initInput.
    destruct Hopen as [Hname | Hfail].
    + wp_run; try (rewrite Hdev in *; discriminate).
      all: split; [reflexivity|]; unfold set_effects; simpl_state;
        rewrite <- app_assoc; reflexivity.
    + wp_run; try (rewrite Hdev in *; discriminate).
      all: try (rewrite Hfail in *; discriminate).
      all: split; [reflexivity|]; unfold set_effects, set_alInDev; simpl_state;
        rewrite <- app_assoc, ?Hdev; reflexivity.
  - unfold isInputReady. simpl_state. rewrite Hdev. reflexivity.
Qed.

Lemma capture_unavailable_env_no_mic : capture_unavailable env_no_mic.
Proof. split; [reflexivity|]. right. reflexivity. Qed.

Lemma subscribeInput_failure_is_not_counted_witness :
  alInDev Audio_new = None /\ capture_unavailable env_no_mic /\
  exists s, subscribeInput env_no_mic Audio_new = Ok tt s /\
            inSubscriptions s = 0%N /\ isInputReady s = false.
Proof.
  assert (H : alInDev Audio_new = None) by reflexivity.
  split; [exact H|]. split; [exact capture_unavailable_env_no_mic|].
  destruct (subscribeInput_failure_is_not_counted env_no_mic Audio_new H
              capture_unavailable_env_no_mic) as [Hrun Hready].
  eexists. split; [exact Hrun|]. split; [reflexivity|exact Hready].
Defined.

(** With the "none" device configured, a call other than [reinitInput]
    keeps the capture device closed and publishes no frame. *)
Lemma step_none_device (env : Env) (c : Call) (s : Audio) :
  String.eqb (getInDev env) "none" = true -> is_reinitInput c = false ->
  alInDev s = None ->
  wlp (step env c)
      (fun _ s' => alInDev s' = None /\ frames s' = frames s) s.
Proof.
  intros Hnone Hc Hdev.
  destruct c; try discriminate Hc; cbn [step]; unfold_calls; wp_run; trivial.
  all: try (rewrite Hdev in *; discriminate).
  all: unfold frames; simpl_state.
  all: rewrite ?List.filter_app, ?length_app; cbn [List.filter is_frame length].
  all: split; [first [assumption | reflexivity]|lia].
Qed.

(** X9: the "none" device mutes capture without refusing subscribers.
    When the configured capture device is "none", every [subscribeInput]
    is counted, but in no run from the constructor that does not call
    [reinitInput] is the capture device ever opened, the input ever ready,
    or a frame ever published, however many capture ticks occur. *)
Theorem none_device_never_captures (calls : list (Env * Call)) :
  Forall (fun ec : Env * Call =>
            String.eqb (getInDev ec.1) "none" = true /\
            is_reinitInput ec.2 = false) calls ->
  (forall env s, String.eqb (getInDev env) "none" = true -> alInDev s = None ->
     subscribeInput env s =
       Ok tt (set_inSubscriptions (N.succ (inSubscriptions s)) s)) /\
  (forall s, run calls Audio_new = Ok tt s ->
     alInDev s = None /\ isInputReady s = false /\ frames s = 0%nat).
Proof.
  intros Hcalls. split.
  { intros env s Hnone Hdev. apply wp_returns.
    unfold subscribeInput, autoInitInput, initInput. wp_run.
    split; reflexivity. }
  assert (Hrun : forall s0 s, alInDev s0 = None -> run calls s0 = Ok tt s ->
                   alInDev s = None /\ frames s = frames s0).
  { induction Hcalls as [|[env c] calls [Hnone Hc] _ IH]; intros s0 s Hdev Hrun.
    - apply Ok_inj in Hrun as [_ <-]. split; [exact Hdev|reflexivity].
    - cbn [run] in Hrun. unfold mbind, M_bind in Hrun.
      pose proof (step_none_device env c s0 Hnone Hc Hdev) as W. unfold wpg in W.
      destruct (step env c s0) as [[] s1|]; [|discriminate].
      destruct W as [Hdev1 Hf1]. destruct (IH s1 s Hdev1 Hrun) as [Hd Hf].
      split; [exact Hd|congruence]. }
  intros s Hs. destruct (Hrun Audio_new s eq_refl Hs) as [Hd Hf].
  split; [exact Hd|]. split; [|exact Hf].
  unfold isInputReady. rewrite Hd. reflexivity.
Qed.

Lemma none_device_never_captures_witness :
  Forall (fun ec : Env * Call =>
            String.eqb (getInDev ec.1) "none" = true /\
            is_reinitInput ec.2 = false) muted_session /\
  String.eqb (getInDev env_none) "none" = true /\
  alInDev Audio_new = None /\
  exists s, run muted_session Audio_new = Ok tt s /\
            inSubscriptions s = 1%N /\ isInputReady s = false /\
            frames s = 0%nat.
Proof.
  assert (Hall : Forall (fun ec : Env * Call =>
            String.eqb (getInDev ec.1) "none" = true /\
            is_reinitInput ec.2 = false) muted_session)
    by (repeat constructor).
  assert (Hn : String.eqb (getInDev env_none) "none" = true) by reflexivity.
  assert (Hd : alInDev Audio_new = None) by reflexivity.
  split; [exact Hall|]. split; [exact Hn|]. split; [exact Hd|].
  destruct (none_device_never_captures muted_session Hall) as [Hsub Hrun].
  exists (set_inSubscriptions 1%N Audio_new).
  assert (E : run muted_session Audio_new = Ok tt (set_inSubscriptions 1%N Audio_new)).
  { unfold muted_session. cbn [run]. unfold mbind, M_bind. cbn [step].
    rewrite (Hsub env_none Audio_new Hn Hd). reflexivity. }
  split; [exact E|]. split; [reflexivity|].
  exact (proj2 (Hrun _ E)).
Defined.

(** X10: [reinitInput] runs into the assertion of [initInput] when the old
    device does not close.  If the capture device is open and the driver
    refuses to close it, [cleanupInput] keeps the handle, and [initInput]
    for any device other than "none" then fails its [assert(!alInDev)]:
    the call does not return.  Towards "none" the call returns, with the
    old device still open. *)
Theorem reinitInput_asserts_when_close_fails (env : Env) (descr : string)
    (s : Audio) (dev : ALCdevice) :
  alInDev s = Some dev -> alcCaptureCloseDevice env dev = false ->
  (String.eqb descr "none" = false ->
     reinitInput env descr s = Abort AssertionFailed) /\
  (String.eqb descr "none" = true ->
     exists s', reinitInput env descr s = Ok tt s' /\ alInDev s' = Some dev /\
                inSubscriptions s' = inSubscriptions s).
Proof.
  intros Hdev Hclose. split; intros Hd.
  - unfold reinitInput, cleanupInput, initInput, mbind, M_bind, gets, emit,
      modify, assert, abort.
    rewrite Hdev, Hclose, Hd. simpl_state. rewrite Hdev. reflexivity.
  - eexists.
    unfold reinitInput, cleanupInput, initInput, mbind, M_bind, gets, emit,
      modify, assert, abort.
    rewrite Hdev, Hclose, Hd. simpl_state.
    split; [reflexivity|]. simpl_state. split; [exact Hdev|reflexivity].
Qed.

Lemma reinitInput_asserts_when_close_fails_witness :
  alInDev capturing = Some 7%N /\
  alcCaptureCloseDevice env_stuck_mic 7%N = false /\
  String.eqb "mic" "none" = false /\
  reinitInput env_stuck_mic "mic" capturing = Abort AssertionFailed.
Proof.
  assert (H1 : alInDev capturing = Some 7%N) by reflexivity.
  assert (H2 : alcCaptureCloseDevice env_stuck_mic 7%N = false) by reflexivity.
  assert (H3 : String.eqb "mic" "none" = false) by reflexivity.
  split; [exact H1|]. split; [exact H2|]. split; [exact H3|].
  exact (proj1 (reinitInput_asserts_when_close_fails env_stuck_mic "mic"
                  capturing 7%N H1 H2) H3).
Defined.

(** X11: changing the capture device keeps the subscribers.  When the old
    device (if one is open) closes and the new one opens, [reinitInput]
    returns with the new device open and started, the subscription count
    untouched, and the gain set afresh from the settings (a gain chosen
    with [setInputGain] on the old device is lost); the input is ready
    again exactly when there are subscribers, who need not subscribe
    anew. *)
Theorem reinitInput_keeps_subscribers (env : Env) (descr : string) (s : Audio)
    (dev' : ALCdevice) :
  (forall dev, alInDev s = Some dev -> alcCaptureCloseDevice env dev = true) ->
  String.eqb descr "none" = false ->
  String.eqb (resolveDevice (inDeviceNames env) descr) EmptyString = false ->
  alcCaptureOpenDevice env (resolveDevice (inDeviceNames env) descr) = Some dev' ->
  exists s',
    reinitInput env descr s = Ok tt s' /\
    alInDev s' = Some dev' /\
    inSubscriptions s' = inSubscriptions s /\
    d s' = Private_setInputGain (qPow env) (getAudioInGain env) (d s) /\
    isInputReady s' = negb (inSubscriptions s =? 0)%N /\
    last (effects s') = Some (AlcCaptureStart dev').
Proof.
  intros Hclose Hd Hname Hopen.
  apply wp_elim_unit.
  unfold reinitInput, cleanupInput, initInput, setInputGain.
  wp_run.
  all: try match goal with
           | H' : alcCaptureCloseDevice _ _ = false |- _ =>
               rewrite Hclose in H' by first [reflexivity | assumption];
               discriminate H'
           end.
  all: try (rewrite Hopen in *; discriminate).
  all: repeat match goal with
              | H : alcCaptureOpenDevice _ _ = Some _ |- _ =>
                  rewrite Hopen in H; injection H as <-
              end.
  all: split; [reflexivity|]; split; [reflexivity|]; split; [reflexivity|].
  all: split; [unfold isInputReady; simpl_state;
               rewrite bool_decide_eq_true_2 by eauto; reflexivity|].
  all: apply last_snoc.
Qed.

Lemma reinitInput_keeps_subscribers_witness :
  (forall dev, alInDev capturing = Some dev ->
               alcCaptureCloseDevice env0 dev = true) /\
  String.eqb "mic" "none" = false /\
  String.eqb (resolveDevice (inDeviceNames env0) "mic") EmptyString = false /\
  alcCaptureOpenDevice env0 (resolveDevice (inDeviceNames env0) "mic") = Some 7%N /\
  exists s', reinitInput env0 "mic" capturing = Ok tt s' /\
             inSubscriptions s' = 1%N /\ isInputReady s' = true.
Proof.
  assert (H1 : forall dev, alInDev capturing = Some dev ->
                           alcCaptureCloseDevice env0 dev = true)
    by (intros dev _; reflexivity).
  assert (H2 : String.eqb "mic" "none" = false) by reflexivity.
  assert (H3 : String.eqb (resolveDevice (inDeviceNames env0) "mic") EmptyString
               = false) by reflexivity.
  assert (H4 : alcCaptureOpenDevice env0 (resolveDevice (inDeviceNames env0) "mic")
               = Some 7%N) by reflexivity.
  split; [exact H1|]. split; [exact H2|]. split; [exact H3|]. split; [exact H4|].
  destruct (reinitInput_keeps_subscribers env0 "mic" capturing 7%N H1 H2 H3 H4)
    as (s' & Hrun & _ & Hn & _ & Hready & _).
  exists s'. split; [exact Hrun|]. split; [exact Hn|exact Hready].
Defined.

(** X12: only the opening of the device touches the gain.  A subscription
    that finds the capture device open changes the count and nothing else,
    so a gain set with [setInputGain] survives it; a subscription that
    opens the device (with a configuration and a driver that let it)
    overwrites the gain with the one of the settings, clamped to the
    current bounds. *)
Theorem subscribeInput_resets_gain_only_when_opening (env : Env) (s : Audio) :
  (forall dev, alInDev s = Some dev ->
     subscribeInput env s =
       Ok tt (set_inSubscriptions (N.succ (inSubscriptions s)) s)) /\
  (alInDev s = None -> capture_healthy env ->
     exists dev s',
       subscribeInput env s = Ok tt s' /\
       alInDev s' = Some dev /\
       inSubscriptions s' = N.succ (inSubscriptions s) /\
       inputGain (d s') =
         qBound PrimFloat.ltb (minInputGain (d s)) (getAudioInGain env)
                (maxInputGain (d s)) /\
       inputGainFactor (d s') =
         qPow env 10%float (inputGain (d s') / 20)%float).
Proof.
  split.
  - intros dev Hdev. apply wp_returns.
    unfold subscribeInput, autoInitInput. wp_run. split; reflexivity.
  - intros Hdev (Hnone & Hname & [dev Hopen] & _).
    exists dev. apply wp_elim_unit.
    unfold subscribeInput, autoInitInput, initInput, setInputGain.
    wp_run; try (rewrite Hopen in *; discriminate).
    all: repeat match goal with
                | H : alcCaptureOpenDevice _ _ = Some _ |- _ =>
                    rewrite Hopen in H; injection H as <-
                end.
    all: repeat split; reflexivity.
Qed.

Lemma subscribeInput_resets_gain_only_when_opening_witness :
  alInDev capturing = Some 7%N /\
  subscribeInput env0 capturing = Ok tt (set_inSubscriptions 2%N capturing) /\
  alInDev Audio_new = None /\ capture_healthy env0 /\
  exists dev s', subscribeInput env0 Audio_new = Ok tt s' /\
                 alInDev s' = Some dev.
Proof.
  assert (H1 : alInDev capturing = Some 7%N) by reflexivity.
  assert (H2 : alInDev Audio_new = None) by reflexivity.
  destruct (subscribeInput_resets_gain_only_when_opening env0 capturing)
    as [Hopen _].
  destruct (subscribeInput_resets_gain_only_when_opening env0 Audio_new)
    as [_ Hclosed].
  split; [exact H1|]. split; [exact (Hopen 7%N H1)|]. split; [exact H2|].
  split; [exact capture_healthy_env0|].
  destruct (Hclosed H2 capture_healthy_env0) as (dev & s' & Hrun & Hdev & _).
  exists dev, s'. split; [exact Hrun|exact Hdev].
Defined.

(** X13: after a failed close the stream is not restarted.  When the last
    subscriber leaves and the driver refuses to close the capture device,
    the stream has been stopped but the handle is kept.  The next
    [subscribeInput] finds the handle, so it opens nothing and starts
    nothing: the input counts as ready again, yet the last command the
    capture device has received is still [alcCaptureStop]. *)
Theorem resubscription_after_failed_close (env env' : Env) (s : Audio)
    (dev : ALCdevice) :
  alInDev s = Some dev -> inSubscriptions s = 1%N ->
  alcCaptureCloseDevice env dev = false ->
  exists s1 s2,
    unsubscribeInput env s = Ok tt s1 /\
    inSubscriptions s1 = 0%N /\ alInDev s1 = Some dev /\
    isInputReady s1 = false /\
    subscribeInput env' s1 = Ok tt s2 /\
    isInputReady s2 = true /\
    effects s2 =
      effects s ++ [AlcCaptureStop dev; AlcCaptureCloseDevice dev;
                    qWarning "Failed to close input"].
Proof.
  intros Hdev Hn Hclose.
  assert (H1 : unsubscribeInput env s =
               Ok tt (set_effects
                        (effects s ++ [AlcCaptureStop dev; AlcCaptureCloseDevice dev;
                                       qWarning "Failed to close input"])
                        (set_inSubscriptions 0%N s))).
  { apply wp_returns. unfold unsubscribeInput, cleanupInput.
    wp_run; try (rewrite Hn in *; discriminate).
    all: try congruence.
    all: split; [reflexivity|].
    all: unfold set_effects, set_inSubscriptions; simpl_state;
         rewrite <- !app_assoc, ?Hn; reflexivity. }
  eexists _, _. split; [exact H1|]. simpl_state.
  split; [reflexivity|]. split; [exact Hdev|].
  split; [unfold isInputReady; simpl_state; apply andb_false_r|].
  split.
  { apply wp_returns. unfold subscribeInput, autoInitInput. wp_run.
    split; reflexivity. }
  simpl_state. split; [|reflexivity].
  unfold isInputReady. simpl_state. rewrite Hdev.
  rewrite bool_decide_eq_true_2 by eauto. reflexivity.
Qed.

Lemma resubscription_after_failed_close_witness :
  alInDev capturing = Some 7%N /\ inSubscriptions capturing = 1%N /\
  alcCaptureCloseDevice env_stuck_mic 7%N = false /\
  exists s1 s2,
    unsubscribeInput env_stuck_mic capturing = Ok tt s1 /\
    subscribeInput env0 s1 = Ok tt s2 /\
    isInputReady s2 = true /\
    last (effects s2) = Some (qWarning "Failed to close input").
Proof.
  assert (H1 : alInDev capturing = Some 7%N) by reflexivity.
  assert (H2 : inSubscriptions capturing = 1%N) by reflexivity.
  assert (H3 : alcCaptureCloseDevice env_stuck_mic 7%N = false) by reflexivity.
  split; [exact H1|]. split; [exact H2|]. split; [exact H3|].
  destruct (resubscription_after_failed_close env_stuck_mic env0 capturing 7%N
              H1 H2 H3)
    as (s1 & s2 & Hun & _ & _ & _ & Hsub & Hready & Heff).
  exists s1, s2. split; [exact Hun|]. split; [exact Hsub|]. split; [exact Hready|].
  rewrite Heff. reflexivity.
Defined.

(** ** Playback session: opening *)

Lemma initOutput_wp (env : Env) (descr : string) (s : Audio) :
  String.eqb descr "none" = true \/ alOutDev s = None ->
  wp (initOutput env descr)
     (fun b s' =>
        isOutputReady s' = b /\ outputInitialized s' = b /\ outSources s' = [] /\
        alMainBuffer s' = alMainBuffer s /\
        al_buffers (openal s') = al_buffers (openal s) /\
        (b = true ->
           String.eqb descr "none" = false /\
           (exists dev, alOutDev s' = Some dev /\
                        alOutContext s' = alcCreateContext env dev) /\
           alcMakeContextCurrent env (alOutContext s') = true /\
           openal s' =
             (alGenSources (alMainSource s)
                (makeCurrent (alOutContext s') (openal s))).2 /\
           alMainSource s' =
             (alGenSources (alMainSource s)
                (makeCurrent (alOutContext s') (openal s))).1) /\
        (b = false -> openal s' = openal s /\ alMainSource s' = alMainSource s)) s.
Proof.
  intros Hcase. unfold initOutput, isOutputReady.
  wp_run.
  all: try (destruct Hcase as [C|C]; [discriminate C|];
            rewrite C in *; discriminate).
  all: simpl_state.
  all: repeat match goal with
              | |- context [bool_decide (is_Some (Some ?x))] =>
                  rewrite (bool_decide_eq_true_2 (is_Some (Some x))) by eauto
              end.
  all: rewrite ?andb_false_r; cbn [andb].
  all: split; [reflexivity|]; split; [reflexivity|]; split; [reflexivity|];
       split; [reflexivity|].
  all: split; [try reflexivity|].
  all: try (destruct (alcCreateContext _ _), (openal s) as [[m|] b l];
            reflexivity).
  all: split; intros Hb; try discriminate Hb.
  all: try (split; reflexivity).
  all: split; [reflexivity|]; split; [eauto|]; split; [assumption|];
       split; reflexivity.
Qed.

(** What [initOutput] leaves in OpenAL when it answers [true]: with a
    context, one more source; without one, no source at all. *)
Lemma initOutput_sources (ctx : option ALCcontext) (main : ALuint) (w : OpenAL) :
  match ctx with
  | Some _ =>
      al_sources (alGenSources main (makeCurrent ctx w)).2 =
        <[N.succ (al_last w) := Source_new]> (al_sources w) /\
      (alGenSources main (makeCurrent ctx w)).1 = N.succ (al_last w)
  | None =>
      al_sources (alGenSources main (makeCurrent ctx w)).2 = ∅ /\
      (alGenSources main (makeCurrent ctx w)).1 = main /\
      al_last (alGenSources main (makeCurrent ctx w)).2 = al_last w
  end.
Proof.
  destruct ctx, w as [[m|] b l]; cbn; repeat split; reflexivity.
Qed.

(** X14: the result of [initOutput] is the readiness of the output.  The
    call first forgets every voice and marks the session uninitialized.
    Asked for a device other than "none" while a playback device is still
    open, it fails [assert(!alOutDev)] and does not return.  Otherwise it
    returns, and its result is [isOutputReady()] afterwards.  It is [true]
    when the device is open and the driver has accepted the context that it
    created for the device; the dedicated voice is then a fresh source, if
    the driver did create a context.  If it created none and accepted to
    make "no context" current, the result is [true] all the same, with no
    source in OpenAL and the name of the dedicated voice left as it was.
    It is [false] with OpenAL untouched (the device is "none", it did not
    open, or its context was refused).  The voice set is empty afterwards
    in every case. *)
Theorem initOutput_result_is_readiness (env : Env) (descr : string) (s : Audio) :
  (String.eqb descr "none" = false -> is_Some (alOutDev s) ->
     initOutput env descr s = Abort AssertionFailed) /\
  (String.eqb descr "none" = true \/ alOutDev s = None ->
     exists b s',
       initOutput env descr s = Ok b s' /\
       isOutputReady s' = b /\ outputInitialized s' = b /\ outSources s' = [] /\
       (b = true ->
          String.eqb descr "none" = false /\
          (exists dev, alOutDev s' = Some dev /\
                       alOutContext s' = alcCreateContext env dev) /\
          alcMakeContextCurrent env (alOutContext s') = true /\
          match alOutContext s' with
          | Some _ =>
              al_sources (openal s') =
                <[alMainSource s' := Source_new]> (al_sources (openal s)) /\
              alMainSource s' = N.succ (al_last (openal s)) /\
              alIsSource (alMainSource s') (openal s') = true
          | None =>
              al_sources (openal s') = ∅ /\
              alMainSource s' = alMainSource s /\
              al_last (openal s') = al_last (openal s) /\
              alIsSource (alMainSource s') (openal s') = false
          end) /\
       (b = false -> openal s' = openal s /\ alMainSource s' = alMainSource s)).
Proof.
  split.
  - intros Hd [dev Hdev].
    unfold initOutput, mbind, M_bind, modify, gets, assert, abort.
    rewrite Hd. simpl_state. rewrite Hdev. reflexivity.
  - intros Hcase.
    destruct (wp_elim _ _ _ (initOutput_wp env descr s Hcase))
      as (b & s' & Hrun & H1 & H2 & H3 & _ & _ & H5 & H6).
    exists b, s'. split; [exact Hrun|]. split; [exact H1|]. split; [exact H2|].
    split; [exact H3|]. split; [|exact H6].
    intros Hb. destruct (H5 Hb) as (Hd & Hdev & Hctx & Hw & Hmain).
    split; [exact Hd|]. split; [exact Hdev|]. split; [exact Hctx|].
    pose proof (initOutput_sources (alOutContext s') (alMainSource s) (openal s))
      as Hs.
    rewrite <- Hw, <- Hmain in Hs.
    destruct (alOutContext s').
    + destruct Hs as [Hs Hn]. rewrite Hn. split; [exact Hs|].
      split; [reflexivity|]. apply alIsSource_true. rewrite Hs.
      rewrite lookup_insert_eq. eauto.
    + destruct Hs as (Hs & Hn & Hl). split; [exact Hs|]. split; [exact Hn|].
      split; [exact Hl|]. apply alIsSource_false. rewrite Hs. apply lookup_empty.
Qed.

Lemma initOutput_result_is_readiness_witness :
  String.eqb "speakers" "none" = false /\
  is_Some (alOutDev output_open) /\
  initOutput env0 "speakers" output_open = Abort AssertionFailed /\
  alOutDev Audio_new = None /\
  (exists s', initOutput env0 "speakers" Audio_new = Ok true s' /\
              isOutputReady s' = true /\
              alIsSource (alMainSource s') (openal s') = true) /\
  (exists s', initOutput env_no_context "speakers" Audio_new = Ok true s' /\
              isOutputReady s' = true /\
              al_sources (openal s') = ∅).
Proof.
  assert (H1 : String.eqb "speakers" "none" = false) by reflexivity.
  assert (H2 : is_Some (alOutDev output_open)) by (vm_compute; eauto).
  assert (H3 : alOutDev Audio_new = None) by reflexivity.
  split; [exact H1|]. split; [exact H2|].
  split; [exact (proj1 (initOutput_result_is_readiness env0 "speakers" output_open)
                   H1 H2)|].
  split; [exact H3|]. split.
  - destruct (proj2 (initOutput_result_is_readiness env0 "speakers" Audio_new)
                (or_intror H3)) as (b & s' & Hrun & Hready & _ & _ & Htrue & _).
    assert (E : exists s0, initOutput env0 "speakers" Audio_new = Ok true s0 /\
                           alOutContext s0 = Some 9%N)
      by (eexists; split; vm_compute; reflexivity).
    destruct E as (s0 & E & Hctx). rewrite E in Hrun.
    apply Ok_inj in Hrun as [<- <-].
    destruct (Htrue eq_refl) as (_ & _ & _ & Hm). rewrite Hctx in Hm.
    exists s0. split; [exact E|]. split; [exact Hready|apply Hm].
  - destruct (proj2 (initOutput_result_is_readiness env_no_context "speakers"
                       Audio_new) (or_intror H3))
      as (b & s' & Hrun & Hready & _ & _ & Htrue & _).
    assert (E : exists s0, initOutput env_no_context "speakers" Audio_new
                           = Ok true s0 /\ alOutContext s0 = None)
      by (eexists; split; vm_compute; reflexivity).
    destruct E as (s0 & E & Hctx). rewrite E in Hrun.
    apply Ok_inj in Hrun as [<- <-].
    destruct (Htrue eq_refl) as (_ & _ & _ & Hm). rewrite Hctx in Hm.
    exists s0. split; [exact E|]. split; [exact Hready|apply Hm].
Defined.

(** ** Playback queue: frames without a target, and isolation of voices *)

Lemma playAudioBuffer_no_target (env : Env) (sid : ALuint) (data : list Z)
    (samples channels rate : Z) (s : Audio) :
  (channels =? 1) || (channels =? 2) = true ->
  isOutputReady s = false \/ al_sources (openal s) !! sid = None ->
  playAudioBuffer env sid data samples channels rate s = Ok tt s.
Proof.
  intros Hch Hcase. apply wp_returns. unfold playAudioBuffer, isOutputReady in *.
  apply wpg_bind. unfold assert. rewrite Hch. apply wpg_ret.
  apply wpg_bind, wpg_gets. apply wpg_bind, wpg_gets. cbv beta.
  destruct (bool_decide (is_Some (alOutDev s)) && outputInitialized s) eqn:Hready;
    cbn [negb]; [|split; reflexivity].
  destruct Hcase as [C|Hsrc]; [discriminate C|].
  apply wpg_bind, wpg_gets. cbv beta zeta. rewrite Hsrc. cbn [from_option].
  apply wpg_bind. unfold al. apply wpg_modify. cbn [Nat.eqb negb Nat.ltb Nat.leb].
  apply wpg_ret. split; [reflexivity|].
  unfold alSourcei_LOOPING. rewrite alter_absent by exact Hsrc.
  apply set_openal_same.
Qed.

(** X15: a frame without a target is dropped in silence.  With one or two
    channels, [playAudioBuffer] returns the state unchanged when the output
    is not ready, and also when the source name is not a valid source (the
    locals [processed = 0] and [queued = 16] keep their initial values, so
    the call takes the branch of the full queue).  With any other channel
    count the call fails its assertion, before it looks at anything. *)
Theorem playAudioBuffer_without_target (env : Env) (sid : ALuint) (data : list Z)
    (samples channels rate : Z) (s : Audio) :
  ((channels =? 1) || (channels =? 2) = false ->
     playAudioBuffer env sid data samples channels rate s = Abort AssertionFailed) /\
  ((channels =? 1) || (channels =? 2) = true ->
     isOutputReady s = false \/ alIsSource sid (openal s) = false ->
     playAudioBuffer env sid data samples channels rate s = Ok tt s).
Proof.
  split.
  - intros Hch. unfold playAudioBuffer, mbind, M_bind, assert, abort.
    rewrite Hch. reflexivity.
  - intros Hch [Hready|Hsrc]; apply playAudioBuffer_no_target; auto.
    right. apply alIsSource_false. exact Hsrc.
Qed.

Lemma playAudioBuffer_abort (env : Env) (sid : ALuint) (data : list Z)
    (samples channels rate : Z) (s : Audio) (f : Failure) :
  (channels =? 1) || (channels =? 2) = true ->
  playAudioBuffer env sid data samples channels rate s = Abort f ->
  f = UndefinedBehaviour /\ frameBytes samples channels = None.
Proof.
  intros Hch.
  unfold playAudioBuffer, submitBuffer, getSourceState, assert, when, emit, al,
    abort, mbind, M_bind, modify, gets, mret, M_ret.
  rewrite Hch. simpl_state.
  destruct (frameBytes samples channels) eqn:Hb.
  - repeat (match goal with
            | |- context [match ?x with _ => _ end] =>
                lazymatch x with
                | context [match _ with _ => _ end] => fail
                | _ => destruct x eqn:?
                end
            end; simpl_state); discriminate.
  - repeat (match goal with
            | |- context [match ?x with _ => _ end] =>
                lazymatch x with
                | context [match _ with _ => _ end] => fail
                | _ => destruct x eqn:?
                end
            end; simpl_state);
      intros [= <-] || discriminate; split; reflexivity.
Qed.

Lemma playAudioBuffer_one_voice (env : Env) (sid : ALuint)
    (data : list Z) (samples channels rate : Z) (s : Audio) :
  (channels =? 1) || (channels =? 2) = true ->
  wpg (frameBytes samples channels = None)
      (playAudioBuffer env sid data samples channels rate)
      (fun _ s' =>
         s' = set_openal (openal s') s /\
         (forall sid', sid' <> sid ->
            al_sources (openal s') !! sid' = al_sources (openal s) !! sid') /\
         (al_last (openal s) <= al_last (openal s'))%N) s.
Proof.
  intros Hch.
  unfold playAudioBuffer, submitBuffer, getSourceState.
  wp_run; try discriminate; try reflexivity.
  all: split; [rewrite ?set_openal_twice; try reflexivity;
               symmetry; apply set_openal_same|].
  all: split; [intros sid' Hne|].
  all: unfold alSourcePlay, alSourceQueueBuffers, alSourceUnqueueBuffers,
         alSourcei_LOOPING.
  all: repeat first [ rewrite al_sources_alter
                    | rewrite al_sources_alBufferData
                    | rewrite al_sources_alDeleteBuffers
                    | rewrite al_sources_alGenBuffers
                    | rewrite al_last_on_sources
                    | rewrite al_last_alBufferData
                    | rewrite al_last_alDeleteBuffers ].
  all: rewrite ?lookup_alter_ne by congruence; try reflexivity.
  all: try (etransitivity; [|apply al_last_alGenBuffers];
            rewrite al_last_on_sources; reflexivity).
  all: try lia.
Qed.

(** X16: a submission touches one voice only.  With one or two channels
    [playAudioBuffer] returns whenever the byte count of the frame is
    defined; it then changes no member of the object, only OpenAL state,
    and there no source other than the one it is given: every other voice
    keeps its queue, its play state and its flags.  The only way it does
    not return is the overflow of [samples * 2], which is undefined. *)
Theorem playAudioBuffer_touches_one_voice (env : Env) (sid : ALuint)
    (data : list Z) (samples channels rate : Z) (s : Audio) :
  (channels =? 1) || (channels =? 2) = true ->
  match playAudioBuffer env sid data samples channels rate s with
  | Ok _ s' =>
      s' = set_openal (openal s') s /\
      (forall sid', sid' <> sid ->
         al_sources (openal s') !! sid' = al_sources (openal s) !! sid') /\
      (al_last (openal s) <= al_last (openal s'))%N
  | Abort f => f = UndefinedBehaviour /\ frameBytes samples channels = None
  end /\
  (is_Some (frameBytes samples channels) ->
   exists s', playAudioBuffer env sid data samples channels rate s = Ok tt s').
Proof.
  intros Hch.
  pose proof (playAudioBuffer_one_voice env sid data samples channels rate s Hch)
    as W.
  pose proof (playAudioBuffer_abort env sid data samples channels rate s) as Hab.
  unfold wpg in W.
  destruct (playAudioBuffer env sid data samples channels rate s) as [[] s'|f].
  - split; [exact W|]. intros _. exists s'. reflexivity.
  - split; [exact (Hab f Hch eq_refl)|].
    intros [bytes Hb]. rewrite Hb in W. discriminate W.
Qed.

Lemma playAudioBuffer_touches_one_voice_witness :
  (1 =? 1) || (1 =? 2) = true /\
  is_Some (frameBytes 1 1) /\
  (exists s',
     playAudioBuffer env0 2%N [1; 2] 1 1 48000 one_voice_state = Ok tt s' /\
     al_sources (openal s') !! 1%N = al_sources (openal one_voice_state) !! 1%N) /\
  playAudioBuffer env0 2%N [1; 2] 1073741824 1 48000 one_voice_state
    = Abort UndefinedBehaviour.
Proof.
  assert (H : (1 =? 1) || (1 =? 2) = true) by reflexivity.
  assert (Hb : is_Some (frameBytes 1 1)) by (vm_compute; eauto).
  split; [exact H|]. split; [exact Hb|]. split.
  - pose proof (playAudioBuffer_touches_one_voice env0 2%N [1; 2] 1 1 48000
                  one_voice_state H) as [Hm Hret].
    destruct (Hret Hb) as [s' Hrun]. rewrite Hrun in Hm.
    destruct Hm as (_ & Hother & _).
    exists s'. split; [exact Hrun|]. apply Hother. discriminate.
  - pose proof (playAudioBuffer_touches_one_voice env0 2%N [1; 2] 1073741824 1
                  48000 one_voice_state H) as [Hm _].
    destruct (playAudioBuffer env0 2%N [1; 2] 1073741824 1 48000 one_voice_state)
      as [[] s'|f] eqn:E.
    + exfalso. vm_compute in E. discriminate E.
    + destruct Hm as [-> _]. reflexivity.
Defined.

Lemma playAudioBuffer_without_target_witness :
  (3 =? 1) || (3 =? 2) = false /\
  playAudioBuffer env0 2%N [1; 2] 1 3 48000 one_voice_state = Abort AssertionFailed /\
  (2 =? 1) || (2 =? 2) = true /\
  isOutputReady Audio_new = false /\
  playAudioBuffer env0 2%N [1; 2] 1 2 48000 Audio_new = Ok tt Audio_new.
Proof.
  assert (H1 : (3 =? 1) || (3 =? 2) = false) by reflexivity.
  assert (H2 : (2 =? 1) || (2 =? 2) = true) by reflexivity.
  assert (H3 : isOutputReady Audio_new = false) by reflexivity.
  split; [exact H1|].
  split; [exact (proj1 (playAudioBuffer_without_target env0 2%N [1; 2] 1 3 48000
                          one_voice_state) H1)|].
  split; [exact H2|]. split; [exact H3|].
  exact (proj2 (playAudioBuffer_without_target env0 2%N [1; 2] 1 2 48000 Audio_new)
           H2 (or_introl H3)).
Defined.

(** ** Playback session: changing the device *)

(** The buffers that the teardown leaves. *)
Lemma cleanupOutput_buffers (env : Env) (s : Audio) :
  wp (cleanupOutput env)
     (fun _ s' =>
        al_buffers (openal s') =
          match alOutDev s with
          | None => al_buffers (openal s)
          | Some _ =>
              if (alMainBuffer s =? 0)%N then al_buffers (openal s)
              else
                al_buffers
                  (alDeleteBuffers [alMainBuffer s]
                     (alDeleteSources (alMainSource s)
                        (alSourceStop (alMainSource s)
                           (alSourcei_LOOPING (alMainSource s) false
                              (openal s)))))
          end) s.
Proof.
  unfold cleanupOutput. wp_run.
  all: unfold alcDestroyContext, makeCurrent; cbn [al_buffers].
  all: try reflexivity.
  all: try (destruct (al_context _); reflexivity).
Qed.

(** With a context current, the teardown deletes a buffer that only the
    dedicated voice uses. *)
Lemma teardown_frees (main mb : ALuint) (w : OpenAL) :
  is_Some (al_context w) -> buffer_private_to mb main w ->
  al_buffers
    (alDeleteBuffers [mb]
       (alDeleteSources main
          (alSourceStop main (alSourcei_LOOPING main false w)))) =
  delete mb (al_buffers w).
Proof.
  intros [m Hm] Hpriv.
  set (w1 := alDeleteSources main _).
  assert (Hfree : buffer_in_use mb w1 = false).
  { apply buffer_in_use_false. intros sid src Hsrc. subst w1.
    unfold alDeleteSources, alSourceStop, alSourcei_LOOPING in Hsrc.
    rewrite al_sources_delete, !al_sources_alter in Hsrc.
    apply lookup_delete_Some in Hsrc as [Hne Hsrc].
    rewrite !lookup_alter_ne in Hsrc by exact Hne.
    destruct (Hpriv sid src Hsrc) as [H1 H2].
    apply uses_buffer_false. right. split; [|exact H1].
    intros Hatt. apply Hne. symmetry. exact (H2 Hatt). }
  rewrite alDeleteBuffers_free; [reflexivity| |exact Hfree].
  subst w1. unfold alDeleteSources, alSourceStop, alSourcei_LOOPING.
  repeat apply context_on_sources. eauto.
Qed.

(** X17: changing the playback device forgets every voice.  With the
    playback device open and a driver that closes it, [reinitOutput]
    returns whether the new output is ready; afterwards the voice set is
    empty and the only source left in OpenAL is the new dedicated voice
    (none at all if the output did not come up, or came up without a
    context).  The member that names the one-shot buffer is [0]; the buffer
    itself is deleted in OpenAL when a context was current and no voice
    other than the dedicated one used it, and no other buffer is touched.
    So a frame submitted for any voice subscribed before the change is
    dropped in silence until that voice subscribes again. *)
Theorem reinitOutput_forgets_voices (env : Env) (descr : string) (s : Audio)
    (dev : ALCdevice) :
  alOutDev s = Some dev -> alcCloseDevice env dev = true ->
  exists b s',
    reinitOutput env descr s = Ok b s' /\
    isOutputReady s' = b /\ outSources s' = [] /\ alMainBuffer s' = 0%N /\
    al_sources (openal s') =
      (if b then
         match alOutContext s' with
         | Some _ => {[alMainSource s' := Source_new]}
         | None => ∅
         end
       else ∅) /\
    (alMainBuffer s = 0%N -> al_buffers (openal s') = al_buffers (openal s)) /\
    (is_Some (al_context (openal s)) ->
     buffer_private_to (alMainBuffer s) (alMainSource s) (openal s) ->
     alMainBuffer s <> 0%N ->
     al_buffers (openal s') = delete (alMainBuffer s) (al_buffers (openal s))) /\
    (forall env' sid data samples channels rate,
       (channels =? 1) || (channels =? 2) = true -> sid <> alMainSource s' ->
       playAudioBuffer env' sid data samples channels rate s' = Ok tt s').
Proof.
  intros Hdev Hclose.
  pose proof (cleanupOutput_buffers env s) as Wb. unfold wpg in Wb.
  destruct (wp_elim _ _ _ (cleanupOutput_wp env s))
    as ([] & s1 & Hrun1 & _ & _ & _ & Hopen).
  rewrite Hrun1, Hdev in Wb.
  destruct (Hopen dev Hdev) as (Hbuf1 & _ & Hsrc1 & Hdev1).
  rewrite Hclose in Hdev1.
  destruct (wp_elim _ _ _ (initOutput_wp env descr s1 (or_intror Hdev1)))
    as (b & s' & Hrun2 & Hready & _ & Hvoices & Hbuf & Hbufs & Hup & Hdown).
  assert (Hsrc : al_sources (openal s') =
                 (if b then
                    match alOutContext s' with
                    | Some _ => {[alMainSource s' := Source_new]}
                    | None => ∅
                    end
                  else ∅)).
  { destruct b.
    - destruct (Hup eq_refl) as (_ & _ & _ & Hw & Hmain).
      pose proof (initOutput_sources (alOutContext s') (alMainSource s1)
                    (openal s1)) as Hs.
      rewrite <- Hw, <- Hmain in Hs.
      destruct (alOutContext s').
      + destruct Hs as [Hs Hn]. rewrite Hs, Hn, Hsrc1. reflexivity.
      + apply Hs.
    - destruct (Hdown eq_refl) as [-> _]. exact Hsrc1. }
  exists b, s'. split.
  { unfold reinitOutput, mbind, M_bind. rewrite Hrun1. exact Hrun2. }
  split; [exact Hready|]. split; [exact Hvoices|].
  split; [congruence|]. split; [exact Hsrc|].
  split.
  { intros H0. rewrite Hbufs, Wb, H0. reflexivity. }
  split.
  { intros Hctx Hpriv H0. rewrite Hbufs, Wb.
    apply N.eqb_neq in H0. rewrite H0.
    apply teardown_frees; assumption. }
  intros env' sid data samples channels rate Hch Hne.
  apply playAudioBuffer_no_target; [exact Hch|]. right.
  rewrite Hsrc. destruct b; [|apply lookup_empty].
  destruct (alOutContext s'); [|apply lookup_empty].
  apply lookup_singleton_ne. congruence.
Qed.

Lemma reinitOutput_forgets_voices_witness :
  alOutDev one_voice_state = Some 8%N /\ alcCloseDevice env0 8%N = true /\
  outSources one_voice_state = [2%N] /\
  (exists s',
     reinitOutput env0 "speakers" one_voice_state = Ok true s' /\
     outSources s' = [] /\
     playAudioBuffer env0 2%N [1; 2] 1 1 48000 s' = Ok tt s') /\
  alOutDev clip_playing = Some 8%N /\
  is_Some (al_context (openal clip_playing)) /\
  buffer_private_to (alMainBuffer clip_playing) (alMainSource clip_playing)
    (openal clip_playing) /\
  alMainBuffer clip_playing = 2%N /\
  is_Some (al_buffers (openal clip_playing) !! 2%N) /\
  exists s',
    reinitOutput env0 "speakers" clip_playing = Ok true s' /\
    al_buffers (openal s') !! 2%N = None.
Proof.
  assert (H1 : alOutDev one_voice_state = Some 8%N) by (vm_compute; reflexivity).
  assert (H2 : alcCloseDevice env0 8%N = true) by reflexivity.
  assert (H3 : alOutDev clip_playing = Some 8%N) by (vm_compute; reflexivity).
  assert (H4 : is_Some (al_context (openal clip_playing)))
    by (vm_compute; eauto).
  assert (H5 : buffer_private_to (alMainBuffer clip_playing)
                 (alMainSource clip_playing) (openal clip_playing))
    by (apply (bool_decide_unpack _); vm_compute; exact I).
  assert (H6 : alMainBuffer clip_playing = 2%N) by (vm_compute; reflexivity).
  assert (H7 : alMainBuffer clip_playing <> 0%N) by (rewrite H6; discriminate).
  split; [exact H1|]. split; [exact H2|].
  split; [vm_compute; reflexivity|]. split.
  - destruct (reinitOutput_forgets_voices env0 "speakers" one_voice_state 8%N H1 H2)
      as (b & s' & Hrun & _ & Hvoices & _ & _ & _ & _ & Hdrop).
    assert (E : exists s0, reinitOutput env0 "speakers" one_voice_state = Ok true s0
                           /\ alMainSource s0 = 3%N).
    { eexists. split; vm_compute; reflexivity. }
    destruct E as (s0 & E & Hmain). rewrite E in Hrun.
    apply Ok_inj in Hrun as [<- <-].
    exists s0. split; [exact E|]. split; [exact Hvoices|].
    apply Hdrop; [reflexivity|]. rewrite Hmain. discriminate.
  - split; [exact H3|]. split; [exact H4|]. split; [exact H5|].
    split; [exact H6|]. split; [vm_compute; eauto|].
    destruct (reinitOutput_forgets_voices env0 "speakers" clip_playing 8%N H3 H2)
      as (b & s' & Hrun & _ & _ & _ & _ & _ & Hfree & _).
    assert (E : exists s0, reinitOutput env0 "speakers" clip_playing = Ok true s0).
    { eexists. vm_compute. reflexivity. }
    destruct E as (s0 & E). rewrite E in Hrun.
    apply Ok_inj in Hrun as [<- <-].
    exists s0. split; [exact E|]. rewrite (Hfree H4 H5 H7), H6.
    apply lookup_delete_eq.
Defined.

(** ** The set of voices *)





















Lemma removeAll_spec (sid x : ALuint) (l : list ALuint) :
  x ∈ removeAll sid l <-> x ∈ l /\ x <> sid.
Proof.
  unfold removeAll. rewrite !list_elem_of_In, filter_In.
  rewrite negb_true_iff, N.eqb_neq. reflexivity.
Qed.















Lemma cleanupOutput_absent (env : Env) (sid : ALuint) (s : Audio) :
  al_sources (openal s) !! sid = None ->
  wp (cleanupOutput env)
     (fun _ s' => al_sources (openal s') !! sid = None) s.
Proof.
  intros Habs. unfold cleanupOutput. wp_run.
  all: rewrite ?al_sources_alcDestroyContext; try apply lookup_empty.
  all: exact Habs.
Qed.

Lemma removeAll_id (sid : ALuint) (l : list ALuint) :
  sid ∉ l -> removeAll sid l = l.
Proof.
  intros Hnot. unfold removeAll. induction l as [|x l IH]; [reflexivity|]. cbn.
  apply not_elem_of_cons in Hnot as [Hne Hnot].
  destruct (N.eqb_spec x sid) as [->|_]; [contradiction|]. cbn.
  f_equal. apply IH. exact Hnot.
Qed.

(** X20: [unsubscribeOutput] retires the name it is given.  The call
    always returns, with the caller's variable set to [0]; afterwards the
    name is not in the voice set, and if it was not [0] it does not name a
    source any more (it was deleted, or it never was one and a warning is
    logged).  Called again with the zeroed variable while other voices
    remain, it changes nothing. *)
Theorem unsubscribeOutput_retires_the_name (env : Env) (sid : ALuint) (s : Audio) :
  exists s',
    unsubscribeOutput env sid s = Ok 0%N s' /\
    (sid ∉ outSources s') /\
    (sid <> 0%N -> alIsSource sid (openal s') = false) /\
    (alIsSource sid (openal s) = false -> sid <> 0%N ->
       last (effects (afterVoiceRemoval sid s)) =
         Some (qWarning "Trying to delete invalid audio source")) /\
    (forall env', outSources s' <> [] -> 0%N ∉ outSources s ->
       unsubscribeOutput env' 0%N s' = Ok 0%N s').
Proof.
  destruct (unsubscribeOutput_cases env sid s)
    as (s' & Hrun & Hvoices & Hdown & Hkeep).
  exists s'. split; [exact Hrun|].
  assert (Hnot : sid ∉ outSources s').
  { rewrite Hvoices. intros Hin. apply removeAll_spec in Hin as [_ C].
    contradiction. }
  split; [exact Hnot|].
  assert (Hgone : sid <> 0%N ->
                  al_sources (openal (afterVoiceRemoval sid s)) !! sid = None).
  { intros H0. exact (proj1 (proj2 (proj2 (proj2
                        (afterVoiceRemoval_openal sid s)))) H0). }
  split.
  { intros H0. apply alIsSource_false. specialize (Hgone H0).
    destruct (decide (removeAll sid (outSources s) = [])) as [E|E].
    - destruct (Hdown E) as (Hclean & _).
      pose proof (cleanupOutput_absent env sid _ Hgone) as W.
      unfold wpg in W. rewrite Hclean in W. exact W.
    - destruct (Hkeep E) as (-> & _). exact Hgone. }
  split.
  { intros Hsrc H0. apply N.eqb_neq in H0. unfold afterVoiceRemoval.
    rewrite H0. simpl_state. rewrite Hsrc. simpl_state. apply last_snoc. }
  intros env' Hne H0.
  assert (H0' : 0%N ∉ outSources s').
  { rewrite Hvoices. intros Hin. apply removeAll_spec in Hin as [Hin _].
    contradiction. }
  rewrite unsubscribeOutput_unfold.
  pose proof (removeAll_id 0%N _ H0') as Hrem.
  unfold ALuint in *. rewrite Hrem.
  rewrite bool_decide_eq_false_2 by exact Hne.
  unfold afterVoiceRemoval. cbn [N.eqb]. rewrite Hrem.
  destruct s'; reflexivity.
Qed.

Lemma unsubscribeOutput_retires_the_name_witness :
  2%N <> 0%N /\
  exists s',
    unsubscribeOutput env0 2%N one_voice_state = Ok 0%N s' /\
    alIsSource 2%N (openal s') = false.
Proof.
  assert (H : 2%N <> 0%N) by discriminate.
  split; [exact H|].
  destruct (unsubscribeOutput_retires_the_name env0 2%N one_voice_state)
    as (s' & Hrun & _ & Hgone & _).
  exists s'. split; [exact Hrun|exact (Hgone H)].
Defined.







(** ** One-shot player: clip length, unavailable output, looping *)

Lemma durationMs_bounds (data : list Byte.byte) :
  88200 * durationMs data <= 1000 * Z.of_nat (length data)
    < 88200 * (durationMs data + 1).
Proof.
  unfold durationMs.
  set (n := Z.of_nat (length data)). assert (0 <= n) by (subst n; lia).
  rewrite (Z.quot_div_nonneg (n * 1000) 2) by lia.
  assert (0 <= n * 1000 / 2) by (apply Z.div_pos; lia).
  rewrite Z.quot_div_nonneg by lia.
  rewrite Z.div_div by lia. change (2 * 44100) with 88200.
  pose proof (Z.div_mod (n * 1000) 88200 ltac:(lia)).
  pose proof (Z.mod_pos_bound (n * 1000) 88200 ltac:(lia)). lia.
Qed.

(** X22: the length of a clip that [playMono16Sound] can take.  With the
    playback device open, the call multiplies the byte count by 1000 in
    [int]: beyond 2147483 bytes (about 24 seconds of sound) that overflows,
    which is undefined behaviour.  Up to that length the call returns and
    arms the single-shot timer for [size * 1000 / 2 / 44100 + 50]
    milliseconds, which is never before the end of the clip: at 88.2 bytes
    per millisecond the deadline falls at least 49 ms and at most 50 ms
    after the last sample.  The shared buffer keeps its name if it has
    one; otherwise it gets a new name when a context is current, and none
    (the member stays [0]) when there is no context. *)
Theorem playMono16Sound_clip_length (env : Env) (data : list Byte.byte)
    (s : Audio) (dev : ALCdevice) :
  alOutDev s = Some dev ->
  let size := Z.of_nat (length data) in
  (2147483 < size -> playMono16Sound env data s = Abort UndefinedBehaviour) /\
  (size <= 2147483 ->
     exists s' deadline,
       playMono16Sound env data s = Ok tt s' /\
       playMono16Timer s' = Some deadline /\
       alMainBuffer s' =
         (if (alMainBuffer s =? 0)%N then
            match al_context (openal s) with
            | Some _ => N.succ (al_last (openal s))
            | None => 0%N
            end
          else alMainBuffer s) /\
       88200 * (deadline - now env - 50) <= 1000 * size
         < 88200 * (deadline - now env - 49)).
Proof.
  intros Hdev size. subst size. split.
  - intros Hbig.
    assert (E : (INT_MAX <? Z.of_nat (length data) * 1000) = true)
      by (apply Z.ltb_lt; unfold INT_MAX; lia).
    unfold playMono16Sound, autoInitOutput, getSourceState.
    unfold mbind, M_bind, gets, modify, when, al, abort, mret, M_ret.
    rewrite Hdev. simpl_state.
    destruct (alMainBuffer s =? 0)%N; simpl_state;
      repeat match goal with
             | |- context [SourceState_eqb ?a ?b] => destruct (SourceState_eqb a b)
             end; simpl_state; rewrite E; reflexivity.
  - intros Hsmall.
    assert (E : (INT_MAX <? Z.of_nat (length data) * 1000) = false)
      by (apply Z.ltb_ge; unfold INT_MAX; lia).
    exists (final (playMono16Sound env data s) : Audio),
           (now env + (durationMs data + 50)).
    pose proof (durationMs_bounds data) as Hd.
    assert (W : wp (playMono16Sound env data)
                  (fun _ s' =>
                     playMono16Timer s' = Some (now env + (durationMs data + 50)) /\
                     alMainBuffer s' =
                       (if (alMainBuffer s =? 0)%N then
                          match al_context (openal s) with
                          | Some _ => N.succ (al_last (openal s))
                          | None => 0%N
                          end
                        else alMainBuffer s)) s).
    { unfold playMono16Sound, autoInitOutput, getSourceState. wp_run.
      all: split; [reflexivity|].
      all: repeat match goal with
                  | H : (_ =? 0)%N = true |- _ => apply N.eqb_eq in H
                  end.
      all: rewrite ?alGenBuffers_name.
      all: try match goal with
               | H : alMainBuffer _ = 0%N |- _ => rewrite H
               end.
      all: reflexivity. }
    destruct (wp_elim _ _ _ W) as ([] & s' & Hrun & Ht & Hb).
    rewrite Hrun. cbn [final]. repeat split; try assumption; lia.
Qed.

Lemma playMono16Sound_clip_length_witness :
  alOutDev output_open = Some 8%N /\
  Z.of_nat (length [Byte.x61; Byte.x62]) <= 2147483 /\
  (exists s',
     playMono16Sound env0 [Byte.x61; Byte.x62] output_open = Ok tt s' /\
     playMono16Timer s' = Some 50 /\ alMainBuffer s' = 2%N) /\
  alOutDev no_context_session = Some 8%N /\
  exists s',
    playMono16Sound env0 [Byte.x61; Byte.x62] no_context_session = Ok tt s' /\
    alMainBuffer s' = 0%N.
Proof.
  assert (H1 : alOutDev output_open = Some 8%N) by (vm_compute; reflexivity).
  assert (H2 : Z.of_nat (length [Byte.x61; Byte.x62]) <= 2147483)
    by (vm_compute; discriminate).
  assert (H3 : alOutDev no_context_session = Some 8%N)
    by (vm_compute; reflexivity).
  split; [exact H1|]. split; [exact H2|]. split.
  - destruct (proj2 (playMono16Sound_clip_length env0 [Byte.x61; Byte.x62]
                       output_open 8%N H1) H2)
      as (s' & deadline & Hrun & Ht & Hb & Hlo & Hhi).
    exists s'. split; [exact Hrun|]. split.
    + rewrite Ht. f_equal.
      change (now env0) with 0 in *.
      change (Z.of_nat (length [Byte.x61; Byte.x62])) with 2 in *. lia.
    + rewrite Hb. vm_compute. reflexivity.
  - split; [exact H3|].
    destruct (proj2 (playMono16Sound_clip_length env0 [Byte.x61; Byte.x62]
                       no_context_session 8%N H3) H2)
      as (s' & deadline & Hrun & _ & Hb & _).
    exists s'. split; [exact Hrun|]. rewrite Hb. vm_compute. reflexivity.
Defined.

(** X23: a notification on an output that does not come up leaves nothing
    behind.  With the playback device closed and a configuration or a
    driver that keeps the session from coming up, [playMono16Sound]
    returns for a clip of any length without generating a buffer, without
    touching OpenAL and without arming the timer; the output is not ready
    afterwards. *)
Theorem playMono16Sound_unavailable_output (env : Env) (data : list Byte.byte)
    (s : Audio) :
  alOutDev s = None -> playback_unavailable env ->
  exists s',
    playMono16Sound env data s = Ok tt s' /\
    alMainBuffer s' = alMainBuffer s /\
    playMono16Timer s' = playMono16Timer s /\
    openal s' = openal s /\
    isOutputReady s' = false.
Proof.
  intros Hdev Hun. apply wp_elim_unit.
  unfold playMono16Sound, autoInitOutput, initOutput, isOutputReady.
  unfold playback_unavailable in Hun. cbv zeta in Hun.
  wp_run.
  all: try (rewrite Hdev in *; discriminate).
  all: simpl_state; rewrite ?andb_false_r.
  all: try (repeat split; reflexivity).
  all: exfalso; destruct Hun as [C | [C | [C | (dev & C1 & C2)]]];
    try congruence.
Qed.

Lemma playback_unavailable_env_no_speakers : playback_unavailable env_no_speakers.
Proof. right. left. reflexivity. Qed.

Lemma playMono16Sound_unavailable_output_witness :
  alOutDev Audio_new = None /\ playback_unavailable env_no_speakers /\
  exists s',
    playMono16Sound env_no_speakers [Byte.x61; Byte.x62] Audio_new = Ok tt s' /\
    alMainBuffer s' = 0%N /\ playMono16Timer s' = None.
Proof.
  assert (H : alOutDev Audio_new = None) by reflexivity.
  split; [exact H|]. split; [exact playback_unavailable_env_no_speakers|].
  destruct (playMono16Sound_unavailable_output env_no_speakers
              [Byte.x61; Byte.x62] Audio_new H
              playback_unavailable_env_no_speakers)
    as (s' & Hrun & Hbuf & Htimer & _).
  exists s'. split; [exact Hrun|]. split; [exact Hbuf|exact Htimer].
Defined.

Lemma on_sources_alter_id (f : Source -> Source) (sid : ALuint) (w : OpenAL) :
  (forall src, al_sources w !! sid = Some src -> f src = src) ->
  on_sources (alter f sid) w = w.
Proof.
  unfold on_sources, al_sources.
  destruct w as [[m|] b l]; cbn; intros H; [|reflexivity].
  rewrite alter_id; [reflexivity|exact H].
Qed.

Lemma stopLoop_unfold (s : Audio) :
  stopLoop s =
    Ok tt (set_openal
             (on_sources (alter (stop_source ∘ set_looping false) (alMainSource s))
                (openal s)) s).
Proof.
  unfold stopLoop, mbind, M_bind, gets, al, modify. simpl_state.
  unfold alSourceStop, alSourcei_LOOPING. rewrite on_sources_alter_alter.
  unfold set_openal; simpl_state. reflexivity.
Qed.

Lemma startLoop_unfold (s : Audio) :
  startLoop s =
    Ok tt (set_openal
             (on_sources (alter (set_looping true) (alMainSource s)) (openal s)) s).
Proof. reflexivity. Qed.

(** X24: [stopLoop] ends what [startLoop] began.  [startLoop] followed by
    [stopLoop] is the same as [stopLoop] alone, and [stopLoop] twice is
    the same as once.  After [stopLoop] the dedicated voice, when it
    exists, does not loop and does not play: it is stopped if it had been
    started and untouched otherwise, and its buffer stays attached.  No
    member of the object changes. *)
Theorem stopLoop_ends_the_loop (s : Audio) :
  (startLoop;; stopLoop) s = stopLoop s /\
  (stopLoop;; stopLoop) s = stopLoop s /\
  exists s',
    stopLoop s = Ok tt s' /\ s' = set_openal (openal s') s /\
    forall src, al_sources (openal s) !! alMainSource s = Some src ->
      exists src',
        al_sources (openal s') !! alMainSource s = Some src' /\
        src_looping src' = false /\ src_state src' <> AL_PLAYING /\
        src_buffer src' = src_buffer src /\
        src_state src' =
          match src_state src with AL_INITIAL => AL_INITIAL | _ => AL_STOPPED end.
Proof.
  split; [|split].
  - unfold mbind, M_bind. rewrite startLoop_unfold, !stopLoop_unfold.
    simpl_state. rewrite on_sources_alter_alter.
    unfold set_openal; simpl_state.
    rewrite (on_sources_alter_ext
               ((stop_source ∘ set_looping false) ∘ set_looping true)
               (stop_source ∘ set_looping false)); [reflexivity|].
    intros [q p b l st]. reflexivity.
  - unfold mbind, M_bind. rewrite !stopLoop_unfold.
    simpl_state. rewrite on_sources_alter_alter.
    unfold set_openal; simpl_state.
    rewrite (on_sources_alter_ext
               ((stop_source ∘ set_looping false) ∘ (stop_source ∘ set_looping false))
               (stop_source ∘ set_looping false)); [reflexivity|].
    intros [q p b l []]; reflexivity.
  - eexists. split; [apply stopLoop_unfold|].
    split; [unfold set_openal; simpl_state; reflexivity|].
    intros src Hsrc. simpl_state.
    rewrite al_sources_alter, lookup_alter_eq, Hsrc.
    cbn [fmap option_fmap option_map].
    eexists. split; [reflexivity|].
    destruct src as [q p b l []]; cbn; repeat split; congruence.
Qed.

Lemma stopLoop_ends_the_loop_witness :
  al_sources (openal clip_playing) !! alMainSource clip_playing =
    Some (mkSource [] 0 2%N false AL_PLAYING) /\
  exists s' src',
    stopLoop clip_playing = Ok tt s' /\
    al_sources (openal s') !! alMainSource clip_playing = Some src' /\
    src_state src' = AL_STOPPED.
Proof.
  assert (H : al_sources (openal clip_playing) !! alMainSource clip_playing =
              Some (mkSource [] 0 2%N false AL_PLAYING))
    by (vm_compute; reflexivity).
  split; [exact H|].
  destruct (stopLoop_ends_the_loop clip_playing) as (_ & _ & s' & Hrun & _ & Hsrc).
  destruct (Hsrc _ H) as (src' & Hlook & _ & _ & _ & Hstate).
  exists s', src'. split; [exact Hrun|]. split; [exact Hlook|exact Hstate].
Defined.

(** X25: a looped notification is not cleaned up by the timer.  A clip is
    started on the open playback device and [startLoop] is called.  The
    end of the clip then changes nothing (the voice starts over), and the
    timer event at the deadline finds the voice playing: it frees nothing
    and the single-shot timer is spent.  [stopLoop] stops the voice, but no
    timer is pending any more, so no later timer event frees the shared
    buffer: it stays allocated and attached until the next clip reuses it
    or the session is torn down. *)
Theorem looped_clip_is_not_cleaned_up (envP envT : Env) (data : list Byte.byte)
    (s : Audio) (dev : ALCdevice) (src : Source) :
  alOutDev s = Some dev ->
  al_sources (openal s) !! alMainSource s = Some src ->
  Z.of_nat (length data) * 1000 <= INT_MAX ->
  now envP + (durationMs data + 50) <= now envT ->
  exists s1 s2 s3 s4,
    playMono16Sound envP data s = Ok tt s1 /\ alMainBuffer s1 <> 0%N /\
    startLoop s1 = Ok tt s2 /\
    step envT (DriverFinished (alMainSource s)) s2 = Ok tt s2 /\
    playMono16Timer_event envT s2 = Ok tt s3 /\
    alMainBuffer s3 = alMainBuffer s1 /\ playMono16Timer s3 = None /\
    stopLoop s3 = Ok tt s4 /\
    alMainBuffer s4 = alMainBuffer s1 /\ playMono16Timer s4 = None /\
    (exists src4,
       al_sources (openal s4) !! alMainSource s = Some src4 /\
       src_state src4 = AL_STOPPED /\ src_looping src4 = false /\
       src_buffer src4 = alMainBuffer s1) /\
    (forall env, playMono16Timer_event env s4 = Ok tt s4).
Proof.
  intros Hdev Hsrc Hsize Hdue.
  destruct (wp_elim _ _ _ (playMono16Sound_starts envP data s dev src Hdev Hsrc Hsize))
    as ([] & s1 & Hrun1 & _ & Hmain & Hbuf & Htimer & src1 & Hsrc1 & Hplay & Hatt).
  set (s2 := set_openal
               (on_sources (alter (set_looping true) (alMainSource s1)) (openal s1))
               s1).
  assert (Hsrc2 : al_sources (openal s2) !! alMainSource s2
                  = Some (set_looping true src1)).
  { unfold s2. simpl_state.
    rewrite al_sources_alter, Hmain, lookup_alter_eq, Hsrc1. reflexivity. }
  set (s3 := set_playMono16Timer None s2).
  exists s1, s2, s3. eexists.
  split; [exact Hrun1|]. split; [exact Hbuf|].
  split; [apply startLoop_unfold|].
  split.
  { cbn [step]. unfold al, modify. f_equal.
    rewrite <- Hmain. change (alMainSource s1) with (alMainSource s2).
    rewrite on_sources_alter_id; [apply set_openal_same|].
    intros x Hx. rewrite Hsrc2 in Hx. injection Hx as <-.
    unfold finish_source. cbn [src_state set_looping src_looping].
    rewrite Hplay. reflexivity. }
  split.
  { rewrite (timer_event_due envT s2 _ (set_looping true src1) Htimer Hdue Hsrc2).
    cbn [src_state set_looping]. rewrite Hplay. reflexivity. }
  split; [reflexivity|]. split; [reflexivity|].
  split; [apply stopLoop_unfold|].
  subst s3 s2. simpl_state.
  split; [reflexivity|]. split; [reflexivity|]. split.
  - rewrite !al_sources_alter, Hmain.
    rewrite !lookup_alter_eq, Hsrc1. cbn [fmap option_fmap option_map].
    eexists. split; [reflexivity|].
    unfold compose, stop_source. cbn [src_state set_looping].
    rewrite Hplay. cbn. repeat split. exact Hatt.
  - intros env. apply timer_event_idle. reflexivity.
Qed.

Lemma looped_clip_is_not_cleaned_up_witness :
  alOutDev output_open = Some 8%N /\
  al_sources (openal output_open) !! alMainSource output_open = Some Source_new /\
  Z.of_nat (length [Byte.x61; Byte.x62]) * 1000 <= INT_MAX /\
  now env0 + (durationMs [Byte.x61; Byte.x62] + 50) <= now env_at_50 /\
  exists s1 s2 s3 s4,
    playMono16Sound env0 [Byte.x61; Byte.x62] output_open = Ok tt s1 /\
    startLoop s1 = Ok tt s2 /\
    playMono16Timer_event env_at_50 s2 = Ok tt s3 /\
    stopLoop s3 = Ok tt s4 /\
    alMainBuffer s4 <> 0%N /\ playMono16Timer s4 = None.
Proof.
  assert (H1 : alOutDev output_open = Some 8%N) by (vm_compute; reflexivity).
  assert (H2 : al_sources (openal output_open) !! alMainSource output_open
               = Some Source_new) by (vm_compute; reflexivity).
  assert (H3 : Z.of_nat (length [Byte.x61; Byte.x62]) * 1000 <= INT_MAX)
    by (vm_compute; discriminate).
  assert (H4 : now env0 + (durationMs [Byte.x61; Byte.x62] + 50) <= now env_at_50)
    by (vm_compute; discriminate).
  split; [exact H1|]. split; [exact H2|]. split; [exact H3|]. split; [exact H4|].
  destruct (looped_clip_is_not_cleaned_up env0 env_at_50 [Byte.x61; Byte.x62]
              output_open 8%N Source_new H1 H2 H3 H4)
    as (s1 & s2 & s3 & s4 & Hp & Hb1 & Hs & _ & He & _ & _ & Hst & Hb4 & Ht4 & _).
  exists s1, s2, s3, s4. split; [exact Hp|]. split; [exact Hs|].
  split; [exact He|]. split; [exact Hst|]. split; [congruence|exact Ht4].
Defined.
(** ** The two sessions side by side *)

Lemma step_sessions_apart (env : Env) (c : Call) (s : Audio) :
  wlp (step env c)
      (fun _ s' =>
         if is_capture_call c then playback_part s' = playback_part s
         else capture_part s' = capture_part s) s.
Proof.
  destruct c; cbn [step is_capture_call]; unfold_calls; wp_run; trivial.
Qed.

(** X26: capture and playback do not interfere.  A call of the capture
    side (the gain setters, [subscribeInput], [unsubscribeInput],
    [reinitInput], a capture tick) changes no member of the playback
    session and nothing in OpenAL; every other call, and the driver
    playing on its own, leaves the gain, the capture handle and the
    subscription count as they are.  So over a run that makes only
    playback calls the capture session does not move, and conversely. *)
Theorem capture_and_playback_do_not_interfere (calls : list (Env * Call))
    (s s' : Audio) :
  run calls s = Ok tt s' ->
  (Forall (fun ec : Env * Call => is_capture_call ec.2 = true) calls ->
     playback_part s' = playback_part s) /\
  (Forall (fun ec : Env * Call => is_capture_call ec.2 = false) calls ->
     capture_part s' = capture_part s).
Proof.
  revert s. induction calls as [|[env c] calls IH]; intros s Hrun.
  - apply Ok_inj in Hrun as [_ <-]. split; reflexivity.
  - cbn [run] in Hrun. unfold mbind, M_bind in Hrun.
    pose proof (step_sessions_apart env c s) as W. unfold wpg in W.
    destruct (step env c s) as [[] s1|]; [|discriminate].
    destruct (IH s1 Hrun) as [IHc IHp].
    split; intros Hall; apply Forall_cons_1 in Hall as [Hc Hall];
      cbn [snd] in Hc; rewrite Hc in W.
    + rewrite (IHc Hall). exact W.
    + rewrite (IHp Hall). exact W.
Qed.

Lemma capture_and_playback_do_not_interfere_witness :
  run one_voice Audio_new = Ok tt one_voice_state /\
  Forall (fun ec : Env * Call => is_capture_call ec.2 = false) one_voice /\
  capture_part one_voice_state = capture_part Audio_new.
Proof.
  assert (H1 : run one_voice Audio_new = Ok tt one_voice_state)
    by (vm_compute; reflexivity).
  assert (H2 : Forall (fun ec : Env * Call => is_capture_call ec.2 = false)
                 one_voice) by (repeat constructor).
  split; [exact H1|]. split; [exact H2|].
  exact (proj2 (capture_and_playback_do_not_interfere one_voice Audio_new
                  one_voice_state H1) H2).
Defined.

(** ** End of life *)

(** X27: the destructor releases what the driver lets go.  [~Audio] never
    fails an assertion: it returns for every state and every driver.  The
    playback session is uninitialized afterwards; a capture device that
    the driver closes is closed, and so is a playback device, with its
    one-shot buffer, its context and all its sources.  The subscription
    count and the voice set are left as they were. *)
Theorem Audio_delete_releases_devices (env : Env) (s : Audio) :
  exists s',
    Audio_delete env s = Ok tt s' /\
    outputInitialized s' = false /\
    inSubscriptions s' = inSubscriptions s /\ outSources s' = outSources s /\
    (alInDev s = None -> alInDev s' = None) /\
    (forall dev, alInDev s = Some dev ->
       alInDev s' = if alcCaptureCloseDevice env dev then None else Some dev) /\
    (alOutDev s = None -> alOutDev s' = None /\ openal s' = openal s) /\
    (forall dev, alOutDev s = Some dev ->
       alOutDev s' = (if alcCloseDevice env dev then None else Some dev) /\
       alOutContext s' = None /\ alMainBuffer s' = 0%N /\
       al_sources (openal s') = ∅).
Proof.
  apply wp_elim_unit. unfold Audio_delete, cleanupInput, cleanupOutput.
  wp_run.
  all: repeat match goal with
              | H : (_ =? _)%N = true |- _ => apply N.eqb_eq in H
              end.
  all: repeat match goal with |- _ /\ _ => split end; try reflexivity.
  all: try (intros; discriminate).
  all: try (intros ? [= <-]).
  all: repeat match goal with
              | H : alcCloseDevice _ _ = _ |- _ => rewrite H
              | H : alcCaptureCloseDevice _ _ = _ |- _ => rewrite H
              end.
  all: try (repeat split; first [reflexivity | assumption]).
  all: intros _; assumption.
Qed.

Lemma Audio_delete_releases_devices_witness :
  alOutDev clip_playing = Some 8%N /\ alInDev clip_playing = None /\
  exists s', Audio_delete env0 clip_playing = Ok tt s' /\
             alOutDev s' = None /\ alInDev s' = None /\ alMainBuffer s' = 0%N.
Proof.
  assert (H1 : alOutDev clip_playing = Some 8%N) by reflexivity.
  assert (H2 : alInDev clip_playing = None) by reflexivity.
  split; [exact H1|]. split; [exact H2|].
  destruct (Audio_delete_releases_devices env0 clip_playing)
    as (s' & Hrun & _ & _ & _ & Hin & _ & _ & Hout).
  destruct (Hout 8%N H1) as (Hdev & _ & Hbuf & _).
  exists s'. split; [exact Hrun|]. split; [exact Hdev|].
  split; [exact (Hin H2)|exact Hbuf].
Defined.
(** ** The cleanup timer after a teardown *)

Lemma zero_on_sources (f : gmap N Source -> gmap N Source) (w : OpenAL) :
  no_buffer_zero w -> no_buffer_zero (on_sources f w).
Proof. intros H. exact H. Qed.

Lemma zero_alBufferData (bid : ALuint) (b : Buffer) (w : OpenAL) :
  no_buffer_zero w -> no_buffer_zero (alBufferData bid b w).
Proof.
  unfold no_buffer_zero, alBufferData, on_buffers. intros H.
  destruct (buffer_in_use bid w); [exact H|].
  destruct (al_context w); [|exact H]. cbn [al_buffers].
  apply lookup_alter_None. exact H.
Qed.

Lemma zero_alDeleteBuffers (bids : list ALuint) (w : OpenAL) :
  no_buffer_zero w -> no_buffer_zero (alDeleteBuffers bids w).
Proof.
  unfold no_buffer_zero, alDeleteBuffers, on_buffers. intros H.
  destruct (forallb _ bids); [|exact H].
  destruct (al_context w); [|exact H]. cbn [al_buffers].
  induction bids as [|b bids IH]; [exact H|]. cbn [foldr].
  apply lookup_delete_None. right. exact IH.
Qed.

Lemma zero_genSources (sid : ALuint) (w : OpenAL) :
  no_buffer_zero w -> no_buffer_zero (alGenSources sid w).2.
Proof.
  unfold no_buffer_zero, alGenSources. intros H.
  destruct (al_context w); exact H.
Qed.

Lemma zero_genBuffers (bid : ALuint) (w : OpenAL) :
  no_buffer_zero w -> no_buffer_zero (alGenBuffers bid w).2.
Proof.
  unfold no_buffer_zero, alGenBuffers. intros H.
  destruct (al_context w); [|exact H]. cbn [snd al_buffers].
  apply lookup_insert_None. split; [exact H|lia].
Qed.

Lemma zero_makeCurrent (ctx : option ALCcontext) (w : OpenAL) :
  no_buffer_zero w -> no_buffer_zero (makeCurrent ctx w).
Proof.
  unfold no_buffer_zero, makeCurrent. intros H.
  destruct ctx, (al_context w); exact H.
Qed.

Lemma zero_alcDestroyContext (w : OpenAL) :
  no_buffer_zero w -> no_buffer_zero (alcDestroyContext w).
Proof. intros H. exact H. Qed.

Ltac zero_step :=
  lazymatch goal with
  | |- no_buffer_zero (alGenSources _ _).2 => apply zero_genSources
  | |- no_buffer_zero (alGenBuffers _ _).2 => apply zero_genBuffers
  | |- no_buffer_zero (alBufferData _ _ _) => apply zero_alBufferData
  | |- no_buffer_zero (alDeleteBuffers _ _) => apply zero_alDeleteBuffers
  | |- no_buffer_zero (makeCurrent _ _) => apply zero_makeCurrent
  | |- no_buffer_zero (alcDestroyContext _) => apply zero_alcDestroyContext
  | |- no_buffer_zero (on_sources _ _) => apply zero_on_sources
  | |- no_buffer_zero _ => assumption
  end.

Ltac zero_tac := repeat zero_step.

Lemma step_no_buffer_zero (env : Env) (c : Call) (s : Audio) :
  no_buffer_zero (openal s) ->
  wlp (step env c) (fun _ s' => no_buffer_zero (openal s')) s.
Proof.
  intros Hz.
  destruct c; cbn [step]; unfold_calls; wp_run; trivial.
  all: unfold alSourcePlay, alSourceStop, alDeleteSources, alSourcei_BUFFER,
         alSourcei_LOOPING, alSourceQueueBuffers, alSourceUnqueueBuffers.
  all: zero_tac.
Qed.

Lemma reachable_no_buffer_zero (s : Audio) :
  reachable s -> no_buffer_zero (openal s).
Proof.
  intros [calls Hrun]. revert Hrun.
  assert (H0 : no_buffer_zero (openal Audio_new)) by reflexivity.
  revert H0. generalize Audio_new.
  induction calls as [|[env c] calls IH]; intros s0 H0 Hrun.
  - apply Ok_inj in Hrun as [_ <-]. exact H0.
  - cbn [run] in Hrun. unfold mbind, M_bind in Hrun.
    pose proof (step_no_buffer_zero env c s0 H0) as W. unfold wpg in W.
    destruct (step env c s0) as [[] s1|]; [|discriminate].
    exact (IH s1 W Hrun).
Qed.

Lemma cleanupOutput_keeps (env : Env) (s : Audio) :
  wp (cleanupOutput env)
     (fun _ s' =>
        playMono16Timer s' = playMono16Timer s /\
        alMainSource s' = alMainSource s /\
        (no_buffer_zero (openal s) -> no_buffer_zero (openal s'))) s.
Proof.
  unfold cleanupOutput. wp_run.
  all: split; [reflexivity|]; split; [reflexivity|]; intros Hz.
  all: unfold alSourceStop, alDeleteSources, alSourcei_LOOPING.
  all: zero_tac.
Qed.

Lemma timer_event_without_voice (env : Env) (s : Audio) (deadline : Z) :
  playMono16Timer s = Some deadline -> deadline <= now env ->
  al_sources (openal s) !! alMainSource s = None ->
  alMainBuffer s = 0%N -> no_buffer_zero (openal s) ->
  playMono16Timer_event env s = Ok tt (set_playMono16Timer None s).
Proof.
  intros Ht Hdue Hsrc Hbuf Hz.
  assert (E : (deadline <=? now env) = true) by lia.
  unfold playMono16Timer_event, playMono16SoundCleanup, getSourceState.
  unfold mbind, M_bind, gets, when, al, modify, mret, M_ret.
  rewrite Ht, E. simpl_state. rewrite Hsrc.
  destruct (SourceState_eqb (indeterminate env) AL_STOPPED); [|reflexivity].
  simpl_state. rewrite Hbuf.
  unfold alSourcei_BUFFER. rewrite alter_absent by exact Hsrc.
  assert (Hdel : alDeleteBuffers [0%N] (openal s) = openal s).
  { unfold alDeleteBuffers, on_buffers. cbn [forallb foldr].
    destruct (deletable 0%N (openal s) && true); [|reflexivity].
    destruct (al_context (openal s)) eqn:Hctx; [|reflexivity].
    rewrite delete_id by exact Hz. rewrite <- Hctx. apply OpenAL_eta. }
  unfold ALuint in *. rewrite Hdel.
  destruct s. cbn in *. subst. reflexivity.
Qed.

(** X28: a teardown does not cancel the cleanup timer, and the late timer
    event is harmless.  In a reachable state with the playback device
    open, no voice subscribed and the timer of a clip pending,
    [unsubscribeOutput] tears the session down: the dedicated voice and
    the clip's buffer are deleted, but the timer stays armed.  When it
    fires, [playMono16SoundCleanup] asks for the state of a source that no
    longer exists, so its local [state] keeps whatever it held; whichever
    value that is, the event changes nothing but the timer, which is
    spent. *)
Theorem pending_timer_survives_teardown (env envT : Env) (sid : ALuint)
    (s : Audio) (dev : ALCdevice) (deadline : Z) :
  reachable s -> outSources s = [] -> alOutDev s = Some dev ->
  playMono16Timer s = Some deadline -> deadline <= now envT ->
  exists s1,
    unsubscribeOutput env sid s = Ok 0%N s1 /\
    playMono16Timer s1 = Some deadline /\
    alMainBuffer s1 = 0%N /\
    alIsSource (alMainSource s1) (openal s1) = false /\
    playMono16Timer_event envT s1 = Ok tt (set_playMono16Timer None s1).
Proof.
  intros Hr Hvoices Hdev Ht Hdue.
  pose proof (reachable_no_buffer_zero s Hr) as Hz.
  destruct (unsubscribeOutput_cases env sid s) as (s1 & Hrun & _ & Hdown & _).
  assert (E : removeAll sid (outSources s) = []) by (rewrite Hvoices; reflexivity).
  destruct (Hdown E) as (Hclean & _ & _ & Hopen).
  destruct (Hopen dev Hdev) as (Hbuf & _ & Hsrc & _).
  pose proof (cleanupOutput_keeps env (afterVoiceRemoval sid s)) as W.
  unfold wpg in W. rewrite Hclean in W. destruct W as (Ht1 & _ & Hz1).
  assert (Ht0 : playMono16Timer (afterVoiceRemoval sid s) = Some deadline).
  { unfold afterVoiceRemoval. simpl_state.
    destruct (sid =? 0)%N; [|destruct (alIsSource _ _)]; simpl_state; exact Ht. }
  assert (Hz0 : no_buffer_zero (openal (afterVoiceRemoval sid s))).
  { unfold afterVoiceRemoval. simpl_state.
    destruct (sid =? 0)%N; [|destruct (alIsSource _ _)]; simpl_state;
      exact Hz. }
  assert (Hnone : al_sources (openal s1) !! alMainSource s1 = None)
    by (rewrite Hsrc; apply lookup_empty).
  exists s1. split; [exact Hrun|]. split; [congruence|]. split; [exact Hbuf|].
  split; [apply alIsSource_false; exact Hnone|].
  apply (timer_event_without_voice envT s1 deadline); auto. congruence.
Qed.

Lemma reachable_clip_playing : reachable clip_playing.
Proof.
  exists [(env0, PlayMono16Sound [Byte.x61; Byte.x62])]. vm_compute. reflexivity.
Qed.

Lemma pending_timer_survives_teardown_witness :
  reachable clip_playing /\ outSources clip_playing = [] /\
  alOutDev clip_playing = Some 8%N /\ playMono16Timer clip_playing = Some 50 /\
  50 <= now env_at_50 /\
  exists s1,
    unsubscribeOutput env0 0%N clip_playing = Ok 0%N s1 /\
    playMono16Timer s1 = Some 50 /\
    playMono16Timer_event env_at_50 s1 = Ok tt (set_playMono16Timer None s1).
Proof.
  assert (H1 : outSources clip_playing = []) by reflexivity.
  assert (H2 : alOutDev clip_playing = Some 8%N) by reflexivity.
  assert (H3 : playMono16Timer clip_playing = Some 50) by reflexivity.
  assert (H4 : 50 <= now env_at_50) by (vm_compute; discriminate).
  split; [exact reachable_clip_playing|]. split; [exact H1|]. split; [exact H2|].
  split; [exact H3|]. split; [exact H4|].
  destruct (pending_timer_survives_teardown env0 env_at_50 0%N clip_playing 8%N 50
              reachable_clip_playing H1 H2 H3 H4)
    as (s1 & Hrun & Ht & _ & _ & Hev).
  exists s1. split; [exact Hrun|]. split; [exact Ht|exact Hev].
Defined.
